(** * TI System Control Interface protocol driver: transfer layer

    A shallow embedding of [drivers/firmware/ti_sci.c]: the pool of
    pre-allocated transfers, the counting semaphore that bounds the
    pending messages, the allocation bitmap whose index is the message
    sequence identifier, the receive callback, and the synchronous
    transfer built from them.

    Integers are [Z] with the C conversions written out; buffers are
    lists of bytes (each a [Z] below 256); the bitmap is its array of
    [unsigned long] words; the array [xfer_block] is a list read with
    [!!] and updated with [<[ _ := _ ]>]; a pointer to a transfer is its
    index in [xfer_block]. An access outside [xfer_block] or outside
    the words of the bitmap is undefined in C and is [None] here.

    The handles given to clients ([ti_sci_get_handle],
    [ti_sci_put_handle], their managed variants and [ti_sci_remove])
    are modelled over the instances, by address, and the list
    [ti_sci_list]; the debug log file over the debug fields of the
    instance. *)

From Stdlib Require Import ZArith Lia Bool List.
From stdpp Require Import base option list.
Import ListNotations.

Local Open Scope Z_scope.

(** ** Error numbers and integer conversions *)

(** Modelled from the spec: the error numbers of [asm-generic/errno.h]
    and [asm-generic/errno-base.h] are not among the sources. The range
    error, the two timeouts and the initialisation errors are distinct
    positive numbers, here those of Linux. *)
Definition EINVAL : Z := 22.
Definition ENOMEM : Z := 12.
Definition ERANGE : Z := 34.
Definition ETIME : Z := 62.
Definition ETIMEDOUT : Z := 110.

(** The K2G host is a 32-bit core: [size_t] and [unsigned long] have
    32 bits. *)
Definition BITS_PER_LONG : Z := 32.

(** Conversion of an [int] operand to [size_t] in a mixed comparison. *)
Definition size_t_of_int (v : Z) : Z := v mod 2 ^ BITS_PER_LONG.

(** The cast [(u8)v]. *)
Definition u8 (v : Z) : Z := v mod 256.

(** ** Bitmap operations on [xfer_alloc_table] *)

Module Bitmap.

(** Modelled from the spec: the bit operations of [linux/bitmap.h] and
    [linux/bitops.h] are not among the sources. The allocation table is
    a bitmap of slot-in-use flags, kept in an array of [unsigned long]:
    bit [nr] is bit [nr mod BITS_PER_LONG] of word [nr / BITS_PER_LONG].
    An operation on a bit whose word is not in the array has no
    result. *)
Definition BITS_TO_LONGS (nr : Z) : Z := (nr + BITS_PER_LONG - 1) / BITS_PER_LONG.

Definition BIT_MASK (nr : Z) : Z := Z.shiftl 1 (nr mod BITS_PER_LONG).

Definition BIT_WORD (nr : Z) : nat := Z.to_nat (nr / BITS_PER_LONG).

Definition word_of (nr : Z) (addr : list Z) : option Z :=
  if nr <? 0 then None else addr !! BIT_WORD nr.

Definition test_bit (nr : Z) (addr : list Z) : option bool :=
  w ← word_of nr addr;
  Some (Z.testbit w (nr mod BITS_PER_LONG)).

Definition set_bit (nr : Z) (addr : list Z) : option (list Z) :=
  w ← word_of nr addr;
  Some (<[BIT_WORD nr := Z.lor w (BIT_MASK nr)]> addr).

Definition clear_bit (nr : Z) (addr : list Z) : option (list Z) :=
  w ← word_of nr addr;
  Some (<[BIT_WORD nr := Z.ldiff w (BIT_MASK nr)]> addr).

Definition bitmap_zero (nbits : Z) : list Z :=
  replicate (Z.to_nat (BITS_TO_LONGS nbits)) 0.

(** The flag of slot [nr]; a bit outside the array counts as clear. *)
Definition bit (addr : list Z) (nr : Z) : bool :=
  default false (test_bit nr addr).

Fixpoint find_zero_from (addr : list Z) (i : Z) (n : nat) : Z :=
  match n with
  | O => i
  | S n' => if bit addr i then find_zero_from addr (i + 1) n' else i
  end.

(** Modelled from the spec: [find_first_zero_bit] finds the
    lowest-numbered clear bit below [size], where [size] is within the
    array; when every bit below [size] is set it returns [size]. *)
Definition find_first_zero_bit (addr : list Z) (size : Z) : Z :=
  find_zero_from addr 0 (Z.to_nat size).

Fixpoint weight_upto (addr : list Z) (n : nat) : Z :=
  match n with
  | O => 0
  | S n' => weight_upto addr n' + (if bit addr (Z.of_nat n') then 1 else 0)
  end.

(** Number of set bits below [nbits]. *)
Definition bitmap_weight (addr : list Z) (nbits : Z) : Z :=
  weight_upto addr (Z.to_nat nbits).

End Bitmap.

Import Bitmap.

(** ** The admission semaphore [sem_xfer_count] *)

(** Modelled from the spec: the counting semaphore of
    [linux/semaphore.h] is not among the sources. It is the counting
    primitive that bounds the slots in use: a counter of free credits.
    [down_timeout] takes a credit when one is free; when none is free
    and none is returned during the bounded wait it gives up with
    [-ETIME]. A credit returned by another thread during the wait is an
    [up] that precedes the acquisition in the interleaving. *)
Definition sema_init (val : Z) : Z := val.

Definition down_timeout (count : Z) : Z * Z :=
  if 0 <? count then (0, count - 1) else (- ETIME, count).

Definition up (count : Z) : Z := count + 1.

(** ** The completion event [done] *)

(** Modelled from the spec: the completion of [linux/completion.h] is
    not among the sources. The completion signal is the number of
    signals not yet consumed: arming sets it to zero, [complete] adds
    one, and the signal is satisfied while it is positive. *)
Definition init_completion : nat := O.

Definition reinit_completion (x : nat) : nat := O.

Definition complete (x : nat) : nat := S x.

(** ** Messages and the fixed header *)

(** Modelled from the spec: [struct ti_msgmgr_message] of
    [linux/ti-msgmgr.h] is not among the sources. A message is a length
    and the transport's buffer; the buffer memory may extend past
    [len]. *)
Record ti_msgmgr_message := {
  len : Z;
  buf : list Z
}.

Definition read_u8 (b : list Z) (off : nat) : Z := default 0 (b !! off).

Definition write_u8 (off : nat) (v : Z) (b : list Z) : list Z :=
  <[off := u8 v]> b.

(** Modelled from the spec: [struct ti_sci_msg_hdr] is declared in
    [ti_sci.h], which is not among the sources. The header has the
    fixed-width fields type, host, seq, flags in this order; the widths
    are those of the values the driver stores in them ([u16 msg_type],
    [u8 host_id], [u8 xfer_id], [u32 msg_flags]), eight bytes in all,
    stored little-endian. *)
Definition SIZEOF_HDR : Z := 8.

Definition hdr_type (b : list Z) : Z := read_u8 b 0 + 2 ^ 8 * read_u8 b 1.

Definition hdr_host (b : list Z) : Z := read_u8 b 2.

Definition hdr_seq (b : list Z) : Z := read_u8 b 3.

Definition hdr_flags (b : list Z) : Z :=
  read_u8 b 4 + 2 ^ 8 * read_u8 b 5 + 2 ^ 16 * read_u8 b 6 + 2 ^ 24 * read_u8 b 7.

Definition set_hdr_type (v : Z) (b : list Z) : list Z :=
  write_u8 1 (Z.shiftr v 8) (write_u8 0 v b).

Definition set_hdr_host (v : Z) (b : list Z) : list Z := write_u8 2 v b.

Definition set_hdr_seq (v : Z) (b : list Z) : list Z := write_u8 3 v b.

Definition set_hdr_flags (v : Z) (b : list Z) : list Z :=
  write_u8 7 (Z.shiftr v 24)
    (write_u8 6 (Z.shiftr v 16) (write_u8 5 (Z.shiftr v 8) (write_u8 4 v b))).

(** [memcpy dst src n]: the first [n] bytes of [dst] become the first
    [n] bytes at [src]. *)
Definition memcpy (dst src : list Z) (n : nat) : list Z :=
  (read_u8 src <$> seq 0 n) ++ drop n dst.

(** ** Driver data *)

Record ti_sci_xfer := {
  tx_message_len : Z;   (* tx_message.len; tx_message.buf is xfer_buf *)
  rx_len : Z;
  xfer_buf : list Z;
  done : nat
}.

Record ti_sci_xfers_info := {
  sem_xfer_count : Z;
  xfer_block : list ti_sci_xfer;
  xfer_alloc_table : list Z
}.

Record ti_sci_desc := {
  host_id : Z;
  max_rx_timeout_ms : Z;
  max_msgs : Z;
  max_msg_size : Z
}.

Record ti_sci_version_info := {
  abi_major : Z;
  abi_minor : Z;
  firmware_revision : Z;
  firmware_description : list Z
}.

Record ti_sci_info := {
  desc : ti_sci_desc;
  version : ti_sci_version_info;   (* handle.version *)
  minfo : ti_sci_xfers_info
}.

Definition set_sem (c : Z) (mi : ti_sci_xfers_info) : ti_sci_xfers_info :=
  {| sem_xfer_count := c;
     xfer_block := xfer_block mi;
     xfer_alloc_table := xfer_alloc_table mi |}.

Definition set_table (t : list Z) (mi : ti_sci_xfers_info) : ti_sci_xfers_info :=
  {| sem_xfer_count := sem_xfer_count mi;
     xfer_block := xfer_block mi;
     xfer_alloc_table := t |}.

Definition set_xfer (i : Z) (x : ti_sci_xfer) (mi : ti_sci_xfers_info)
  : ti_sci_xfers_info :=
  {| sem_xfer_count := sem_xfer_count mi;
     xfer_block := <[Z.to_nat i := x]> (xfer_block mi);
     xfer_alloc_table := xfer_alloc_table mi |}.

Definition get_xfer (mi : ti_sci_xfers_info) (i : Z) : option ti_sci_xfer :=
  xfer_block mi !! Z.to_nat i.

Definition set_minfo (mi : ti_sci_xfers_info) (info : ti_sci_info) : ti_sci_info :=
  {| desc := desc info; version := version info; minfo := mi |}.

Definition set_version (v : ti_sci_version_info) (info : ti_sci_info) : ti_sci_info :=
  {| desc := desc info; version := v; minfo := minfo info |}.

(** Description for K2G. *)
Definition ti_sci_pmmc_k2g_desc : ti_sci_desc :=
  {| host_id := 2; max_rx_timeout_ms := 200; max_msgs := 128; max_msg_size := 64 |}.

(** ** Observable events: device log lines and mailbox submissions *)

Inductive event :=
| err_not_expected (xfer_id : Z)
| err_unable_to_handle (mlen max : Z)
| err_recv_short (mlen expected : Z)
| dbg_msghdr (type host seq flags : Z)
| err_mbox_timedout
| err_alloc_failed (ret : Z)
| err_send_fail (ret : Z)
| err_of_data_missing
| warn_max_msgs
| warn_debugfs
| err_no_tisci (ret : Z)
| info_abi (v : ti_sci_version_info)
| mbox_send_message (m : ti_msgmgr_message)
| mbox_client_txdone.

Definition ti_sci_dump_header_dbg (hdr : list Z) : event :=
  dbg_msghdr (hdr_type hdr) (hdr_host hdr) (hdr_seq hdr) (hdr_flags hdr).

(** ** [ti_sci_rx_callback] *)

(** "Take a copy to the rx buffer" and [complete]: the transfer after
    an accepted message. *)
Definition delivered (xfer : ti_sci_xfer) (m : ti_msgmgr_message) : ti_sci_xfer :=
  {| tx_message_len := tx_message_len xfer;
     rx_len := rx_len xfer;
     xfer_buf := memcpy (xfer_buf xfer) (buf m) (Z.to_nat (rx_len xfer));
     done := complete (done xfer) |}.

Definition ti_sci_rx_callback (info : ti_sci_info) (m : ti_msgmgr_message)
  : option (list event * ti_sci_info) :=
  let mi := minfo info in
  let hdr := buf m in
  let xfer_id := hdr_seq hdr in
  expected ← test_bit xfer_id (xfer_alloc_table mi);
  if negb expected then
    Some ([err_not_expected xfer_id], info)
  else
    xfer ← get_xfer mi xfer_id;
    if size_t_of_int (max_msg_size (desc info)) <? len m then
      Some ([err_unable_to_handle (len m) (max_msg_size (desc info));
             ti_sci_dump_header_dbg hdr], info)
    else if len m <? rx_len xfer then
      Some ([err_recv_short (len m) (rx_len xfer); ti_sci_dump_header_dbg hdr], info)
    else
      Some ([ti_sci_dump_header_dbg hdr],
            set_minfo (set_xfer xfer_id (delivered xfer m) mi) info).

(** ** [ti_sci_get_one_xfer] *)

(** The result of [ti_sci_get_one_xfer]: an error pointer or a pointer
    into [xfer_block], given by its index. *)
Inductive xfer_ptr :=
| ERR_PTR (err : Z)
| XFER (idx : Z).

(** "Ensure we have sane transfer sizes": the condition that returns
    [-ERANGE], as written. *)
Definition bad_transfer_sizes (d : ti_sci_desc) (tx_message_size rx_message_size : Z)
  : bool :=
  (size_t_of_int (max_msg_size d) <? rx_message_size)
  || (size_t_of_int (max_msg_size d) <? tx_message_size)
  || (rx_message_size <? SIZEOF_HDR)
  || (rx_message_size <? SIZEOF_HDR).

(** The section under [xfer_lock]: find the first zero bit and set it. *)
Definition xfer_mark (d : ti_sci_desc) (mi : ti_sci_xfers_info)
  : option (Z * ti_sci_xfers_info) :=
  let bit_pos := find_first_zero_bit (xfer_alloc_table mi) (max_msgs d) in
  table ← set_bit bit_pos (xfer_alloc_table mi);
  Some (bit_pos, set_table table mi).

(** The header stores of [ti_sci_get_one_xfer], in its order: seq,
    type, host, flags. *)
Definition stamp (d : ti_sci_desc) (xfer_id msg_type msg_flags : Z) (b : list Z)
  : list Z :=
  set_hdr_flags msg_flags
    (set_hdr_host (host_id d) (set_hdr_type msg_type (set_hdr_seq xfer_id b))).

(** The transfer as [ti_sci_get_one_xfer] sets it up: lengths stored,
    completion re-armed, header written. *)
Definition prepared (d : ti_sci_desc)
    (xfer_id msg_type msg_flags tx_message_size rx_message_size : Z)
    (xfer : ti_sci_xfer) : ti_sci_xfer :=
  {| tx_message_len := tx_message_size;
     rx_len := u8 rx_message_size;
     xfer_buf := stamp d xfer_id msg_type msg_flags (xfer_buf xfer);
     done := reinit_completion (done xfer) |}.

(** After the lock is dropped: the transfer at [(u8)bit_pos] is set up
    and its header written. *)
Definition xfer_prepare (d : ti_sci_desc) (bit_pos : Z)
    (msg_type msg_flags tx_message_size rx_message_size : Z)
    (mi : ti_sci_xfers_info) : option (Z * ti_sci_xfers_info) :=
  let xfer_id := u8 bit_pos in
  xfer ← get_xfer mi xfer_id;
  Some (xfer_id,
        set_xfer xfer_id
          (prepared d xfer_id msg_type msg_flags tx_message_size rx_message_size xfer)
          mi).

Definition ti_sci_get_one_xfer (info : ti_sci_info)
    (msg_type msg_flags tx_message_size rx_message_size : Z)
  : option (xfer_ptr * ti_sci_info) :=
  if bad_transfer_sizes (desc info) tx_message_size rx_message_size then
    Some (ERR_PTR (- ERANGE), info)
  else
    let '(ret, count) := down_timeout (sem_xfer_count (minfo info)) in
    if ret <? 0 then Some (ERR_PTR ret, info)
    else
      '(bit_pos, mi) ← xfer_mark (desc info) (set_sem count (minfo info));
      '(xfer_id, mi') ←
        xfer_prepare (desc info) bit_pos msg_type msg_flags
          tx_message_size rx_message_size mi;
      Some (XFER xfer_id, set_minfo mi' info).

(** ** [ti_sci_put_one_xfer] *)

(** The section under [xfer_lock]: clear the bit named by the header's
    sequence identifier. *)
Definition xfer_unmark (mi : ti_sci_xfers_info) (xfer : Z)
  : option ti_sci_xfers_info :=
  x ← get_xfer mi xfer;
  let xfer_id := hdr_seq (xfer_buf x) in
  table ← clear_bit xfer_id (xfer_alloc_table mi);
  Some (set_table table mi).

Definition ti_sci_put_one_xfer (mi : ti_sci_xfers_info) (xfer : Z)
  : option ti_sci_xfers_info :=
  mi' ← xfer_unmark mi xfer;
  Some (set_sem (up (sem_xfer_count mi')) mi').

(** ** [ti_sci_do_xfer] *)

(** What the mailbox does during one transfer: the value returned by
    [mbox_send_message], and the messages it delivers to the receive
    callback while the caller waits for the response. *)
Record mbox_env := {
  send_ret : Z;
  arrivals : list ti_msgmgr_message
}.

Definition set_done (n : nat) (x : ti_sci_xfer) : ti_sci_xfer :=
  {| tx_message_len := tx_message_len x;
     rx_len := rx_len x;
     xfer_buf := xfer_buf x;
     done := n |}.

(** Modelled from the spec: wait-with-timeout on the completion signal.
    The caller sleeps until the signal is satisfied, which it consumes,
    returning the (positive) time left, or until the response window
    ends, returning zero. Each message delivered during the sleep runs
    [ti_sci_rx_callback]; the window ends when the deliveries do. *)
Fixpoint wait_for_completion_timeout (info : ti_sci_info) (xfer : Z)
    (deliveries : list ti_msgmgr_message)
  : option (Z * list event * ti_sci_info) :=
  x ← get_xfer (minfo info) xfer;
  match done x with
  | S n => Some (1, [], set_minfo (set_xfer xfer (set_done n x) (minfo info)) info)
  | O =>
      match deliveries with
      | [] => Some (0, [], info)
      | m :: rest =>
          '(log, info') ← ti_sci_rx_callback info m;
          '(remaining, log', info'') ← wait_for_completion_timeout info' xfer rest;
          Some (remaining, log ++ log', info'')
      end
  end.

Definition tx_message (x : ti_sci_xfer) : ti_msgmgr_message :=
  {| len := tx_message_len x; buf := xfer_buf x |}.

Definition ti_sci_do_xfer (info : ti_sci_info) (xfer : Z) (env : mbox_env)
  : option (Z * list event * ti_sci_info) :=
  x ← get_xfer (minfo info) xfer;
  let ret := send_ret env in
  if ret <? 0 then Some (ret, [mbox_send_message (tx_message x)], info)
  else
    '(remaining, log, info') ← wait_for_completion_timeout info xfer (arrivals env);
    let sent := [mbox_send_message (tx_message x); mbox_client_txdone] in
    if remaining =? 0 then Some (- ETIMEDOUT, sent ++ log ++ [err_mbox_timedout], info')
    else Some (0, sent ++ log, info').

(** ** [ti_sci_cmd_get_revision] and [ti_sci_probe] *)

(** Modelled from the spec: [strncpy] of [linux/string.h] is not among
    the sources; it copies at most [n] bytes, stops at the terminator
    and fills the rest of the [n] bytes with zeros. *)
Fixpoint strncpy (src : list Z) (n : nat) : list Z :=
  match n with
  | O => []
  | S n' =>
      match src with
      | [] => replicate n 0
      | c :: s => if c =? 0 then replicate n 0 else c :: strncpy s n'
      end
  end.

(** What [devm_kzalloc]/[devm_kcalloc] keep for the device. *)
Inductive devres :=
| res_info
| res_xfer_block (n : Z)
| res_xfer_alloc_table (longs : Z)
| res_xfer_buf (i : nat) (size : Z).

(** What the platform answers during [ti_sci_probe]. *)
Record probe_env := {
  of_match_device : option ti_sci_desc;
  kzalloc_info_ok : bool;
  kcalloc_xfer_block_ok : bool;
  kzalloc_alloc_table_ok : bool;
  kcalloc_xfer_buf_ok : nat -> bool;
  debugfs_create_ret : Z;
  chan_rx_err : Z;        (* zero, or the error in the pointer *)
  chan_tx_err : Z;
  mbox : mbox_env
}.

Record probe_result := {
  probe_ret : Z;
  probe_devres : list devres;
  probe_drvdata : option ti_sci_info;
  probe_listed : bool;      (* added to ti_sci_list *)
  probe_log : list event
}.

(** Modelled from the spec: [devm_kzalloc] and [devm_kcalloc] of
    [linux/device.h] are not among the sources. The pool is sized once
    at initialisation; an allocation of [n] units succeeds when the
    allocator has the memory, and a negative [int] count is, as
    [size_t], too large for it. *)
Definition devm_alloc (ok : bool) (n : Z) : bool := ok && (0 <=? n).

(** A transfer after the pre-initialisation loop of [ti_sci_probe]:
    zeroed by [devm_kcalloc], with its zeroed buffer of [max_msg_size]
    bytes and its completion initialised. *)
Definition prealloc_xfer (d : ti_sci_desc) : ti_sci_xfer :=
  {| tx_message_len := 0;
     rx_len := 0;
     xfer_buf := replicate (Z.to_nat (max_msg_size d)) 0;
     done := init_completion |}.

(** The loop "Pre-initialize the buffer pointer to pre-allocated
    buffers", from index [i] for [n] transfers: the buffers allocated,
    and the block unless an allocation failed. *)
Fixpoint prealloc_xfers (d : ti_sci_desc) (ok : nat -> bool) (i n : nat)
  : list devres * option (list ti_sci_xfer) :=
  match n with
  | O => ([], Some [])
  | S n' =>
      if devm_alloc (ok i) (max_msg_size d) then
        let '(res, rest) := prealloc_xfers d ok (S i) n' in
        (res_xfer_buf i (max_msg_size d) :: res, cons (prealloc_xfer d) <$> rest)
      else ([], None)
  end.

Definition zero_version : ti_sci_version_info :=
  {| abi_major := 0; abi_minor := 0; firmware_revision := 0;
     firmware_description := [] |}.

(** Modelled from the spec: the size in bytes of the [seq] field of
    the header of [ti_sci.h], a [u8]. *)
Definition SIZEOF_SEQ : Z := 1.

Section Commands.

(** Constants and layouts of [ti_sci.h] and [linux/ti_sci_protocol.h],
    which are not among the sources: the version message type, the size
    of [struct ti_sci_msg_resp_version], the view of a buffer as that
    structure, and the size of the [firmware_description] array of the
    handle. *)
Variable TI_SCI_MSG_VERSION : Z.
Variable SIZEOF_RESP_VERSION : Z.
Variable rev_info : list Z -> ti_sci_version_info.
Variable SIZEOF_FIRMWARE_DESCRIPTION : nat.

Definition ti_sci_cmd_get_revision (info : ti_sci_info) (env : mbox_env)
  : option (Z * list event * ti_sci_info) :=
  '(p, info1) ←
    ti_sci_get_one_xfer info TI_SCI_MSG_VERSION 0 SIZEOF_HDR SIZEOF_RESP_VERSION;
  match p with
  | ERR_PTR ret => Some (ret, [err_alloc_failed ret], info1)
  | XFER xfer =>
      '(ret, log, info2) ← ti_sci_do_xfer info1 xfer env;
      if negb (ret =? 0) then
        mi ← ti_sci_put_one_xfer (minfo info2) xfer;
        Some (ret, log ++ [err_send_fail ret], set_minfo mi info2)
      else
        x ← get_xfer (minfo info2) xfer;
        let r := rev_info (xfer_buf x) in
        let ver :=
          {| abi_major := abi_major r;
             abi_minor := abi_minor r;
             firmware_revision := firmware_revision r;
             firmware_description :=
               strncpy (firmware_description r) SIZEOF_FIRMWARE_DESCRIPTION |} in
        mi ← ti_sci_put_one_xfer (minfo info2) xfer;
        Some (ret, log, set_minfo mi (set_version ver info2))
  end.

(** The instance as [ti_sci_probe] has built it when it requests the
    mailbox channels: the pre-allocated block, the zeroed bitmap, and
    the semaphore initialised to [max_msgs]. *)
Definition probed_info (d : ti_sci_desc) (block : list ti_sci_xfer) : ti_sci_info :=
  {| desc := d;
     version := zero_version;
     minfo := {| sem_xfer_count := sema_init (max_msgs d);
                 xfer_block := block;
                 xfer_alloc_table := bitmap_zero (max_msgs d) |} |}.

Definition probe_fail (ret : Z) (res : list devres) (data : option ti_sci_info)
    (log : list event) : probe_result :=
  {| probe_ret := ret; probe_devres := res; probe_drvdata := data;
     probe_listed := false; probe_log := log |}.

Definition ti_sci_probe (env : probe_env) : option probe_result :=
  match of_match_device env with
  | None => Some (probe_fail (- EINVAL) [] None [err_of_data_missing])
  | Some d =>
      if negb (kzalloc_info_ok env) then Some (probe_fail (- ENOMEM) [] None [])
      else if Z.shiftl 1 (8 * SIZEOF_SEQ) <=? max_msgs d then
        Some (probe_fail (- EINVAL) [res_info] None [warn_max_msgs])
      else if negb (devm_alloc (kcalloc_xfer_block_ok env) (max_msgs d)) then
        Some (probe_fail (- ENOMEM) [res_info] None [])
      else
        let res1 := [res_info; res_xfer_block (max_msgs d)] in
        if negb (devm_alloc (kzalloc_alloc_table_ok env)
                   (BITS_TO_LONGS (max_msgs d))) then
          Some (probe_fail (- ENOMEM) res1 None [])
        else
          let res2 := res1 ++ [res_xfer_alloc_table (BITS_TO_LONGS (max_msgs d))] in
          match prealloc_xfers d (kcalloc_xfer_buf_ok env) 0
                  (Z.to_nat (max_msgs d)) with
          | (bufs, None) => Some (probe_fail (- ENOMEM) (res2 ++ bufs) None [])
          | (bufs, Some block) =>
              let res := res2 ++ bufs in
              let log0 :=
                if negb (debugfs_create_ret env =? 0) then [warn_debugfs] else [] in
              let info := probed_info d block in
              if chan_rx_err env <? 0 then
                Some (probe_fail (chan_rx_err env) res (Some info) log0)
              else if chan_tx_err env <? 0 then
                Some (probe_fail (chan_tx_err env) res (Some info) log0)
              else
                '(ret, log, info') ← ti_sci_cmd_get_revision info (mbox env);
                if negb (ret =? 0) then
                  Some (probe_fail ret res (Some info')
                          (log0 ++ log ++ [err_no_tisci ret]))
                else
                  Some {| probe_ret := 0; probe_devres := res;
                          probe_drvdata := Some info'; probe_listed := true;
                          probe_log := log0 ++ log ++ [info_abi (version info')] |}
          end
  end.

End Commands.

(** ** Interleaved callers *)

(** Where a caller stands between the semaphore and the table. The spinlock
    [xfer_lock] makes each locked section one step; [down_timeout] and
    [up] are steps of their own. *)
Inductive thread :=
| Idle
| Acquired (msg_type msg_flags tx_message_size rx_message_size : Z)
| Marked (bit_pos msg_type msg_flags tx_message_size rx_message_size : Z)
| Owning (xfer : Z)
| Unmarked.

Record system := {
  sys_info : ti_sci_info;
  sys_threads : list thread
}.

Inductive step : system -> system -> Prop :=
| step_refused info ths t ty fl tx rx err info' :
    ths !! t = Some Idle ->
    ti_sci_get_one_xfer info ty fl tx rx = Some (ERR_PTR err, info') ->
    step {| sys_info := info; sys_threads := ths |}
         {| sys_info := info'; sys_threads := ths |}
| step_down info ths t ty fl tx rx count :
    ths !! t = Some Idle ->
    bad_transfer_sizes (desc info) tx rx = false ->
    down_timeout (sem_xfer_count (minfo info)) = (0, count) ->
    step {| sys_info := info; sys_threads := ths |}
         {| sys_info := set_minfo (set_sem count (minfo info)) info;
            sys_threads := <[t := Acquired ty fl tx rx]> ths |}
| step_mark info ths t ty fl tx rx bit_pos mi :
    ths !! t = Some (Acquired ty fl tx rx) ->
    xfer_mark (desc info) (minfo info) = Some (bit_pos, mi) ->
    step {| sys_info := info; sys_threads := ths |}
         {| sys_info := set_minfo mi info;
            sys_threads := <[t := Marked bit_pos ty fl tx rx]> ths |}
| step_prepare info ths t ty fl tx rx bit_pos xfer_id mi :
    ths !! t = Some (Marked bit_pos ty fl tx rx) ->
    xfer_prepare (desc info) bit_pos ty fl tx rx (minfo info) = Some (xfer_id, mi) ->
    step {| sys_info := info; sys_threads := ths |}
         {| sys_info := set_minfo mi info;
            sys_threads := <[t := Owning xfer_id]> ths |}
| step_wake info ths t xfer x n :
    ths !! t = Some (Owning xfer) ->
    get_xfer (minfo info) xfer = Some x ->
    done x = S n ->
    step {| sys_info := info; sys_threads := ths |}
         {| sys_info := set_minfo (set_xfer xfer (set_done n x) (minfo info)) info;
            sys_threads := ths |}
| step_unmark info ths t xfer mi :
    ths !! t = Some (Owning xfer) ->
    xfer_unmark (minfo info) xfer = Some mi ->
    step {| sys_info := info; sys_threads := ths |}
         {| sys_info := set_minfo mi info;
            sys_threads := <[t := Unmarked]> ths |}
| step_up info ths t :
    ths !! t = Some Unmarked ->
    step {| sys_info := info; sys_threads := ths |}
         {| sys_info :=
              set_minfo (set_sem (up (sem_xfer_count (minfo info))) (minfo info)) info;
            sys_threads := <[t := Idle]> ths |}
| step_rx info ths m log info' :
    ti_sci_rx_callback info m = Some (log, info') ->
    step {| sys_info := info; sys_threads := ths |}
         {| sys_info := info'; sys_threads := ths |}.

(** The system when [ti_sci_probe] has initialised the semaphore, with
    [n] callers that hold nothing. *)
Definition initial_system (d : ti_sci_desc) (n : nat) : system :=
  {| sys_info := probed_info d (replicate (Z.to_nat (max_msgs d)) (prealloc_xfer d));
     sys_threads := replicate n Idle |}.

Inductive reachable (d : ti_sci_desc) : system -> Prop :=
| reach_init n : reachable d (initial_system d n)
| reach_step s s' : reachable d s -> step s s' -> reachable d s'.

(** A caller past [down_timeout] holds one credit of the semaphore until its
    [up]; a caller between its [set_bit] and its [clear_bit] holds one
    bit of the table. *)
Definition holds_credit (th : thread) : Z :=
  match th with Idle => 0 | _ => 1 end.

Definition holds_bit (th : thread) : Z :=
  match th with Marked _ _ _ _ _ | Owning _ => 1 | _ => 0 end.

Definition bit_of (th : thread) : option Z :=
  match th with
  | Marked bit_pos _ _ _ _ => Some bit_pos
  | Owning xfer => Some xfer
  | _ => None
  end.

Fixpoint sum_over (f : thread -> Z) (ths : list thread) : Z :=
  match ths with
  | [] => 0
  | th :: rest => f th + sum_over f rest
  end.

(** Number of allocated slots, and the deficit of the semaphore. *)
Definition allocated_slots (info : ti_sci_info) : Z :=
  bitmap_weight (xfer_alloc_table (minfo info)) (max_msgs (desc info)).

Definition sem_deficit (info : ti_sci_info) : Z :=
  max_msgs (desc info) - sem_xfer_count (minfo info).

(** ** Well-formed instances *)

(** A description that [ti_sci_probe] accepts and can allocate: the
    pool fits the [seq] field, and the sizes are non-negative [int]s. *)
Definition desc_ok (d : ti_sci_desc) : Prop :=
  0 <= max_msgs d < 2 ^ 8 /\ 0 <= max_msg_size d < 2 ^ 31.

(** A transfer of the pool: its buffer has [max_msg_size] bytes and its
    expected length fits the buffer. *)
Definition xfer_ok (d : ti_sci_desc) (x : ti_sci_xfer) : Prop :=
  length (xfer_buf x) = Z.to_nat (max_msg_size d) /\
  0 <= rx_len x <= max_msg_size d.

(** The pool has [max_msgs] transfers; the table has the words for
    [max_msgs] bits and no bit set at or above [max_msgs]. *)
Definition pool_ok (d : ti_sci_desc) (mi : ti_sci_xfers_info) : Prop :=
  length (xfer_block mi) = Z.to_nat (max_msgs d) /\
  Forall (xfer_ok d) (xfer_block mi) /\
  length (xfer_alloc_table mi) = Z.to_nat (BITS_TO_LONGS (max_msgs d)) /\
  (forall i, max_msgs d <= i -> bit (xfer_alloc_table mi) i = false).

(** The free credits of the semaphore do not exceed the clear bits of the
    table. *)
Definition credits_ok (d : ti_sci_desc) (mi : ti_sci_xfers_info) : Prop :=
  0 <= sem_xfer_count mi /\
  bitmap_weight (xfer_alloc_table mi) (max_msgs d) + sem_xfer_count mi <= max_msgs d.

(** The sequence identifier of the message names a bit within the
    words of the table. *)
Definition seq_in_table (d : ti_sci_desc) (m : ti_msgmgr_message) : Prop :=
  0 <= hdr_seq (buf m) < BITS_PER_LONG * BITS_TO_LONGS (max_msgs d).

(** Every allocated transfer expects at least a header. *)
Definition allocated_expect_header (mi : ti_sci_xfers_info) : Prop :=
  forall i x, bit (xfer_alloc_table mi) i = true ->
              get_xfer mi i = Some x -> SIZEOF_HDR <= rx_len x.

(** The arguments a caller passed the size check with. *)
Definition sane_args (d : ti_sci_desc) (th : thread) : Prop :=
  match th with
  | Acquired _ _ tx rx | Marked _ _ _ tx rx => bad_transfer_sizes d tx rx = false
  | _ => True
  end.

Record sys_inv (d : ti_sci_desc) (s : system) : Prop := {
  inv_desc : desc (sys_info s) = d;
  inv_pool : pool_ok d (minfo (sys_info s));
  inv_sem : 0 <= sem_xfer_count (minfo (sys_info s));
  inv_credits :
    sem_xfer_count (minfo (sys_info s)) + sum_over holds_credit (sys_threads s)
    = max_msgs d;
  inv_bits :
    bitmap_weight (xfer_alloc_table (minfo (sys_info s))) (max_msgs d)
    = sum_over holds_bit (sys_threads s);
  inv_args : Forall (sane_args d) (sys_threads s);
  inv_owned :
    forall t th b, sys_threads s !! t = Some th -> bit_of th = Some b ->
      0 <= b < max_msgs d /\
      bit (xfer_alloc_table (minfo (sys_info s))) b = true;
  inv_unique :
    forall t t' th th' b,
      sys_threads s !! t = Some th -> sys_threads s !! t' = Some th' ->
      bit_of th = Some b -> bit_of th' = Some b -> t = t';
  inv_seq :
    forall t xfer x, sys_threads s !! t = Some (Owning xfer) ->
      get_xfer (minfo (sys_info s)) xfer = Some x ->
      hdr_seq (xfer_buf x) = xfer
}.

(** [info'] differs from [info] in transfers only, each transfer that
    carried its own index as sequence identifier still does, and a
    well-formed pool stays so: what the receive callback and a
    completed wait may do. *)
Definition slots_only (info info' : ti_sci_info) : Prop :=
  desc info' = desc info /\
  version info' = version info /\
  xfer_alloc_table (minfo info') = xfer_alloc_table (minfo info) /\
  sem_xfer_count (minfo info') = sem_xfer_count (minfo info) /\
  (pool_ok (desc info) (minfo info) -> pool_ok (desc info) (minfo info')) /\
  (forall i x, 0 <= i -> get_xfer (minfo info) i = Some x ->
     exists x', get_xfer (minfo info') i = Some x' /\
                rx_len x' = rx_len x /\
                (hdr_seq (xfer_buf x) = i -> hdr_seq (xfer_buf x') = i)).

(** ** Concrete instances *)

(** The K2G instance as probed, and after one allocation for a version
    request (type 2, eight bytes out, 44 bytes back): transfer 0. *)
Definition k2g_probed : ti_sci_info :=
  sys_info (initial_system ti_sci_pmmc_k2g_desc 1).

Definition k2g_one_allocated : ti_sci_info :=
  match ti_sci_get_one_xfer k2g_probed 2 0 8 44 with
  | Some (_, i) => i
  | None => k2g_probed
  end.

(** The K2G instance between the locked section and the set-up of its
    first allocation: bit 0 is set, transfer 0 is still as probed. *)
Definition k2g_marked : ti_sci_info :=
  set_minfo (set_table [1; 0; 0; 0] (set_sem 127 (minfo k2g_probed))) k2g_probed.

(** A K2G platform on which every allocation and both channel requests
    succeed. *)
Definition k2g_platform (m : mbox_env) : probe_env :=
  {| of_match_device := Some ti_sci_pmmc_k2g_desc;
     kzalloc_info_ok := true;
     kcalloc_xfer_block_ok := true;
     kzalloc_alloc_table_ok := true;
     kcalloc_xfer_buf_ok := fun _ => true;
     debugfs_create_ret := 0;
     chan_rx_err := 0;
     chan_tx_err := 0;
     mbox := m |}.

(** A platform whose description asks for 256 messages. *)
Definition oversized_platform : probe_env :=
  {| of_match_device :=
       Some {| host_id := 2; max_rx_timeout_ms := 200; max_msgs := 256;
               max_msg_size := 64 |};
     kzalloc_info_ok := true;
     kcalloc_xfer_block_ok := true;
     kzalloc_alloc_table_ok := true;
     kcalloc_xfer_buf_ok := fun _ => true;
     debugfs_create_ret := 0;
     chan_rx_err := 0;
     chan_tx_err := 0;
     mbox := {| send_ret := 0; arrivals := [] |} |}.

(** A version response for the examples: header, 32 bytes of
    description, revision, ABI major and minor, 44 bytes in all. *)
Definition sample_rev_info (b : list Z) : ti_sci_version_info :=
  {| abi_major := read_u8 b 42;
     abi_minor := read_u8 b 43;
     firmware_revision := read_u8 b 40 + 2 ^ 8 * read_u8 b 41;
     firmware_description := take 32 (drop 8 b) |}.

Definition sample_version_reply : ti_msgmgr_message :=
  {| len := 44;
     buf := [2; 0; 2; 0; 2; 0; 0; 0] ++ [75; 50; 71] ++ replicate 29 0
            ++ [1; 0; 3; 7] |}.

(** A description with two messages. *)
Definition two_msgs_desc : ti_sci_desc :=
  {| host_id := 2; max_rx_timeout_ms := 200; max_msgs := 2; max_msg_size := 64 |}.

(** The two-message instance after two allocations: both transfers are
    taken. *)
Definition two_msgs_full : ti_sci_info :=
  let info0 := sys_info (initial_system two_msgs_desc 2) in
  match ti_sci_get_one_xfer info0 2 0 8 8 with
  | Some (_, info1) =>
      match ti_sci_get_one_xfer info1 2 0 8 8 with
      | Some (_, info2) => info2
      | None => info1
      end
  | None => info0
  end.

(** A message that [ti_sci_rx_callback] accepts for the allocated
    transfer [xfer], which expects [expected] bytes: it names the
    transfer, and its length is not above [max_msg_size] and not below
    the expected length. *)
Definition valid_reply (d : ti_sci_desc) (xfer expected : Z) (m : ti_msgmgr_message)
  : Prop :=
  hdr_seq (buf m) = xfer /\ expected <= len m <= max_msg_size d.

(** * The debug log file *)

(** Modelled from the spec: the error numbers [EBUSY], [ENODEV] and
    [EPROBE_DEFER] of [asm-generic/errno-base.h] and [linux/errno.h] are
    not among the sources; here those of Linux. An error pointer holds
    one of the numbers [-MAX_ERRNO .. -1]. *)
Definition EBUSY : Z := 16.
Definition ENODEV : Z := 19.
Definition EPROBE_DEFER : Z := 517.
Definition MAX_ERRNO : Z := 4095.

(** Modelled from the spec: [struct resource] of [linux/ioport.h] is not
    among the sources: a region of bus addresses from [start] to [end],
    both included. *)
Record resource := {
  res_start : Z;
  res_end : Z
}.

(** [info->debug_region]: null as allocated, then an error pointer or
    the mapping of a resource. *)
Inductive iomem_ptr :=
| IOMEM_NULL
| IOMEM_ERR_PTR (err : Z)
| IOMEM (res : resource).

(** [info->d]: null, an error pointer, or the file of the given name. *)
Inductive dentry_ptr :=
| DENTRY_NULL
| DENTRY_ERR_PTR (err : Z)
| DENTRY (name : list Z).

(** The debug fields of [struct ti_sci_info]; a null [debug_buffer] is
    [None]. *)
Record ti_sci_debug := {
  d : dentry_ptr;
  debug_region : iomem_ptr;
  debug_buffer : option (list Z);
  debug_region_size : Z
}.

(** The debug fields as [devm_kzalloc] leaves them. *)
Definition zero_debug : ti_sci_debug :=
  {| d := DENTRY_NULL; debug_region := IOMEM_NULL; debug_buffer := None;
     debug_region_size := 0 |}.

(** What the platform answers during [ti_sci_debugfs_create]: the
    resource named "debug_messages" if the device has one, the error of
    the mapping (zero when it maps), whether the buffer is granted, the
    name of the device, and the file debugfs creates for a name. *)
Record debugfs_env := {
  debug_messages : option resource;
  ioremap_err : Z;
  kcalloc_debug_buffer_ok : bool;
  dev_name : list Z;
  debugfs_create_file : list Z -> dentry_ptr
}.

Inductive debug_event :=
| dbg_debug_region (size : Z) (res : resource)
| debugfs_remove (dentry : dentry_ptr).

(** Modelled from the spec: [devm_ioremap_resource] of [linux/device.h]
    is not among the sources. It checks the resource and maps it: the
    result is an error pointer when there is no resource or the mapping
    fails. *)
Definition devm_ioremap_resource (env : debugfs_env) : iomem_ptr :=
  match debug_messages env with
  | None => IOMEM_ERR_PTR (- EINVAL)
  | Some res =>
      if ioremap_err env <? 0 then IOMEM_ERR_PTR (ioremap_err env) else IOMEM res
  end.

(** Modelled from the spec: C strings and [strncat] of [linux/string.h]
    are not among the sources. The string at a buffer is the bytes
    before its first zero byte. [strncat] on a destination array of
    [cap] bytes appends at most [count] bytes of the source string and
    then a terminator; it has no result when it writes past the
    array. *)
Fixpoint c_string (b : list Z) : list Z :=
  match b with
  | [] => []
  | c :: s => if c =? 0 then [] else c :: c_string s
  end.

Definition strncat (cap : nat) (dest src : list Z) (count : nat) : option (list Z) :=
  let s := c_string dest ++ take count (c_string src) in
  if decide (length s < cap)%nat then Some s else None.

(** [char debug_name[50] = "ti_sci_debug@"]. *)
Definition SIZEOF_DEBUG_NAME : nat := 50.

Definition debug_name : list Z :=
  [116; 105; 95; 115; 99; 105; 95; 100; 101; 98; 117; 103; 64]
  ++ replicate 37 0.

Definition ti_sci_debugfs_create (env : debugfs_env) (dbg : ti_sci_debug)
  : option (Z * list debug_event * ti_sci_debug) :=
  match devm_ioremap_resource env with
  | IOMEM_NULL => None
  | IOMEM_ERR_PTR err =>
      Some (0, [],
            {| d := d dbg; debug_region := IOMEM_ERR_PTR err;
               debug_buffer := debug_buffer dbg;
               debug_region_size := debug_region_size dbg |})
  | IOMEM res =>
      let size := size_t_of_int (res_end res - res_start res) in
      let n := size_t_of_int (size + 1) in
      if negb (devm_alloc (kcalloc_debug_buffer_ok env) n) then
        Some (- ENOMEM, [],
              {| d := d dbg; debug_region := IOMEM res; debug_buffer := None;
                 debug_region_size := size |})
      else if decide (size < n) then
        let buffer := <[Z.to_nat size := 0]> (replicate (Z.to_nat n) 0) in
        name ← strncat SIZEOF_DEBUG_NAME debug_name (dev_name env) SIZEOF_DEBUG_NAME;
        let dentry := debugfs_create_file env name in
        let dbg' :=
          {| d := dentry; debug_region := IOMEM res; debug_buffer := Some buffer;
             debug_region_size := size |} in
        match dentry with
        | DENTRY_ERR_PTR err => Some (err, [], dbg')
        | _ => Some (0, [dbg_debug_region size res], dbg')
        end
      else None
  end.

(** Modelled from the spec: [memcpy_fromio] of [linux/io.h] and
    [seq_puts] of [linux/seq_file.h] are not among the sources. The
    copy reads [n] bytes of the mapped region and writes [n] bytes of
    the buffer; [seq_puts] emits the string at the buffer, which has to
    end within it. *)
Definition memcpy_fromio (dst src : list Z) (n : nat) : option (list Z) :=
  if decide (n <= length dst /\ n <= length src)%nat
  then Some (take n src ++ drop n dst) else None.

Fixpoint seq_puts (b : list Z) : option (list Z) :=
  match b with
  | [] => None
  | c :: s => if c =? 0 then Some [] else cons c <$> seq_puts s
  end.

(** [ti_sci_debug_show] with the bytes [mem] that the mapped region
    holds when it is read: the text emitted and the buffer after the
    copy. *)
Definition ti_sci_debug_show (dbg : ti_sci_debug) (mem : list Z)
  : option (Z * list Z * ti_sci_debug) :=
  buffer ← debug_buffer dbg;
  buffer' ← memcpy_fromio buffer mem (Z.to_nat (debug_region_size dbg));
  text ← seq_puts buffer';
  Some (0, text,
        {| d := d dbg; debug_region := debug_region dbg;
           debug_buffer := Some buffer';
           debug_region_size := debug_region_size dbg |}).

Definition ti_sci_debugfs_destroy (dbg : ti_sci_debug) : list debug_event :=
  match debug_region dbg with
  | IOMEM_ERR_PTR _ => []
  | _ => [debugfs_remove (d dbg)]
  end.

(** The debug fields after a creation that made the file: the buffer
    has one byte more than the size recorded, and that byte is zero. *)
Definition debug_ok (dbg : ti_sci_debug) : Prop :=
  exists buffer,
    debug_buffer dbg = Some buffer /\
    0 <= debug_region_size dbg /\
    length buffer = S (Z.to_nat (debug_region_size dbg)) /\
    buffer !! Z.to_nat (debug_region_size dbg) = Some 0.

(** * Handles for the clients *)

(** The value of an [int] expression, with two's complement
    wrap-around. *)
Definition int_of (v : Z) : Z := (v + 2 ^ 31) mod 2 ^ 32 - 2 ^ 31.

(** Modelled from the spec: [struct device] and [struct device_node] of
    [linux/device.h] and [linux/of.h] are not among the sources. A node
    of the device tree is known by its address; a device refers to its
    node or to none; the device tree gives, for a node, the node that
    its "ti,sci" property names, if it has one
    ([of_parse_phandle(np, "ti,sci", 0)]). *)
Definition device_node : Type := nat.

Record device := {
  of_node : option device_node
}.

Definition device_tree : Type := device_node -> option device_node.

(** An instance: [struct ti_sci_info] with the node of its device
    ([info->dev->of_node]), its number of users, its debug fields and
    the fields of the transfer layer. *)
Record ti_sci_instance := {
  inst_of_node : option device_node;
  users : Z;
  inst_debug : ti_sci_debug;
  inst_info : ti_sci_info
}.

(** The instances that [ti_sci_probe] has allocated, by address, and
    [ti_sci_list]: the addresses of the linked instances from the head
    of the list. *)
Record registry := {
  instances : list ti_sci_instance;
  ti_sci_list : list nat
}.

(** A handle pointer: an error pointer, null, or the handle inside the
    instance at an address. *)
Inductive handle_ptr :=
| HANDLE_ERR_PTR (err : Z)
| HANDLE_NULL
| HANDLE (p : nat).

Inductive handle_event :=
| err_need_device
| err_no_of_information
| err_needs_phandle
| warn_no_users
| err_failed_put (ret : Z).

Definition set_users (n : Z) (info : ti_sci_instance) : ti_sci_instance :=
  {| inst_of_node := inst_of_node info; users := n;
     inst_debug := inst_debug info; inst_info := inst_info info |}.

Definition set_instance (p : nat) (info : ti_sci_instance) (r : registry) : registry :=
  {| instances := <[p := info]> (instances r); ti_sci_list := ti_sci_list r |}.

(** The walk over [ti_sci_list]: the first linked instance whose device
    has the node [np], if there is one. *)
Fixpoint find_instance (insts : list ti_sci_instance) (np : device_node)
    (l : list nat) : option (option nat) :=
  match l with
  | [] => Some None
  | p :: rest =>
      info ← insts !! p;
      if decide (inst_of_node info = Some np) then Some (Some p)
      else find_instance insts np rest
  end.

Definition ti_sci_get_handle (dt : device_tree) (dev : option device) (r : registry)
  : option (handle_ptr * list handle_event * registry) :=
  match dev with
  | None => Some (HANDLE_ERR_PTR (- EINVAL), [err_need_device], r)
  | Some dev =>
      match of_node dev with
      | None => Some (HANDLE_ERR_PTR (- EINVAL), [err_no_of_information], r)
      | Some np =>
          match dt np with
          | None => Some (HANDLE_ERR_PTR (- ENODEV), [err_needs_phandle], r)
          | Some ti_sci_np =>
              found ← find_instance (instances r) ti_sci_np (ti_sci_list r);
              match found with
              | Some p =>
                  info ← instances r !! p;
                  Some (HANDLE p, [],
                        set_instance p (set_users (int_of (users info + 1)) info) r)
              | None => Some (HANDLE_ERR_PTR (- EPROBE_DEFER), [], r)
              end
          end
      end
  end.

Definition ti_sci_put_handle (handle : handle_ptr) (r : registry)
  : option (Z * list handle_event * registry) :=
  match handle with
  | HANDLE_ERR_PTR err => Some (err, [], r)
  | HANDLE_NULL => Some (- EINVAL, [], r)
  | HANDLE p =>
      info ← instances r !! p;
      if users info =? 0 then Some (0, [warn_no_users], r)
      else Some (0, [], set_instance p (set_users (int_of (users info - 1)) info) r)
  end.

(** [devm_ti_sci_release] for the handle kept in a managed resource. *)
Definition devm_ti_sci_release (handle : handle_ptr) (r : registry)
  : option (list handle_event * registry) :=
  '(ret, log, r') ← ti_sci_put_handle handle r;
  if negb (ret =? 0) then Some (log ++ [err_failed_put ret], r')
  else Some (log, r').

(** [devm_ti_sci_get_handle]: [devres] is the list of handles kept as
    managed resources of the client device, the latest first. *)
Definition devm_ti_sci_get_handle (dt : device_tree) (devres_alloc_ok : bool)
    (dev : option device) (r : registry) (devres : list handle_ptr)
  : option (handle_ptr * list handle_event * registry * list handle_ptr) :=
  if negb devres_alloc_ok then Some (HANDLE_ERR_PTR (- ENOMEM), [], r, devres)
  else
    '(handle, log, r') ← ti_sci_get_handle dt dev r;
    match handle with
    | HANDLE_ERR_PTR _ => Some (handle, log, r', devres)
    | _ => Some (handle, log, r', handle :: devres)
    end.

(** The release of the managed resources of a client device, the latest
    first. *)
Fixpoint devres_release_all (devres : list handle_ptr) (r : registry)
  : option (list handle_event * registry) :=
  match devres with
  | [] => Some ([], r)
  | handle :: rest =>
      '(log, r') ← devm_ti_sci_release handle r;
      '(log', r'') ← devres_release_all rest r';
      Some (log ++ log', r'')
  end.

(** [list_add_tail(&info->node, &ti_sci_list)] at the end of a
    successful [ti_sci_probe], for the instance at address [p]. *)
Definition list_add_tail (p : nat) (r : registry) : registry :=
  {| instances := instances r; ti_sci_list := ti_sci_list r ++ [p] |}.

(** [list_del(&info->node)]: the address is unlinked. *)
Definition list_del (p : nat) (l : list nat) : list nat :=
  filter (fun q => q <> p) l.

(** [ti_sci_remove] for the device whose driver data is the instance at
    address [p]. *)
Definition ti_sci_remove (p : nat) (r : registry)
  : option (Z * list debug_event * registry) :=
  info ← instances r !! p;
  if negb (users info =? 0) then Some (- EBUSY, [], r)
  else
    Some (0, ti_sci_debugfs_destroy (inst_debug info),
          {| instances := instances r; ti_sci_list := list_del p (ti_sci_list r) |}).

(** The linked addresses are distinct and each is the address of an
    instance; the numbers of users are those of [int]s that have not
    gone negative. *)
Definition registry_ok (r : registry) : Prop :=
  NoDup (ti_sci_list r) /\
  (forall p, p ∈ ti_sci_list r -> is_Some (instances r !! p)) /\
  (forall p info, instances r !! p = Some info -> 0 <= users info < 2 ^ 31).

(** A registry with one K2G instance, at address 0, for the device of
    node 7; a client device at node 3 whose "ti,sci" property names
    node 7. *)
Definition k2g_instance : ti_sci_instance :=
  {| inst_of_node := Some 7%nat; users := 0; inst_debug := zero_debug;
     inst_info := k2g_probed |}.

Definition k2g_registry : registry :=
  list_add_tail 0 {| instances := [k2g_instance]; ti_sci_list := [] |}.

Definition client_dev : device := {| of_node := Some 3%nat |}.

Definition client_tree : device_tree :=
  fun np => if decide (np = 3%nat) then Some 7%nat else None.

(** A platform with a debug region of 16 bytes and the device name
    "sci". *)
Definition debug_platform : debugfs_env :=
  {| debug_messages := Some {| res_start := 4096; res_end := 4111 |};
     ioremap_err := 0;
     kcalloc_debug_buffer_ok := true;
     dev_name := [115; 99; 105];
     debugfs_create_file := DENTRY |}.

(** * Properties *)

(** ** Bits of the table *)

Lemma testbit_one_shift (k k' : Z) :
  0 <= k -> 0 <= k' -> Z.testbit (Z.shiftl 1 k) k' = (k =? k').
Proof.
  intros Hk Hk'. rewrite Z.shiftl_spec by lia.
  destruct (Z.eqb_spec k k') as [->|Hne].
  - now rewrite Z.sub_diag.
  - destruct (Z.ltb_spec k' k).
    + now rewrite Z.testbit_neg_r by lia.
    + apply (Z.bits_above_log2 1); simpl; lia.
Qed.

Lemma word_of_Some (nr w : Z) (addr : list Z) :
  word_of nr addr = Some w ->
  0 <= nr < BITS_PER_LONG * Z.of_nat (length addr) /\ addr !! BIT_WORD nr = Some w.
Proof.
  unfold word_of, BIT_WORD, BITS_PER_LONG.
  destruct (Z.ltb_spec nr 0); [discriminate|]. intros Hw.
  split; [|exact Hw]. apply lookup_lt_Some in Hw.
  pose proof (Z.div_pos nr 32). pose proof (Z.mul_div_le nr 32).
  pose proof (Z.mod_pos_bound nr 32). pose proof (Z.div_mod nr 32). lia.
Qed.

Lemma word_of_in_range (nr : Z) (addr : list Z) :
  0 <= nr < BITS_PER_LONG * Z.of_nat (length addr) ->
  exists w, word_of nr addr = Some w.
Proof.
  unfold word_of, BIT_WORD, BITS_PER_LONG. intros H.
  destruct (Z.ltb_spec nr 0); [lia|].
  apply lookup_lt_is_Some_2.
  assert (nr / 32 < Z.of_nat (length addr)) by (apply Z.div_lt_upper_bound; lia).
  pose proof (Z.div_pos nr 32). lia.
Qed.

Lemma test_bit_Some (nr : Z) (addr : list Z) (b : bool) :
  test_bit nr addr = Some b ->
  0 <= nr < BITS_PER_LONG * Z.of_nat (length addr) /\ bit addr nr = b.
Proof.
  intros H. unfold bit. rewrite H. split; [|reflexivity].
  unfold test_bit in H. destruct (word_of nr addr) as [w|] eqn:Hw; [|discriminate].
  now apply word_of_Some in Hw.
Qed.

Lemma test_bit_in_range (nr : Z) (addr : list Z) :
  0 <= nr < BITS_PER_LONG * Z.of_nat (length addr) ->
  test_bit nr addr = Some (bit addr nr).
Proof.
  intros H. unfold bit, test_bit.
  destruct (word_of_in_range nr addr H) as [w ->]. reflexivity.
Qed.

Lemma bit_true_range (nr : Z) (addr : list Z) :
  bit addr nr = true ->
  0 <= nr < BITS_PER_LONG * Z.of_nat (length addr) /\ test_bit nr addr = Some true.
Proof.
  unfold bit. destruct (test_bit nr addr) as [b|] eqn:H; simpl; [|discriminate].
  intros ->. split; [|reflexivity]. now apply test_bit_Some in H.
Qed.

Lemma bit_word_eq (nr m : Z) :
  0 <= nr -> 0 <= m ->
  (BIT_WORD nr = BIT_WORD m <-> nr / BITS_PER_LONG = m / BITS_PER_LONG).
Proof.
  intros Hn Hm. unfold BIT_WORD, BITS_PER_LONG.
  pose proof (Z.div_pos nr 32). pose proof (Z.div_pos m 32). lia.
Qed.

Lemma same_bit (nr m : Z) :
  nr / BITS_PER_LONG = m / BITS_PER_LONG ->
  (nr mod BITS_PER_LONG =? m mod BITS_PER_LONG) = (nr =? m).
Proof.
  unfold BITS_PER_LONG. intros Hq.
  pose proof (Z.div_mod nr 32). pose proof (Z.div_mod m 32).
  destruct (Z.eqb_spec (nr mod 32) (m mod 32)); destruct (Z.eqb_spec nr m);
    try reflexivity; try lia; subst; lia.
Qed.

(** Updating the word of bit [nr] with [f]: the bits of the table
    afterwards. *)
Lemma bit_update_word (f : Z -> Z) (g : bool -> bool -> bool)
    (nr m w : Z) (addr : list Z) :
  word_of nr addr = Some w ->
  (forall k, 0 <= k ->
     Z.testbit (f w) k = g (nr mod BITS_PER_LONG =? k) (Z.testbit w k)) ->
  (forall b, g false b = b) ->
  bit (<[BIT_WORD nr := f w]> addr) m = g (nr =? m) (bit addr m).
Proof.
  intros Hw Hf Hg. apply word_of_Some in Hw. destruct Hw as [Hr Hw].
  unfold bit, test_bit, word_of.
  destruct (Z.ltb_spec m 0) as [Hneg|Hnn]; simpl.
  - destruct (Z.eqb_spec nr m); [lia|]. now rewrite Hg.
  - destruct (decide (BIT_WORD nr = BIT_WORD m)) as [E|Hne].
    + rewrite <- E, list_lookup_insert_eq by (eapply lookup_lt_Some; exact Hw).
      rewrite Hw. simpl. rewrite Hf.
      * rewrite same_bit; [reflexivity|]. apply bit_word_eq; auto; lia.
      * unfold BITS_PER_LONG. pose proof (Z.mod_pos_bound m 32). lia.
    + rewrite list_lookup_insert_ne by exact Hne.
      destruct (Z.eqb_spec nr m) as [->|_]; [congruence|]. now rewrite Hg.
Qed.

Lemma mod_long_nonneg (nr : Z) : 0 <= nr mod BITS_PER_LONG.
Proof. unfold BITS_PER_LONG. pose proof (Z.mod_pos_bound nr 32). lia. Qed.

Lemma bit_set_bit (nr m : Z) (addr addr' : list Z) :
  set_bit nr addr = Some addr' -> bit addr' m = (nr =? m) || bit addr m.
Proof.
  unfold set_bit. destruct (word_of nr addr) as [w|] eqn:Hw; [|discriminate].
  simpl. intros [= <-].
  apply (bit_update_word (fun w => Z.lor w (BIT_MASK nr)) orb nr m w addr Hw);
    [|reflexivity].
  intros k Hk. unfold BIT_MASK.
  rewrite Z.lor_spec, testbit_one_shift by (auto using mod_long_nonneg).
  apply orb_comm.
Qed.

Lemma bit_clear_bit (nr m : Z) (addr addr' : list Z) :
  clear_bit nr addr = Some addr' -> bit addr' m = negb (nr =? m) && bit addr m.
Proof.
  unfold clear_bit. destruct (word_of nr addr) as [w|] eqn:Hw; [|discriminate].
  simpl. intros [= <-].
  apply (bit_update_word (fun w => Z.ldiff w (BIT_MASK nr))
           (fun e b => negb e && b) nr m w addr Hw); [|reflexivity].
  intros k Hk. unfold BIT_MASK.
  rewrite Z.ldiff_spec, testbit_one_shift by (auto using mod_long_nonneg).
  apply andb_comm.
Qed.

Lemma set_bit_in_range (nr : Z) (addr : list Z) :
  0 <= nr < BITS_PER_LONG * Z.of_nat (length addr) ->
  exists addr', set_bit nr addr = Some addr'.
Proof.
  intros H. unfold set_bit. destruct (word_of_in_range nr addr H) as [w ->].
  eexists. reflexivity.
Qed.

Lemma length_set_bit (nr : Z) (addr addr' : list Z) :
  set_bit nr addr = Some addr' -> length addr' = length addr.
Proof.
  unfold set_bit. destruct (word_of nr addr); [|discriminate].
  simpl. intros [= <-]. apply length_insert.
Qed.

Lemma length_clear_bit (nr : Z) (addr addr' : list Z) :
  clear_bit nr addr = Some addr' -> length addr' = length addr.
Proof.
  unfold clear_bit. destruct (word_of nr addr); [|discriminate].
  simpl. intros [= <-]. apply length_insert.
Qed.

(** Clearing a bit twice is clearing it once. *)
Lemma clear_bit_idem (nr : Z) (addr addr' : list Z) :
  clear_bit nr addr = Some addr' -> clear_bit nr addr' = Some addr'.
Proof.
  unfold clear_bit. destruct (word_of nr addr) as [w|] eqn:Hw; [|discriminate].
  simpl. intros [= <-]. apply word_of_Some in Hw. destruct Hw as [Hr Hw].
  assert (Hlt : (BIT_WORD nr < length addr)%nat) by (eapply lookup_lt_Some; eauto).
  unfold word_of. destruct (Z.ltb_spec nr 0); [lia|].
  rewrite list_lookup_insert_eq by exact Hlt. simpl.
  rewrite list_insert_insert_eq. do 2 f_equal.
  apply Z.bits_inj'. intros n Hn. rewrite !Z.ldiff_spec.
  now destruct (Z.testbit w n), (Z.testbit (BIT_MASK nr) n).
Qed.

(** Clearing a bit that was clear before it was set gives the table
    back. *)
Lemma clear_set_bit (nr : Z) (addr addr' : list Z) :
  set_bit nr addr = Some addr' -> bit addr nr = false ->
  clear_bit nr addr' = Some addr.
Proof.
  unfold set_bit, clear_bit, bit, test_bit.
  destruct (word_of nr addr) as [w|] eqn:Hw; [|discriminate].
  simpl. intros [= <-] Hclr. apply word_of_Some in Hw. destruct Hw as [Hr Hw].
  assert (Hlt : (BIT_WORD nr < length addr)%nat) by (eapply lookup_lt_Some; eauto).
  unfold word_of. destruct (Z.ltb_spec nr 0); [lia|].
  rewrite list_lookup_insert_eq by exact Hlt. simpl.
  rewrite list_insert_insert_eq. f_equal.
  rewrite <- (list_insert_id addr (BIT_WORD nr) w Hw) at 2. f_equal.
  apply Z.bits_inj'. intros n Hn. unfold BIT_MASK.
  rewrite Z.ldiff_spec, Z.lor_spec, testbit_one_shift
    by (auto using mod_long_nonneg).
  destruct (Z.eqb_spec (nr mod BITS_PER_LONG) n) as [<-|_].
  - rewrite Hclr. reflexivity.
  - now destruct (Z.testbit w n).
Qed.

Lemma bit_bitmap_zero (nbits nr : Z) : bit (bitmap_zero nbits) nr = false.
Proof.
  unfold bit, test_bit, word_of, bitmap_zero.
  destruct (nr <? 0); [reflexivity|].
  destruct (replicate _ 0 !! BIT_WORD nr) as [w|] eqn:Hw; [|reflexivity].
  apply lookup_replicate in Hw. destruct Hw as [-> _]. simpl.
  now rewrite Z.testbit_0_l.
Qed.

Lemma length_bitmap_zero (nbits : Z) :
  length (bitmap_zero nbits) = Z.to_nat (BITS_TO_LONGS nbits).
Proof. apply length_replicate. Qed.

(** The words of a table of [nbits] bits hold at least [nbits] bits. *)
Lemma bits_to_longs_covers (nbits : Z) :
  0 <= nbits -> nbits <= BITS_PER_LONG * Z.of_nat (Z.to_nat (BITS_TO_LONGS nbits)).
Proof.
  intros H. unfold BITS_TO_LONGS, BITS_PER_LONG.
  pose proof (Z.div_pos (nbits + 32 - 1) 32).
  pose proof (Z.div_mod (nbits + 32 - 1) 32).
  pose proof (Z.mod_pos_bound (nbits + 32 - 1) 32). lia.
Qed.

(** ** Counting and searching *)

Lemma weight_upto_bounds (addr : list Z) (n : nat) :
  0 <= weight_upto addr n <= Z.of_nat n.
Proof.
  induction n as [|n IH]; simpl weight_upto; [lia|].
  destruct (bit addr (Z.of_nat n)); lia.
Qed.

Lemma weight_upto_ext (a b : list Z) (n : nat) :
  (forall i, 0 <= i < Z.of_nat n -> bit a i = bit b i) ->
  weight_upto a n = weight_upto b n.
Proof.
  induction n as [|n IH]; intros H; simpl; [reflexivity|].
  rewrite IH by (intros; apply H; lia).
  now rewrite (H (Z.of_nat n)) by lia.
Qed.

Lemma weight_upto_full (addr : list Z) (n : nat) :
  (forall i, 0 <= i < Z.of_nat n -> bit addr i = true) ->
  weight_upto addr n = Z.of_nat n.
Proof.
  induction n as [|n IH]; intros H; simpl weight_upto; [reflexivity|].
  rewrite IH by (intros; apply H; lia).
  rewrite (H (Z.of_nat n)) by lia. lia.
Qed.

(** Flipping one bit below [n] moves the weight by one. *)
Lemma weight_upto_flip (a b : list Z) (n : nat) (k : Z) :
  0 <= k < Z.of_nat n ->
  bit a k = false -> bit b k = true ->
  (forall i, 0 <= i -> i <> k -> bit a i = bit b i) ->
  weight_upto b n = weight_upto a n + 1.
Proof.
  induction n as [|n IH]; intros Hk Ha Hb Hoth; [lia|].
  simpl weight_upto.
  destruct (Z.eq_dec k (Z.of_nat n)) as [->|Hne].
  - rewrite Ha, Hb.
    rewrite (weight_upto_ext b a n); [lia|].
    intros i Hi. symmetry. apply Hoth; lia.
  - rewrite IH by (auto; lia).
    rewrite (Hoth (Z.of_nat n)) by lia. lia.
Qed.

Lemma find_zero_from_spec (addr : list Z) (n : nat) (i : Z) :
  let r := find_zero_from addr i n in
  i <= r <= i + Z.of_nat n /\
  (forall j, i <= j < r -> bit addr j = true) /\
  (r < i + Z.of_nat n -> bit addr r = false).
Proof.
  revert i. induction n as [|n IH]; intros i; simpl.
  - split_and!; intros; lia.
  - destruct (bit addr i) eqn:Hb.
    + specialize (IH (i + 1)). simpl in IH. destruct IH as (Hr & Hlow & Hclr).
      split; [lia|]. split.
      * intros j Hj. destruct (Z.eq_dec j i) as [->|]; [exact Hb|].
        apply Hlow. lia.
      * intros Hlt. apply Hclr. lia.
    + split_and!; intros; try lia. exact Hb.
Qed.

Lemma find_first_zero_bit_spec (addr : list Z) (size : Z) :
  0 <= size ->
  let r := find_first_zero_bit addr size in
  0 <= r <= size /\
  (forall j, 0 <= j < r -> bit addr j = true) /\
  (r < size -> bit addr r = false).
Proof.
  intros Hs. unfold find_first_zero_bit.
  pose proof (find_zero_from_spec addr (Z.to_nat size) 0) as H.
  simpl in H. rewrite Z2Nat.id in H by lia. exact H.
Qed.

(** A table that is not full has a clear bit below its size. *)
Lemma find_first_zero_bit_lt (addr : list Z) (size : Z) :
  0 <= size -> bitmap_weight addr size < size ->
  find_first_zero_bit addr size < size.
Proof.
  intros Hs Hw.
  destruct (find_first_zero_bit_spec addr size Hs) as (Hr & Hlow & _).
  destruct (Z.eq_dec (find_first_zero_bit addr size) size) as [E|]; [|lia].
  exfalso. unfold bitmap_weight in Hw.
  rewrite weight_upto_full in Hw; [rewrite Z2Nat.id in Hw; lia|].
  intros i Hi. rewrite Z2Nat.id in Hi by lia.
  apply Hlow. lia.
Qed.

Lemma bitmap_weight_set_bit (addr addr' : list Z) (size nr : Z) :
  0 <= nr < size -> bit addr nr = false -> set_bit nr addr = Some addr' ->
  bitmap_weight addr' size = bitmap_weight addr size + 1.
Proof.
  intros Hnr Hclr Hset. unfold bitmap_weight.
  apply (weight_upto_flip addr addr' _ nr).
  - rewrite Z2Nat.id; lia.
  - exact Hclr.
  - rewrite (bit_set_bit _ _ _ _ Hset). now rewrite Z.eqb_refl.
  - intros i Hi Hne. rewrite (bit_set_bit _ _ _ _ Hset).
    destruct (Z.eqb_spec nr i); [lia|reflexivity].
Qed.

Lemma bitmap_weight_clear_bit (addr addr' : list Z) (size nr : Z) :
  0 <= nr < size -> bit addr nr = true -> clear_bit nr addr = Some addr' ->
  bitmap_weight addr' size = bitmap_weight addr size - 1.
Proof.
  intros Hnr Hset Hclr. unfold bitmap_weight.
  enough (weight_upto addr (Z.to_nat size)
          = weight_upto addr' (Z.to_nat size) + 1) by lia.
  apply (weight_upto_flip addr' addr _ nr).
  - rewrite Z2Nat.id; lia.
  - rewrite (bit_clear_bit _ _ _ _ Hclr). now rewrite Z.eqb_refl.
  - exact Hset.
  - intros i Hi Hne. rewrite (bit_clear_bit _ _ _ _ Hclr).
    destruct (Z.eqb_spec nr i); [lia|reflexivity].
Qed.

Lemma bitmap_weight_zero (nbits size : Z) : bitmap_weight (bitmap_zero nbits) size = 0.
Proof.
  unfold bitmap_weight. induction (Z.to_nat size) as [|n IH]; simpl; [reflexivity|].
  rewrite IH, bit_bitmap_zero. reflexivity.
Qed.

(** ** Bytes, headers and copies *)

Lemma length_write_u8 (off : nat) (v : Z) (b : list Z) :
  length (write_u8 off v b) = length b.
Proof. unfold write_u8. apply length_insert. Qed.

Lemma read_write_u8_eq (off : nat) (v : Z) (b : list Z) :
  (off < length b)%nat -> read_u8 (write_u8 off v b) off = u8 v.
Proof.
  intros H. unfold read_u8, write_u8. now rewrite list_lookup_insert_eq.
Qed.

Lemma read_write_u8_ne (off off' : nat) (v : Z) (b : list Z) :
  off <> off' -> read_u8 (write_u8 off v b) off' = read_u8 b off'.
Proof.
  intros H. unfold read_u8, write_u8. now rewrite list_lookup_insert_ne.
Qed.

Lemma length_stamp d id ty fl b : length (stamp d id ty fl b) = length b.
Proof.
  unfold stamp, set_hdr_flags, set_hdr_host, set_hdr_type, set_hdr_seq.
  now rewrite !length_write_u8.
Qed.

Ltac read_stamp :=
  unfold stamp, set_hdr_flags, set_hdr_host, set_hdr_type, set_hdr_seq,
    hdr_seq, hdr_host, hdr_type, hdr_flags;
  repeat first
    [ rewrite read_write_u8_eq by (rewrite ?length_write_u8; lia)
    | rewrite read_write_u8_ne by lia ].

Lemma stamp_seq d id ty fl b :
  (4 <= length b)%nat -> hdr_seq (stamp d id ty fl b) = u8 id.
Proof. intros H. read_stamp. reflexivity. Qed.

Lemma stamp_host d id ty fl b :
  (4 <= length b)%nat -> hdr_host (stamp d id ty fl b) = u8 (host_id d).
Proof. intros H. read_stamp. reflexivity. Qed.

Lemma stamp_type d id ty fl b :
  (4 <= length b)%nat -> hdr_type (stamp d id ty fl b) = ty mod 2 ^ 16.
Proof.
  intros H. read_stamp. unfold u8. rewrite Z.shiftr_div_pow2 by lia.
  change (2 ^ 16) with (2 ^ 8 * 2 ^ 8). change 256 with (2 ^ 8).
  rewrite Z.rem_mul_r by lia. reflexivity.
Qed.

Lemma stamp_flags d id ty fl b :
  (8 <= length b)%nat -> hdr_flags (stamp d id ty fl b) = fl mod 2 ^ 32.
Proof.
  intros H. read_stamp. unfold u8. rewrite !Z.shiftr_div_pow2 by lia.
  change 256 with (2 ^ 8).
  change (2 ^ 32) with (2 ^ 8 * (2 ^ 8 * (2 ^ 8 * 2 ^ 8))).
  rewrite !Z.rem_mul_r by lia.
  change (2 ^ 16) with (2 ^ 8 * 2 ^ 8).
  change (2 ^ 24) with (2 ^ 8 * 2 ^ 8 * 2 ^ 8).
  rewrite <- !Z.div_div by lia. lia.
Qed.

Lemma length_memcpy (dst src : list Z) (n : nat) :
  (n <= length dst)%nat -> length (memcpy dst src n) = length dst.
Proof.
  intros H. unfold memcpy.
  rewrite length_app, length_fmap, length_seq, length_drop. lia.
Qed.

Lemma read_memcpy (dst src : list Z) (n i : nat) :
  read_u8 (memcpy dst src n) i
  = if (i <? n)%nat then read_u8 src i else read_u8 dst i.
Proof.
  unfold memcpy, read_u8.
  destruct (Nat.ltb_spec i n) as [Hlt|Hge].
  - rewrite lookup_app_l by (rewrite length_fmap, length_seq; lia).
    rewrite list_lookup_fmap, lookup_seq_lt by lia. reflexivity.
  - rewrite lookup_app_r by (rewrite length_fmap, length_seq; lia).
    rewrite length_fmap, length_seq, lookup_drop.
    replace (n + (i - n))%nat with i by lia. reflexivity.
Qed.


(** ** The receive callback *)

Lemma size_t_of_int_id (v : Z) : 0 <= v < 2 ^ 31 -> size_t_of_int v = v.
Proof.
  intros H. unfold size_t_of_int, BITS_PER_LONG. apply Z.mod_small.
  change (2 ^ 31) with 2147483648 in H. change (2 ^ 32) with 4294967296. lia.
Qed.

(** C4: a message whose sequence identifier names a clear bit of the
    allocation table is logged as not expected and dropped: the
    callback returns normally, and every transfer (buffer, expected
    length, completion), the table and the semaphore are as before. *)
Theorem rx_callback_unexpected (info : ti_sci_info) (m : ti_msgmgr_message) :
  test_bit (hdr_seq (buf m)) (xfer_alloc_table (minfo info)) = Some false ->
  ti_sci_rx_callback info m = Some ([err_not_expected (hdr_seq (buf m))], info).
Proof.
  intros Hclr. unfold ti_sci_rx_callback. now rewrite Hclr.
Qed.

Lemma rx_callback_unexpected_witness :
  let m := {| len := 8; buf := [2; 0; 2; 5; 0; 0; 0; 0] |} in
  ti_sci_rx_callback k2g_probed m = Some ([err_not_expected 5], k2g_probed).
Proof.
  intros m. apply (rx_callback_unexpected k2g_probed m). reflexivity.
Defined.

Lemma rx_callback_expected_eq (info : ti_sci_info) (m : ti_msgmgr_message)
    (xfer : ti_sci_xfer) :
  test_bit (hdr_seq (buf m)) (xfer_alloc_table (minfo info)) = Some true ->
  get_xfer (minfo info) (hdr_seq (buf m)) = Some xfer ->
  0 <= max_msg_size (desc info) < 2 ^ 31 ->
  exists log,
    ti_sci_rx_callback info m
    = Some (log,
            if (len m <=? max_msg_size (desc info)) && (rx_len xfer <=? len m)
            then set_minfo (set_xfer (hdr_seq (buf m)) (delivered xfer m) (minfo info)) info
            else info).
Proof.
  intros Hset Hx Hmax. unfold ti_sci_rx_callback.
  rewrite Hset, Hx. simpl. rewrite size_t_of_int_id by exact Hmax.
  destruct (Z.ltb_spec (max_msg_size (desc info)) (len m)) as [Hbig|Hfit].
  - eexists. destruct (Z.leb_spec (len m) (max_msg_size (desc info))); [lia|].
    reflexivity.
  - destruct (Z.leb_spec (len m) (max_msg_size (desc info))); [|lia].
    destruct (Z.ltb_spec (len m) (rx_len xfer)) as [Hshort|Hlong].
    + eexists. destruct (Z.leb_spec (rx_len xfer) (len m)); [lia|]. reflexivity.
    + eexists. destruct (Z.leb_spec (rx_len xfer) (len m)); [|lia]. reflexivity.
Qed.

(** C3: for a message whose sequence identifier names a set bit, the
    callback delivers (copies the first [rx_len] bytes into the
    transfer's buffer, leaves the rest of the buffer, and signals the
    completion) exactly when the length is at most [max_msg_size] and at
    least [rx_len]; otherwise nothing changes. A message exactly
    [rx_len] long is delivered; one byte shorter changes nothing. *)
Theorem rx_callback_length_check (info : ti_sci_info) (m : ti_msgmgr_message)
    (xfer : ti_sci_xfer) :
  test_bit (hdr_seq (buf m)) (xfer_alloc_table (minfo info)) = Some true ->
  get_xfer (minfo info) (hdr_seq (buf m)) = Some xfer ->
  0 <= max_msg_size (desc info) < 2 ^ 31 ->
  exists log info',
    ti_sci_rx_callback info m = Some (log, info') /\
    (len m <= max_msg_size (desc info) /\ rx_len xfer <= len m <->
     get_xfer (minfo info') (hdr_seq (buf m)) = Some (delivered xfer m)) /\
    (~ (len m <= max_msg_size (desc info) /\ rx_len xfer <= len m) -> info' = info) /\
    (forall i, i <> Z.to_nat (hdr_seq (buf m)) ->
               xfer_block (minfo info') !! i = xfer_block (minfo info) !! i) /\
    xfer_alloc_table (minfo info') = xfer_alloc_table (minfo info) /\
    sem_xfer_count (minfo info') = sem_xfer_count (minfo info) /\
    done (delivered xfer m) = S (done xfer) /\
    (forall i, read_u8 (xfer_buf (delivered xfer m)) i
               = if (i <? Z.to_nat (rx_len xfer))%nat then read_u8 (buf m) i
                 else read_u8 (xfer_buf xfer) i) /\
    (len m = rx_len xfer -> rx_len xfer <= max_msg_size (desc info) ->
     get_xfer (minfo info') (hdr_seq (buf m)) = Some (delivered xfer m)) /\
    (len m = rx_len xfer - 1 -> info' = info).
Proof.
  intros Hset Hx Hmax.
  destruct (rx_callback_expected_eq info m xfer Hset Hx Hmax) as [log Hrx].
  assert (Hin : (Z.to_nat (hdr_seq (buf m)) < length (xfer_block (minfo info)))%nat)
    by (eapply lookup_lt_Some; exact Hx).
  assert (Hget : get_xfer (set_xfer (hdr_seq (buf m)) (delivered xfer m) (minfo info))
                   (hdr_seq (buf m)) = Some (delivered xfer m)).
  { unfold get_xfer, set_xfer. simpl. now apply list_lookup_insert_eq. }
  assert (Hne : Some xfer <> Some (delivered xfer m)).
  { intros E. injection E as E. apply (f_equal done) in E. simpl in E.
    unfold complete in E. lia. }
  exists log. eexists. split; [exact Hrx|].
  destruct (Z.leb_spec (len m) (max_msg_size (desc info))) as [H1|H1];
    destruct (Z.leb_spec (rx_len xfer) (len m)) as [H2|H2]; simpl;
    (split; [split; [intros [? ?]|intros E]|
     split; [intros Hn|
     split; [intros i Hi|
     split; [reflexivity|
     split; [reflexivity|
     split; [reflexivity|
     split; [intros i; apply read_memcpy|
     split; [intros ? ?|intros ?]]]]]]]]);
    try lia; try reflexivity; try exact Hget;
    try (exfalso; apply Hne; rewrite <- Hx; exact E);
    try (exfalso; apply Hn; lia).
  simpl. now apply list_lookup_insert_ne.
Qed.

Lemma rx_callback_length_check_witness :
  let m := {| len := 44; buf := sample_version_reply.(buf) |} in
  exists log info',
    ti_sci_rx_callback k2g_one_allocated m = Some (log, info') /\
    done <$> get_xfer (minfo info') 0 = Some 1%nat.
Proof.
  intros m.
  assert (Hx : exists x, get_xfer (minfo k2g_one_allocated) (hdr_seq (buf m)) = Some x
                         /\ rx_len x = 44 /\ done x = O)
    by (eexists; split_and!; reflexivity).
  destruct Hx as (x & Hx & Hrx & Hdone).
  destruct (rx_callback_length_check k2g_one_allocated m x)
    as (log & info' & H & Hiff & _).
  - reflexivity.
  - exact Hx.
  - vm_compute. split; [discriminate|reflexivity].
  - exists log, info'. split; [exact H|].
    change 0 with (hdr_seq (buf m)).
    rewrite (proj1 Hiff).
    + simpl. unfold complete. now rewrite Hdone.
    + rewrite Hrx. vm_compute. split; discriminate.
Defined.

(** ** Allocation and release *)

Lemma bad_transfer_sizes_spec (d : ti_sci_desc) (tx rx : Z) :
  0 <= max_msg_size d < 2 ^ 31 ->
  bad_transfer_sizes d tx rx = true <->
  tx > max_msg_size d \/ rx > max_msg_size d \/ rx < SIZEOF_HDR.
Proof.
  intros Hmax. unfold bad_transfer_sizes.
  rewrite size_t_of_int_id by exact Hmax.
  rewrite !orb_true_iff, !Z.ltb_lt. lia.
Qed.

Lemma get_one_xfer_err (info info' : ti_sci_info) (ty fl tx rx err : Z) :
  ti_sci_get_one_xfer info ty fl tx rx = Some (ERR_PTR err, info') ->
  info' = info /\
  (err = - ERANGE /\ bad_transfer_sizes (desc info) tx rx = true \/
   err = - ETIME /\ bad_transfer_sizes (desc info) tx rx = false /\
   sem_xfer_count (minfo info) <= 0).
Proof.
  unfold ti_sci_get_one_xfer, down_timeout.
  destruct (bad_transfer_sizes (desc info) tx rx).
  - intros [= <- <-]. auto.
  - destruct (Z.ltb_spec 0 (sem_xfer_count (minfo info))) as [Hpos|Hnone]; simpl.
    + destruct (xfer_mark _ _) as [[bit_pos mi]|]; simpl; [|discriminate].
      destruct (xfer_prepare _ _ _ _ _ _ _) as [[id mi']|]; simpl; discriminate.
    + intros [= <- <-]. split; [reflexivity|]. right. auto.
Qed.

(** C6: [ti_sci_get_one_xfer] returns [-ERANGE] exactly when the
    transmit size exceeds [max_msg_size], or the receive size exceeds
    it, or the receive size is below the header size. The check comes
    before the semaphore: when it fails the instance is returned as it
    was, whatever the semaphore count, so no credit is taken and no bit
    is set. *)
Theorem get_one_xfer_range (info : ti_sci_info) (ty fl tx rx : Z) :
  0 <= max_msg_size (desc info) < 2 ^ 31 ->
  ((exists info', ti_sci_get_one_xfer info ty fl tx rx
                  = Some (ERR_PTR (- ERANGE), info')) <->
   (tx > max_msg_size (desc info) \/ rx > max_msg_size (desc info)
    \/ rx < SIZEOF_HDR)) /\
  (tx > max_msg_size (desc info) \/ rx > max_msg_size (desc info)
   \/ rx < SIZEOF_HDR ->
   ti_sci_get_one_xfer info ty fl tx rx = Some (ERR_PTR (- ERANGE), info)).
Proof.
  intros Hmax.
  assert (Hbad : tx > max_msg_size (desc info) \/ rx > max_msg_size (desc info)
                 \/ rx < SIZEOF_HDR ->
                 ti_sci_get_one_xfer info ty fl tx rx
                 = Some (ERR_PTR (- ERANGE), info)).
  { intros H. apply (bad_transfer_sizes_spec _ _ _ Hmax) in H.
    unfold ti_sci_get_one_xfer. now rewrite H. }
  split; [split|exact Hbad].
  - intros [info' H]. apply get_one_xfer_err in H.
    destruct H as [_ [[_ H]|[H _]]].
    + now apply (bad_transfer_sizes_spec _ _ _ Hmax).
    + unfold ERANGE, ETIME in H. lia.
  - intros H. exists info. now apply Hbad.
Qed.

Lemma get_one_xfer_range_witness :
  let info := sys_info (initial_system ti_sci_pmmc_k2g_desc 1) in
  ti_sci_get_one_xfer (set_minfo (set_sem 0 (minfo info)) info) 2 0 8 7
  = Some (ERR_PTR (- ERANGE), set_minfo (set_sem 0 (minfo info)) info).
Proof.
  intros info.
  apply (get_one_xfer_range (set_minfo (set_sem 0 (minfo info)) info) 2 0 8 7).
  - vm_compute. split; [discriminate|reflexivity].
  - right. right. reflexivity.
Defined.

(** C8, as the code has it: a second [ti_sci_put_one_xfer] on the same
    transfer, with nothing in between, clears the same bit again, which
    changes nothing, and increments the semaphore again: the count is
    one more than after a single release. *)
Theorem put_one_xfer_twice (mi mi1 : ti_sci_xfers_info) (xfer : Z) :
  ti_sci_put_one_xfer mi xfer = Some mi1 ->
  exists mi2,
    ti_sci_put_one_xfer mi1 xfer = Some mi2 /\
    sem_xfer_count mi1 = sem_xfer_count mi + 1 /\
    sem_xfer_count mi2 = sem_xfer_count mi1 + 1 /\
    xfer_alloc_table mi2 = xfer_alloc_table mi1 /\
    xfer_block mi2 = xfer_block mi1.
Proof.
  unfold ti_sci_put_one_xfer, xfer_unmark.
  destruct (get_xfer mi xfer) as [x|] eqn:Hx; [|discriminate]. simpl.
  destruct (clear_bit _ (xfer_alloc_table mi)) as [table|] eqn:Hclr;
    [|discriminate].
  simpl. intros [= <-]. unfold get_xfer in *. simpl. rewrite Hx. simpl.
  rewrite (clear_bit_idem _ _ _ Hclr). simpl.
  eexists. split; [reflexivity|]. unfold up. simpl. auto.
Qed.

Lemma put_one_xfer_twice_witness :
  exists mi1 mi2,
    ti_sci_put_one_xfer (minfo k2g_one_allocated) 0 = Some mi1 /\
    ti_sci_put_one_xfer mi1 0 = Some mi2 /\
    sem_xfer_count mi2 = sem_xfer_count mi1 + 1.
Proof.
  assert (H1 : exists mi1, ti_sci_put_one_xfer (minfo k2g_one_allocated) 0 = Some mi1)
    by (eexists; reflexivity).
  destruct H1 as [mi1 H1].
  destruct (put_one_xfer_twice (minfo k2g_one_allocated) mi1 0 H1)
    as (mi2 & H2 & _ & H3 & _).
  exists mi1, mi2. auto.
Defined.

(** C8, as stated, fails: on the K2G instance with transfer 0
    allocated, one release leaves the semaphore at 128 and a second
    release of the same transfer raises it to 129. *)
Lemma put_one_xfer_twice_differs :
  (ti_sci_put_one_xfer (minfo k2g_one_allocated) 0 ≫= fun mi1 =>
   Some (sem_xfer_count mi1)) = Some 128 /\
  (ti_sci_put_one_xfer (minfo k2g_one_allocated) 0 ≫= fun mi1 =>
   ti_sci_put_one_xfer mi1 0 ≫= fun mi2 =>
   Some (sem_xfer_count mi2)) = Some 129 /\
  ~ (forall mi1 mi2,
       ti_sci_put_one_xfer (minfo k2g_one_allocated) 0 = Some mi1 ->
       ti_sci_put_one_xfer mi1 0 = Some mi2 ->
       sem_xfer_count mi2 = sem_xfer_count mi1).
Proof.
  split; [reflexivity|]. split; [reflexivity|].
  intros H.
  destruct (ti_sci_put_one_xfer (minfo k2g_one_allocated) 0) as [mi1|] eqn:H1;
    [|discriminate H1].
  destruct (ti_sci_put_one_xfer mi1 0) as [mi2|] eqn:H2.
  - specialize (H mi1 mi2 eq_refl H2).
    injection H1 as <-. injection H2 as <-. discriminate H.
  - injection H1 as <-. discriminate H2.
Qed.

(** ** Transfers change, the table and the semaphore do not *)

Ltac simpl_state :=
  cbn [minfo desc version set_minfo set_version set_xfer set_table set_sem
       sem_xfer_count xfer_block xfer_alloc_table sys_info sys_threads] in *.

Lemma slots_only_refl (info : ti_sci_info) : slots_only info info.
Proof.
  unfold slots_only. split_and!; auto. intros i x _ Hx. exists x. auto.
Qed.

Lemma slots_only_trans (a b c : ti_sci_info) :
  slots_only a b -> slots_only b c -> slots_only a c.
Proof.
  intros (Hd1 & Hv1 & Ht1 & Hs1 & Hp1 & Hx1) (Hd2 & Hv2 & Ht2 & Hs2 & Hp2 & Hx2).
  unfold slots_only. split_and!; try congruence.
  - intros Hp. rewrite <- Hd1. apply Hp2. rewrite Hd1. now apply Hp1.
  - intros i x Hi Hx.
    destruct (Hx1 i x Hi Hx) as (x1 & Hx1' & Hr1 & Hq1).
    destruct (Hx2 i x1 Hi Hx1') as (x2 & Hx2' & Hr2 & Hq2).
    exists x2. split_and!; [exact Hx2'|congruence|auto].
Qed.

Lemma pool_ok_set_xfer (d : ti_sci_desc) (mi : ti_sci_xfers_info) (i : Z)
    (x : ti_sci_xfer) :
  pool_ok d mi -> xfer_ok d x -> pool_ok d (set_xfer i x mi).
Proof.
  intros (Hlen & Hall & Htl & Htop) Hx. unfold pool_ok, set_xfer. simpl.
  rewrite length_insert. split_and!; auto.
  rewrite Forall_lookup in *. intros j y Hj.
  destruct (decide (Z.to_nat i = j)) as [<-|Hne].
  - destruct (decide (Z.to_nat i < length (xfer_block mi))%nat).
    + rewrite list_lookup_insert_eq in Hj by assumption. now injection Hj as <-.
    + rewrite list_insert_ge in Hj by lia. eauto.
  - rewrite list_lookup_insert_ne in Hj by assumption. eauto.
Qed.

Lemma pool_ok_get_xfer (d : ti_sci_desc) (mi : ti_sci_xfers_info) (i : Z)
    (x : ti_sci_xfer) :
  pool_ok d mi -> get_xfer mi i = Some x -> xfer_ok d x.
Proof.
  intros (_ & Hall & _) Hx. rewrite Forall_lookup in Hall. eauto.
Qed.

Lemma pool_ok_in_range (d : ti_sci_desc) (mi : ti_sci_xfers_info) (i : Z) :
  pool_ok d mi -> 0 <= i < max_msgs d -> exists x, get_xfer mi i = Some x.
Proof.
  intros (Hlen & _) Hi. apply lookup_lt_is_Some_2. lia.
Qed.

(** A set bit of a well-formed table names a transfer of the pool. *)
Lemma pool_ok_set_bit_range (d : ti_sci_desc) (mi : ti_sci_xfers_info) (i : Z) :
  pool_ok d mi -> bit (xfer_alloc_table mi) i = true -> 0 <= i < max_msgs d.
Proof.
  intros (_ & _ & _ & Htop) Hset.
  destruct (bit_true_range _ _ Hset) as [Hr _].
  destruct (Z.ltb_spec i (max_msgs d)) as [Hlt|Hge]; [lia|].
  rewrite Htop in Hset by lia. discriminate.
Qed.

(** On a well-formed table the bits of a message in the table can be
    read. *)
Lemma pool_ok_test_bit (d : ti_sci_desc) (mi : ti_sci_xfers_info)
    (m : ti_msgmgr_message) :
  pool_ok d mi -> seq_in_table d m ->
  test_bit (hdr_seq (buf m)) (xfer_alloc_table mi)
  = Some (bit (xfer_alloc_table mi) (hdr_seq (buf m))).
Proof.
  intros (_ & _ & Htl & _) Hin. apply test_bit_in_range. rewrite Htl.
  unfold seq_in_table, BITS_PER_LONG in *. lia.
Qed.

Lemma get_set_xfer_eq (mi : ti_sci_xfers_info) (i : Z) (x y : ti_sci_xfer) :
  get_xfer mi i = Some y -> get_xfer (set_xfer i x mi) i = Some x.
Proof.
  intros Hy. unfold get_xfer, set_xfer in *. simpl.
  apply list_lookup_insert_eq. eapply lookup_lt_Some. exact Hy.
Qed.

Lemma get_set_xfer_ne (mi : ti_sci_xfers_info) (i j : Z) (x : ti_sci_xfer) :
  0 <= i -> 0 <= j -> i <> j -> get_xfer (set_xfer i x mi) j = get_xfer mi j.
Proof.
  intros Hi Hj Hne. unfold get_xfer, set_xfer. simpl.
  apply list_lookup_insert_ne. lia.
Qed.

Lemma xfer_ok_delivered (d : ti_sci_desc) (x : ti_sci_xfer) (m : ti_msgmgr_message) :
  xfer_ok d x -> xfer_ok d (delivered x m).
Proof.
  intros [Hlen Hrx]. unfold xfer_ok, delivered. simpl. split; [|exact Hrx].
  rewrite length_memcpy; [exact Hlen|]. rewrite Hlen. lia.
Qed.

Lemma hdr_seq_delivered (x : ti_sci_xfer) (m : ti_msgmgr_message) :
  hdr_seq (xfer_buf x) = hdr_seq (buf m) ->
  hdr_seq (xfer_buf (delivered x m)) = hdr_seq (buf m).
Proof.
  intros H. unfold hdr_seq, delivered in *. simpl. rewrite read_memcpy.
  now destruct (3 <? Z.to_nat (rx_len x))%nat.
Qed.

(** Replacing one transfer by one that is well formed, expects the
    same length and keeps its sequence identifier. *)
Lemma slots_only_set_xfer (info : ti_sci_info) (i : Z) (x x' : ti_sci_xfer) :
  0 <= i ->
  get_xfer (minfo info) i = Some x ->
  (xfer_ok (desc info) x -> xfer_ok (desc info) x') ->
  rx_len x' = rx_len x ->
  (hdr_seq (xfer_buf x) = i -> hdr_seq (xfer_buf x') = i) ->
  slots_only info (set_minfo (set_xfer i x' (minfo info)) info).
Proof.
  intros Hi Hx Hok Hrx Hseq. unfold slots_only. split_and!; auto.
  - intros Hp. simpl. apply pool_ok_set_xfer; [exact Hp|].
    apply Hok. eapply pool_ok_get_xfer; eauto.
  - intros j y Hj Hy. simpl.
    destruct (Z.eq_dec i j) as [<-|Hne].
    + exists x'. rewrite (get_set_xfer_eq _ _ _ _ Hx).
      rewrite Hx in Hy. injection Hy as <-. auto.
    + exists y. rewrite get_set_xfer_ne by lia. auto.
Qed.

(** The receive callback touches transfers only. *)
Lemma rx_callback_slots_only' (info info' : ti_sci_info) (m : ti_msgmgr_message)
    (log : list event) :
  pool_ok (desc info) (minfo info) ->
  ti_sci_rx_callback info m = Some (log, info') -> slots_only info info'.
Proof.
  intros Hp. unfold ti_sci_rx_callback.
  destruct (test_bit (hdr_seq (buf m)) (xfer_alloc_table (minfo info)))
    as [b|] eqn:Hbit; [|discriminate].
  apply test_bit_Some in Hbit. destruct Hbit as [_ Hbit].
  destruct b; simpl.
  - pose proof (pool_ok_set_bit_range _ _ _ Hp Hbit) as Hr.
    destruct (pool_ok_in_range _ _ _ Hp Hr) as [x Hx]. rewrite Hx. simpl.
    destruct (_ <? len m); [intros [= <- <-]; apply slots_only_refl|].
    destruct (len m <? rx_len x); [intros [= <- <-]; apply slots_only_refl|].
    intros [= <- <-].
    apply (slots_only_set_xfer info _ x); auto; try lia.
    + apply xfer_ok_delivered.
    + intros H. now apply hdr_seq_delivered.
  - intros [= <- <-]. apply slots_only_refl.
Qed.

(** It returns on every well-formed instance for a message whose
    sequence identifier is within the table. *)
Lemma rx_callback_slots_only (info : ti_sci_info) (m : ti_msgmgr_message) :
  pool_ok (desc info) (minfo info) -> seq_in_table (desc info) m ->
  exists log info',
    ti_sci_rx_callback info m = Some (log, info') /\ slots_only info info'.
Proof.
  intros Hp Hin.
  assert (Hsome : exists r, ti_sci_rx_callback info m = Some r).
  { unfold ti_sci_rx_callback. rewrite (pool_ok_test_bit _ _ _ Hp Hin). simpl.
    destruct (bit (xfer_alloc_table (minfo info)) (hdr_seq (buf m))) eqn:Hbit;
      simpl; [|eexists; reflexivity].
    pose proof (pool_ok_set_bit_range _ _ _ Hp Hbit) as Hr.
    destruct (pool_ok_in_range _ _ _ Hp Hr) as [x Hx]. rewrite Hx. simpl.
    destruct (_ <? len m); [eexists; reflexivity|].
    destruct (len m <? rx_len x); eexists; reflexivity. }
  destruct Hsome as [[log info'] Hrx]. exists log, info'.
  split; [exact Hrx|]. eapply rx_callback_slots_only'; eauto.
Qed.

Lemma slots_only_set_done (info : ti_sci_info) (i : Z) (x : ti_sci_xfer) (n : nat) :
  0 <= i -> get_xfer (minfo info) i = Some x ->
  slots_only info (set_minfo (set_xfer i (set_done n x) (minfo info)) info).
Proof.
  intros Hi Hx. apply (slots_only_set_xfer info i x); auto.
Qed.

(** The wait returns on every well-formed instance when the messages
    delivered have their sequence identifiers within the table; it
    touches transfers only. *)
Lemma wait_for_completion_slots_only (deliveries : list ti_msgmgr_message) :
  forall (info : ti_sci_info) (xfer : Z) (x : ti_sci_xfer),
    pool_ok (desc info) (minfo info) ->
    Forall (seq_in_table (desc info)) deliveries ->
    0 <= xfer -> get_xfer (minfo info) xfer = Some x ->
    exists remaining log info',
      wait_for_completion_timeout info xfer deliveries
      = Some (remaining, log, info') /\
      slots_only info info' /\ (remaining = 0 \/ remaining = 1).
Proof.
  induction deliveries as [|m rest IH]; intros info xfer x Hp Hin Hi Hx; simpl;
    rewrite Hx; simpl.
  - destruct (done x) as [|n] eqn:Hd.
    + do 3 eexists. split; [reflexivity|]. split; [apply slots_only_refl|auto].
    + do 3 eexists. split; [reflexivity|].
      split; [now apply slots_only_set_done|auto].
  - destruct (done x) as [|n] eqn:Hd.
    + apply Forall_cons in Hin. destruct Hin as [Hm Hrest].
      destruct (rx_callback_slots_only info m Hp Hm) as (log & info1 & Hrx & Hs1).
      rewrite Hrx. simpl.
      pose proof Hs1 as (Hd1 & _ & _ & _ & Hp1 & Hx1).
      destruct (Hx1 xfer x Hi Hx) as (x1 & Hx1' & _).
      destruct (IH info1 xfer x1) as (r & log' & info2 & Hw & Hs2 & Hr); auto.
      { rewrite Hd1. auto. }
      { rewrite Hd1. exact Hrest. }
      rewrite Hw. simpl. do 3 eexists. split; [reflexivity|].
      split; [eapply slots_only_trans; eauto|exact Hr].
    + do 3 eexists. split; [reflexivity|].
      split; [now apply slots_only_set_done|auto].
Qed.

(** The receive callback leaves every transfer but the one its message
    names as it was. *)
Lemma rx_callback_other_xfer (info info' : ti_sci_info) (m : ti_msgmgr_message)
    (log : list event) (i : Z) :
  ti_sci_rx_callback info m = Some (log, info') ->
  0 <= i -> i <> hdr_seq (buf m) ->
  get_xfer (minfo info') i = get_xfer (minfo info) i.
Proof.
  unfold ti_sci_rx_callback. intros Hrx Hi Hne.
  destruct (test_bit (hdr_seq (buf m)) (xfer_alloc_table (minfo info)))
    as [b|] eqn:Hbit; [|discriminate].
  apply test_bit_Some in Hbit. destruct Hbit as [Hr _].
  destruct b; simpl in Hrx; [|now injection Hrx as <- <-].
  destruct (get_xfer (minfo info) (hdr_seq (buf m))) as [x|]; [|discriminate].
  simpl in Hrx.
  destruct (_ <? len m); [now injection Hrx as <- <-|].
  destruct (len m <? rx_len x); [now injection Hrx as <- <-|].
  injection Hrx as <- <-. simpl_state. apply get_set_xfer_ne; lia.
Qed.

(** When no message delivered names the transfer, its completion stays
    unsignalled and the wait ends with zero. *)
Lemma wait_for_completion_no_reply (deliveries : list ti_msgmgr_message) :
  forall (info info' : ti_sci_info) (xfer remaining : Z) (x : ti_sci_xfer)
         (log : list event),
    0 <= xfer -> get_xfer (minfo info) xfer = Some x -> done x = O ->
    Forall (fun m => hdr_seq (buf m) <> xfer) deliveries ->
    wait_for_completion_timeout info xfer deliveries = Some (remaining, log, info') ->
    remaining = 0.
Proof.
  induction deliveries as [|m rest IH];
    intros info info' xfer remaining x log Hi Hx Hd Hno; simpl;
    rewrite Hx; simpl; rewrite Hd.
  - now intros [= <- _ _].
  - apply Forall_cons in Hno. destruct Hno as [Hm Hrest].
    destruct (ti_sci_rx_callback info m) as [[log1 info1]|] eqn:Hrx;
      [|discriminate]. simpl.
    destruct (wait_for_completion_timeout info1 xfer rest)
      as [[[r log2] info2]|] eqn:Hw; [|discriminate]. simpl.
    intros [= <- _ _].
    apply (IH info1 info2 xfer r x log2); auto.
    rewrite (rx_callback_other_xfer _ _ _ _ xfer Hrx); auto.
Qed.

(** ** The steps of an allocation *)

Lemma u8_small (v : Z) : 0 <= v < 2 ^ 8 -> u8 v = v.
Proof. intros H. unfold u8. apply Z.mod_small. change (2 ^ 8) with 256 in H. lia. Qed.

Lemma u8_le (v : Z) : 0 <= v -> 0 <= u8 v <= v.
Proof.
  intros H. unfold u8. pose proof (Z.mod_pos_bound v 256).
  pose proof (Z.mod_le v 256). lia.
Qed.

Lemma down_timeout_acquired (count : Z) :
  0 < count -> down_timeout count = (0, count - 1).
Proof.
  intros H. unfold down_timeout. destruct (Z.ltb_spec 0 count); [reflexivity|lia].
Qed.

Lemma down_timeout_inv (count ret count' : Z) :
  down_timeout count = (ret, count') ->
  ret = 0 /\ 0 < count /\ count' = count - 1 \/
  ret = - ETIME /\ count <= 0 /\ count' = count.
Proof.
  unfold down_timeout. destruct (Z.ltb_spec 0 count); intros [= <- <-]; auto.
Qed.

Lemma pool_ok_set_bit (d : ti_sci_desc) (mi : ti_sci_xfers_info) (nr : Z)
    (table : list Z) :
  0 <= nr < max_msgs d -> pool_ok d mi ->
  set_bit nr (xfer_alloc_table mi) = Some table ->
  pool_ok d (set_table table mi).
Proof.
  intros Hnr (Hlen & Hall & Htl & Htop) Hset. unfold pool_ok. simpl_state.
  split_and!; auto.
  - rewrite (length_set_bit _ _ _ Hset). exact Htl.
  - intros i Hi. rewrite (bit_set_bit _ _ _ _ Hset).
    rewrite Htop by lia. destruct (Z.eqb_spec nr i); [lia|reflexivity].
Qed.

Lemma pool_ok_bit_in_table (d : ti_sci_desc) (mi : ti_sci_xfers_info) (nr : Z) :
  pool_ok d mi -> 0 <= nr < max_msgs d ->
  0 <= nr < BITS_PER_LONG * Z.of_nat (length (xfer_alloc_table mi)).
Proof.
  intros (_ & _ & Htl & _) Hnr. rewrite Htl.
  pose proof (bits_to_longs_covers (max_msgs d)). lia.
Qed.

(** The locked section of the allocation on a table that is not full:
    the lowest clear bit, below [max_msgs], is set. *)
Lemma xfer_mark_spec (d : ti_sci_desc) (mi : ti_sci_xfers_info) :
  0 <= max_msgs d -> pool_ok d mi ->
  bitmap_weight (xfer_alloc_table mi) (max_msgs d) < max_msgs d ->
  let bit_pos := find_first_zero_bit (xfer_alloc_table mi) (max_msgs d) in
  exists table,
    set_bit bit_pos (xfer_alloc_table mi) = Some table /\
    xfer_mark d mi = Some (bit_pos, set_table table mi) /\
    0 <= bit_pos < max_msgs d /\
    bit (xfer_alloc_table mi) bit_pos = false /\
    (forall j, 0 <= j < bit_pos -> bit (xfer_alloc_table mi) j = true) /\
    bitmap_weight table (max_msgs d)
    = bitmap_weight (xfer_alloc_table mi) (max_msgs d) + 1 /\
    pool_ok d (set_table table mi).
Proof.
  intros Hmax Hp Hw bit_pos.
  destruct (find_first_zero_bit_spec (xfer_alloc_table mi) (max_msgs d) Hmax)
    as (Hr & Hlow & Hclr).
  pose proof (find_first_zero_bit_lt _ _ Hmax Hw) as Hlt.
  fold bit_pos in Hr, Hlow, Hclr, Hlt.
  assert (Hb : 0 <= bit_pos < max_msgs d) by lia.
  destruct (set_bit_in_range bit_pos (xfer_alloc_table mi)
              (pool_ok_bit_in_table d mi bit_pos Hp Hb)) as [table Hset].
  exists table. split; [exact Hset|]. split.
  { unfold xfer_mark. fold bit_pos. rewrite Hset. reflexivity. }
  split; [exact Hb|]. split; [auto|]. split; [exact Hlow|]. split.
  - apply bitmap_weight_set_bit with (nr := bit_pos); auto.
  - eapply pool_ok_set_bit; eauto.
Qed.

Lemma sane_sizes_bounds (d : ti_sci_desc) (tx rx : Z) :
  0 <= max_msg_size d < 2 ^ 31 -> bad_transfer_sizes d tx rx = false ->
  tx <= max_msg_size d /\ SIZEOF_HDR <= rx <= max_msg_size d.
Proof.
  intros Hmax Hsane.
  destruct (bad_transfer_sizes d tx rx) eqn:E; [discriminate|].
  assert (~ (tx > max_msg_size d \/ rx > max_msg_size d \/ rx < SIZEOF_HDR)).
  { intros H. apply (bad_transfer_sizes_spec d tx rx Hmax) in H. congruence. }
  lia.
Qed.

Lemma xfer_ok_prepared (d : ti_sci_desc) (id ty fl tx rx : Z) (x : ti_sci_xfer) :
  0 <= max_msg_size d < 2 ^ 31 -> bad_transfer_sizes d tx rx = false ->
  xfer_ok d x -> xfer_ok d (prepared d id ty fl tx rx x).
Proof.
  intros Hmax Hsane [Hlen Hrx]. unfold xfer_ok, prepared. simpl.
  rewrite length_stamp. split; [exact Hlen|].
  destruct (sane_sizes_bounds d tx rx Hmax Hsane) as [_ Hr].
  unfold SIZEOF_HDR in Hr. pose proof (u8_le rx). lia.
Qed.

(** The set-up of the transfer at the marked bit. *)
Lemma xfer_prepare_spec (d : ti_sci_desc) (mi : ti_sci_xfers_info)
    (bit_pos ty fl tx rx : Z) :
  desc_ok d -> pool_ok d mi -> 0 <= bit_pos < max_msgs d ->
  bad_transfer_sizes d tx rx = false ->
  exists x,
    get_xfer mi bit_pos = Some x /\
    xfer_prepare d bit_pos ty fl tx rx mi
    = Some (bit_pos, set_xfer bit_pos (prepared d bit_pos ty fl tx rx x) mi) /\
    pool_ok d (set_xfer bit_pos (prepared d bit_pos ty fl tx rx x) mi) /\
    hdr_seq (xfer_buf (prepared d bit_pos ty fl tx rx x)) = bit_pos /\
    (8 <= length (xfer_buf x))%nat.
Proof.
  intros [Hmsgs Hsize] Hp Hb Hsane.
  destruct (pool_ok_in_range d mi bit_pos Hp Hb) as [x Hx].
  pose proof (pool_ok_get_xfer d mi bit_pos x Hp Hx) as Hok.
  assert (Hu : u8 bit_pos = bit_pos) by (apply u8_small; lia).
  destruct (sane_sizes_bounds d tx rx Hsize Hsane) as [_ Hr].
  assert (Hlen : (8 <= length (xfer_buf x))%nat).
  { destruct Hok as [-> _]. unfold SIZEOF_HDR in Hr. lia. }
  exists x. split_and!; auto.
  - unfold xfer_prepare. rewrite Hu, Hx. reflexivity.
  - apply pool_ok_set_xfer; [exact Hp|]. now apply xfer_ok_prepared.
  - unfold prepared. simpl. rewrite stamp_seq by lia. exact Hu.
Qed.

(** A successful [ti_sci_get_one_xfer], step by step. *)
Lemma get_one_xfer_ok (info info' : ti_sci_info) (ty fl tx rx id : Z) :
  ti_sci_get_one_xfer info ty fl tx rx = Some (XFER id, info') ->
  exists bit_pos mi,
    bad_transfer_sizes (desc info) tx rx = false /\
    0 < sem_xfer_count (minfo info) /\
    xfer_mark (desc info)
      (set_sem (sem_xfer_count (minfo info) - 1) (minfo info))
    = Some (bit_pos, mi) /\
    xfer_prepare (desc info) bit_pos ty fl tx rx mi = Some (id, minfo info') /\
    info' = set_minfo (minfo info') info.
Proof.
  unfold ti_sci_get_one_xfer.
  destruct (bad_transfer_sizes (desc info) tx rx); [discriminate|].
  destruct (down_timeout (sem_xfer_count (minfo info))) as [ret count] eqn:Hd.
  apply down_timeout_inv in Hd.
  destruct Hd as [(-> & Hpos & ->)|(-> & _ & _)]; [|discriminate].
  cbn -[xfer_mark xfer_prepare].
  destruct (xfer_mark _ _) as [[bit_pos mi]|] eqn:Hm; [|discriminate].
  cbn -[xfer_mark xfer_prepare].
  destruct (xfer_prepare _ _ _ _ _ _ _) as [[id' mi']|] eqn:Hprep; [|discriminate].
  cbn. intros [= <- <-]. exists bit_pos, mi. simpl. auto.
Qed.

(** On a well-formed instance with a free credit and sane sizes the
    allocation succeeds. *)
Lemma get_one_xfer_succeeds (info : ti_sci_info) (ty fl tx rx : Z) :
  desc_ok (desc info) -> pool_ok (desc info) (minfo info) ->
  credits_ok (desc info) (minfo info) ->
  0 < sem_xfer_count (minfo info) ->
  bad_transfer_sizes (desc info) tx rx = false ->
  let tbl := xfer_alloc_table (minfo info) in
  let id := find_first_zero_bit tbl (max_msgs (desc info)) in
  exists x table,
    get_xfer (minfo info) id = Some x /\
    set_bit id tbl = Some table /\
    ti_sci_get_one_xfer info ty fl tx rx
    = Some (XFER id,
            set_minfo
              (set_xfer id (prepared (desc info) id ty fl tx rx x)
                 (set_table table
                    (set_sem (sem_xfer_count (minfo info) - 1) (minfo info))))
              info) /\
    0 <= id < max_msgs (desc info) /\
    bit tbl id = false /\
    (forall j, 0 <= j < id -> bit tbl j = true) /\
    (8 <= length (xfer_buf x))%nat /\
    pool_ok (desc info)
      (set_xfer id (prepared (desc info) id ty fl tx rx x)
         (set_table table
            (set_sem (sem_xfer_count (minfo info) - 1) (minfo info)))) /\
    hdr_seq (xfer_buf (prepared (desc info) id ty fl tx rx x)) = id.
Proof.
  intros Hd Hp [Hsem Hcred] Hpos Hsane tbl id.
  pose proof Hd as [Hmsgs Hsize].
  assert (Hp' : pool_ok (desc info)
                  (set_sem (sem_xfer_count (minfo info) - 1) (minfo info)))
    by exact Hp.
  destruct (xfer_mark_spec (desc info) _ ltac:(lia) Hp')
    as (table & Hset & Hmark & Hid & Hclr & Hlow & Hw & Hp2).
  { simpl. lia. }
  simpl_state. fold tbl in Hset, Hmark, Hid, Hclr, Hlow, Hw.
  fold id in Hset, Hmark, Hid, Hclr, Hlow, Hw, Hp2.
  destruct (xfer_prepare_spec (desc info) _ id ty fl tx rx Hd Hp2 Hid Hsane)
    as (x & Hx & Hprep & Hp3 & Hseq & Hlen).
  exists x, table. split_and!; auto; try lia.
  unfold ti_sci_get_one_xfer. rewrite Hsane, down_timeout_acquired by lia.
  cbn -[xfer_mark xfer_prepare]. fold tbl. fold id. rewrite Hmark.
  cbn -[xfer_mark xfer_prepare]. rewrite Hprep. reflexivity.
Qed.

(** What a successful [ti_sci_get_one_xfer] has done. *)
Lemma get_one_xfer_inv (info info' : ti_sci_info) (ty fl tx rx id : Z) :
  desc_ok (desc info) -> pool_ok (desc info) (minfo info) ->
  credits_ok (desc info) (minfo info) ->
  ti_sci_get_one_xfer info ty fl tx rx = Some (XFER id, info') ->
  exists x table,
    id = find_first_zero_bit (xfer_alloc_table (minfo info)) (max_msgs (desc info)) /\
    0 <= id < max_msgs (desc info) /\
    bit (xfer_alloc_table (minfo info)) id = false /\
    (forall j, 0 <= j < id -> bit (xfer_alloc_table (minfo info)) j = true) /\
    bad_transfer_sizes (desc info) tx rx = false /\
    0 < sem_xfer_count (minfo info) /\
    get_xfer (minfo info) id = Some x /\
    set_bit id (xfer_alloc_table (minfo info)) = Some table /\
    info' = set_minfo
              (set_xfer id (prepared (desc info) id ty fl tx rx x)
                 (set_table table
                    (set_sem (sem_xfer_count (minfo info) - 1) (minfo info))))
              info /\
    pool_ok (desc info) (minfo info') /\
    hdr_seq (xfer_buf (prepared (desc info) id ty fl tx rx x)) = id.
Proof.
  intros Hd Hp Hg Hget.
  destruct (get_one_xfer_ok _ _ _ _ _ _ _ Hget) as (b & mi & Hsane & Hpos & _).
  destruct (get_one_xfer_succeeds info ty fl tx rx Hd Hp Hg Hpos Hsane)
    as (x & table & Hx & Hset & Heq & Hid & Hclr & Hlow & Hlen & Hp3 & Hseq).
  cbv zeta in Heq, Hx, Hset, Hid, Hclr, Hlow, Hp3, Hseq.
  rewrite Heq in Hget. injection Hget as Hidx <-.
  rewrite Hidx in *. clear Hidx.
  exists x, table. split_and!; auto; try lia.
Qed.

(** C7: a successful [ti_sci_get_one_xfer] on a well-formed instance
    returns the lowest-numbered clear bit of the table, which lies
    below [max_msgs] (the semaphore guarantees one); that bit is then set,
    one credit is taken, the sequence identifier in the transfer's
    header is the bit index, and the completion is re-armed. *)
Theorem get_one_xfer_lowest_free (info info' : ti_sci_info) (ty fl tx rx id : Z) :
  desc_ok (desc info) -> pool_ok (desc info) (minfo info) ->
  credits_ok (desc info) (minfo info) ->
  ti_sci_get_one_xfer info ty fl tx rx = Some (XFER id, info') ->
  let tbl := xfer_alloc_table (minfo info) in
  id = find_first_zero_bit tbl (max_msgs (desc info)) /\
  0 <= id < max_msgs (desc info) /\
  test_bit id tbl = Some false /\
  (forall j, 0 <= j < id -> test_bit j tbl = Some true) /\
  set_bit id tbl = Some (xfer_alloc_table (minfo info')) /\
  test_bit id (xfer_alloc_table (minfo info')) = Some true /\
  (forall j, j <> id ->
     test_bit j (xfer_alloc_table (minfo info')) = test_bit j tbl) /\
  sem_xfer_count (minfo info') = sem_xfer_count (minfo info) - 1 /\
  exists x', get_xfer (minfo info') id = Some x' /\
             hdr_seq (xfer_buf x') = id /\
             done x' = O.
Proof.
  intros Hd Hp Hg Hget tbl. subst tbl.
  destruct (get_one_xfer_inv _ _ _ _ _ _ _ Hd Hp Hg Hget)
    as (x & table & Hffz & Hid & Hclr & Hlow & Hsane & Hpos & Hx & Hset & ->
        & Hp1 & Hseq).
  simpl_state.
  pose proof (pool_ok_bit_in_table _ _ id Hp Hid) as Hin.
  assert (Hread : forall j, test_bit j table
                            = (fun b => (id =? j) || b)
                                <$> test_bit j (xfer_alloc_table (minfo info))).
  { intros j.
    destruct (test_bit j (xfer_alloc_table (minfo info))) as [b|] eqn:Hj; simpl.
    - apply test_bit_Some in Hj. destruct Hj as [Hr <-].
      rewrite test_bit_in_range by (rewrite (length_set_bit _ _ _ Hset); exact Hr).
      now rewrite (bit_set_bit _ _ _ _ Hset).
    - destruct (test_bit j table) as [b|] eqn:Hj'; [|reflexivity].
      apply test_bit_Some in Hj'. destruct Hj' as [Hr _].
      rewrite (length_set_bit _ _ _ Hset) in Hr.
      rewrite test_bit_in_range in Hj by exact Hr. discriminate. }
  split_and!; auto; try lia.
  - rewrite test_bit_in_range by exact Hin. now rewrite Hclr.
  - intros j Hj. rewrite test_bit_in_range; [now rewrite Hlow|].
    apply (pool_ok_bit_in_table _ _ j Hp). lia.
  - rewrite Hread, test_bit_in_range by exact Hin. simpl.
    now rewrite Z.eqb_refl.
  - intros j Hne. rewrite Hread.
    destruct (test_bit j _) as [b|]; [|reflexivity]. simpl.
    destruct (Z.eqb_spec id j); [congruence|reflexivity].
  - exists (prepared (desc info) id ty fl tx rx x). split_and!.
    + eapply get_set_xfer_eq. exact Hx.
    + exact Hseq.
    + reflexivity.
Qed.

Lemma k2g_probed_ok :
  desc_ok (desc k2g_probed) /\
  pool_ok (desc k2g_probed) (minfo k2g_probed) /\
  credits_ok (desc k2g_probed) (minfo k2g_probed).
Proof.
  unfold desc_ok, pool_ok, credits_ok.
  split_and!; try (vm_compute; first [discriminate | reflexivity]).
  - vm_compute. repeat constructor; discriminate.
  - intros i Hi. apply (bit_bitmap_zero 128).
Qed.

Lemma k2g_one_allocated_eq :
  ti_sci_get_one_xfer k2g_probed 2 0 8 44 = Some (XFER 0, k2g_one_allocated).
Proof. reflexivity. Qed.

Lemma k2g_one_allocated_pool :
  desc_ok (desc k2g_one_allocated) /\
  pool_ok (desc k2g_one_allocated) (minfo k2g_one_allocated) /\
  credits_ok (desc k2g_one_allocated) (minfo k2g_one_allocated).
Proof.
  destruct k2g_probed_ok as (Hd & Hp & Hg).
  destruct (get_one_xfer_inv _ _ _ _ _ _ _ Hd Hp Hg k2g_one_allocated_eq)
    as (x & table & _ & _ & _ & _ & _ & _ & _ & _ & _ & Hp1 & _).
  split; [exact Hd|]. split; [exact Hp1|].
  split; vm_compute; discriminate.
Qed.

Lemma get_one_xfer_lowest_free_witness :
  exists info',
    ti_sci_get_one_xfer k2g_one_allocated 2 0 8 44 = Some (XFER 1, info') /\
    test_bit 1 (xfer_alloc_table (minfo info')) = Some true.
Proof.
  destruct (ti_sci_get_one_xfer k2g_one_allocated 2 0 8 44)
    as [[[e|id] info']|] eqn:Hget; try discriminate Hget.
  destruct k2g_one_allocated_pool as (Hd & Hp & Hg).
  destruct (get_one_xfer_lowest_free _ _ _ _ _ _ _ Hd Hp Hg Hget)
    as (Hid & _ & _ & _ & _ & Hbit & _).
  assert (Hone : id = 1) by (rewrite Hid; reflexivity).
  exists info'. rewrite <- Hone. split; [reflexivity|exact Hbit].
Defined.

(** C10: the size check puts no lower bound on the transmit size. On a
    well-formed instance with a free credit, every transmit size from 0
    to [max_msg_size], also one below the header size, is accepted when
    the receive size is between the header size and [max_msg_size]; the
    transfer records that transmit size and has the whole header
    written. The check is the disjunction of three tests: neither size
    above [max_msg_size], receive size not below the header size (tested
    twice); the transmit size is not compared with the header size. *)
Theorem get_one_xfer_any_tx_size (info : ti_sci_info) (ty fl tx rx : Z) :
  desc_ok (desc info) -> pool_ok (desc info) (minfo info) ->
  credits_ok (desc info) (minfo info) -> 0 < sem_xfer_count (minfo info) ->
  0 <= tx <= max_msg_size (desc info) ->
  SIZEOF_HDR <= rx <= max_msg_size (desc info) ->
  (exists id info' x,
     ti_sci_get_one_xfer info ty fl tx rx = Some (XFER id, info') /\
     get_xfer (minfo info') id = Some x /\
     tx_message_len x = tx /\
     hdr_seq (xfer_buf x) = id /\
     hdr_type (xfer_buf x) = ty mod 2 ^ 16 /\
     hdr_host (xfer_buf x) = u8 (host_id (desc info)) /\
     hdr_flags (xfer_buf x) = fl mod 2 ^ 32) /\
  (forall tx' rx',
     bad_transfer_sizes (desc info) tx' rx'
     = (size_t_of_int (max_msg_size (desc info)) <? rx')
       || (size_t_of_int (max_msg_size (desc info)) <? tx')
       || (rx' <? SIZEOF_HDR)).
Proof.
  intros Hd Hp Hg Hpos Htx Hrx. split.
  - assert (Hsane : bad_transfer_sizes (desc info) tx rx = false).
    { destruct (bad_transfer_sizes (desc info) tx rx) eqn:E; [|reflexivity].
      apply bad_transfer_sizes_spec in E; [lia|]. apply Hd. }
    destruct (get_one_xfer_succeeds info ty fl tx rx Hd Hp Hg Hpos Hsane)
      as (x & table & Hx & Hset & Heq & Hid & Hclr & Hlow & Hlen & _).
    do 3 eexists. split; [exact Heq|]. simpl.
    split; [eapply get_set_xfer_eq; exact Hx|].
    unfold prepared. simpl.
    rewrite stamp_seq, stamp_type, stamp_host, stamp_flags by lia.
    split_and!; auto. apply u8_small. destruct Hd. lia.
  - intros tx' rx'. unfold bad_transfer_sizes.
    now destruct (_ <? rx'), (_ <? tx'), (rx' <? SIZEOF_HDR).
Qed.

Lemma get_one_xfer_any_tx_size_witness :
  exists id info' x,
    ti_sci_get_one_xfer k2g_probed 2 0 0 8 = Some (XFER id, info') /\
    get_xfer (minfo info') id = Some x /\
    tx_message_len x = 0 /\
    hdr_seq (xfer_buf x) = id.
Proof.
  destruct k2g_probed_ok as (Hd & Hp & Hg).
  destruct (get_one_xfer_any_tx_size k2g_probed 2 0 0 8 Hd Hp Hg)
    as [(id & info' & x & H1 & H2 & H3 & H4 & _) _].
  - reflexivity.
  - vm_compute. split; discriminate.
  - vm_compute. split; discriminate.
  - exists id, info', x. auto.
Defined.

(** ** The synchronous transfer *)

Lemma put_one_xfer_spec (mi : ti_sci_xfers_info) (xfer : Z) (x : ti_sci_xfer)
    (table : list Z) :
  get_xfer mi xfer = Some x -> hdr_seq (xfer_buf x) = xfer ->
  clear_bit xfer (xfer_alloc_table mi) = Some table ->
  ti_sci_put_one_xfer mi xfer
  = Some (set_sem (sem_xfer_count mi + 1) (set_table table mi)).
Proof.
  intros Hx Hseq Hclr. unfold ti_sci_put_one_xfer, xfer_unmark. rewrite Hx. simpl.
  rewrite Hseq, Hclr. reflexivity.
Qed.

Lemma pool_ok_clear_bit (d : ti_sci_desc) (mi : ti_sci_xfers_info) (nr c : Z)
    (table : list Z) :
  clear_bit nr (xfer_alloc_table mi) = Some table -> pool_ok d mi ->
  pool_ok d (set_sem c (set_table table mi)).
Proof.
  intros Hclr (Hlen & Hall & Htl & Htop). unfold pool_ok. simpl_state.
  split_and!; auto.
  - rewrite (length_clear_bit _ _ _ Hclr). exact Htl.
  - intros i Hi. rewrite (bit_clear_bit _ _ _ _ Hclr).
    rewrite Htop by lia. apply andb_false_r.
Qed.

(** [ti_sci_do_xfer] returns on every well-formed instance when the
    messages delivered have their sequence identifiers within the
    table; it touches transfers only; it returns the send error, or
    [-ETIMEDOUT], or 0. *)
Lemma do_xfer_spec (info : ti_sci_info) (xfer : Z) (x : ti_sci_xfer)
    (env : mbox_env) :
  pool_ok (desc info) (minfo info) ->
  Forall (seq_in_table (desc info)) (arrivals env) ->
  0 <= xfer -> get_xfer (minfo info) xfer = Some x ->
  exists ret log info',
    ti_sci_do_xfer info xfer env = Some (ret, log, info') /\
    slots_only info info' /\
    (send_ret env < 0 -> ret = send_ret env) /\
    (0 <= send_ret env -> ret = 0 \/ ret = - ETIMEDOUT) /\
    (0 <= send_ret env ->
     Forall (fun m => hdr_seq (buf m) <> xfer) (arrivals env) ->
     done x = O -> ret = - ETIMEDOUT).
Proof.
  intros Hp Hin Hi Hx. unfold ti_sci_do_xfer. rewrite Hx. simpl.
  destruct (Z.ltb_spec (send_ret env) 0) as [Hfail|Hsent].
  - do 3 eexists. split; [reflexivity|].
    split; [apply slots_only_refl|]. split_and!; auto; lia.
  - destruct (wait_for_completion_slots_only (arrivals env) info xfer x Hp Hin Hi Hx)
      as (r & log & info' & Hw & Hs & Hr).
    rewrite Hw. simpl.
    destruct Hr as [-> | ->]; simpl; do 3 eexists; (split; [reflexivity|]);
      (split; [exact Hs|]); split_and!; auto; try lia.
    intros _ Hnone Hdone.
    pose proof (wait_for_completion_no_reply _ _ _ _ _ _ _ Hi Hx Hdone Hnone Hw).
    discriminate.
Qed.

Section CommandProperties.

Variable TI_SCI_MSG_VERSION : Z.
Variable SIZEOF_RESP_VERSION : Z.
Variable rev_info : list Z -> ti_sci_version_info.
Variable SIZEOF_FIRMWARE_DESCRIPTION : nat.

(** The release in [ti_sci_cmd_get_revision] after a failed transfer. *)
Lemma get_revision_release (info info1 : ti_sci_info) (xfer : Z)
    (env : mbox_env) :
  desc_ok (desc info) -> pool_ok (desc info) (minfo info) ->
  credits_ok (desc info) (minfo info) ->
  Forall (seq_in_table (desc info)) (arrivals env) ->
  ti_sci_get_one_xfer info TI_SCI_MSG_VERSION 0 SIZEOF_HDR SIZEOF_RESP_VERSION
  = Some (XFER xfer, info1) ->
  exists ret log info2,
    ti_sci_do_xfer info1 xfer env = Some (ret, log, info2) /\
    (send_ret env < 0 -> ret = send_ret env) /\
    (0 <= send_ret env -> ret = 0 \/ ret = - ETIMEDOUT) /\
    (0 <= send_ret env ->
     Forall (fun m => hdr_seq (buf m) <> xfer) (arrivals env) ->
     ret = - ETIMEDOUT) /\
    (ret <> 0 ->
     exists log' info3,
       ti_sci_cmd_get_revision TI_SCI_MSG_VERSION SIZEOF_RESP_VERSION rev_info
         SIZEOF_FIRMWARE_DESCRIPTION info env = Some (ret, log', info3) /\
       test_bit xfer (xfer_alloc_table (minfo info1)) = Some true /\
       test_bit xfer (xfer_alloc_table (minfo info3)) = Some false /\
       xfer_alloc_table (minfo info3) = xfer_alloc_table (minfo info) /\
       sem_xfer_count (minfo info3) = sem_xfer_count (minfo info1) + 1 /\
       sem_xfer_count (minfo info3) = sem_xfer_count (minfo info) /\
       version info3 = version info /\
       forall ty fl tx rx,
         bad_transfer_sizes (desc info) tx rx = false ->
         exists id info4,
           ti_sci_get_one_xfer info3 ty fl tx rx = Some (XFER id, info4)).
Proof.
  intros Hd Hp Hg Hin Hget.
  destruct (get_one_xfer_inv _ _ _ _ _ _ _ Hd Hp Hg Hget)
    as (x & table & Hffz & Hid & Hclr & Hlow & Hsane & Hpos & Hx & Hset & Hinfo1
        & Hp1 & Hseq).
  set (px := prepared (desc info) xfer TI_SCI_MSG_VERSION 0 SIZEOF_HDR
               SIZEOF_RESP_VERSION x) in *.
  assert (Hx1 : get_xfer (minfo info1) xfer = Some px).
  { rewrite Hinfo1. simpl_state. eapply get_set_xfer_eq. exact Hx. }
  assert (Hd1 : desc info1 = desc info) by (rewrite Hinfo1; reflexivity).
  rewrite <- Hd1 in Hp1, Hin.
  assert (Ht1 : xfer_alloc_table (minfo info1) = table)
    by (rewrite Hinfo1; reflexivity).
  assert (Hs1 : sem_xfer_count (minfo info1) = sem_xfer_count (minfo info) - 1)
    by (rewrite Hinfo1; reflexivity).
  pose proof (pool_ok_bit_in_table _ _ xfer Hp Hid) as Hrange.
  destruct (do_xfer_spec info1 xfer px env Hp1 Hin ltac:(lia) Hx1)
    as (ret & log & info2 & Hdo & Hs & Hsend & Hwait & Hnone).
  exists ret, log, info2. split; [exact Hdo|]. split_and!; auto.
  intros Hret.
  destruct Hs as (Hd2 & Hv2 & Ht2 & Hs2 & Hp2 & Hx2).
  destruct (Hx2 xfer px ltac:(lia) Hx1) as (x2 & Hx2' & _ & Hseq2).
  pose proof (clear_set_bit _ _ _ Hset Hclr) as Hback.
  pose proof (put_one_xfer_spec (minfo info2) xfer x2
                (xfer_alloc_table (minfo info)) Hx2' (Hseq2 Hseq)) as Hput.
  rewrite Ht2, Ht1 in Hput. specialize (Hput Hback).
  rewrite Hs2, Hs1 in Hput.
  replace (sem_xfer_count (minfo info) - 1 + 1)
    with (sem_xfer_count (minfo info)) in Hput by lia.
  do 2 eexists. split.
  { unfold ti_sci_cmd_get_revision. rewrite Hget. simpl. rewrite Hdo. simpl.
    destruct (Z.eqb_spec ret 0) as [E|_]; [contradiction|]. simpl.
    rewrite Hput. reflexivity. }
  simpl_state. split_and!; auto; try lia.
  - rewrite Ht1, test_bit_in_range
      by (rewrite (length_set_bit _ _ _ Hset); exact Hrange).
    rewrite (bit_set_bit _ _ _ _ Hset). now rewrite Z.eqb_refl.
  - rewrite test_bit_in_range by exact Hrange. now rewrite Hclr.
  - rewrite Hv2, Hinfo1. reflexivity.
  - intros ty fl tx rx Hsane'.
    match goal with
    | |- exists id info4, ti_sci_get_one_xfer ?i _ _ _ _ = _ => set (info3 := i)
    end.
    assert (Hd3 : desc info3 = desc info) by (unfold info3; simpl; congruence).
    destruct (get_one_xfer_succeeds info3 ty fl tx rx)
      as (y & table3 & _ & _ & Heq3 & _).
    + rewrite Hd3. exact Hd.
    + rewrite Hd3. unfold info3. simpl_state.
      pose proof (Hp2 Hp1) as Hp2'. rewrite Hd1 in Hp2'.
      destruct Hp2' as (Hl & Ha & _). destruct Hp as (_ & _ & Htl & Htop).
      unfold pool_ok. simpl_state. auto.
    + rewrite Hd3. exact Hg.
    + exact Hpos.
    + rewrite Hd3. exact Hsane'.
    + do 2 eexists. exact Heq3.
Qed.

Lemma get_one_xfer_total (info : ti_sci_info) (ty fl tx rx : Z) :
  desc_ok (desc info) -> pool_ok (desc info) (minfo info) ->
  credits_ok (desc info) (minfo info) ->
  exists p info', ti_sci_get_one_xfer info ty fl tx rx = Some (p, info').
Proof.
  intros Hd Hp Hg.
  destruct (bad_transfer_sizes (desc info) tx rx) eqn:Hsane.
  - do 2 eexists. unfold ti_sci_get_one_xfer. rewrite Hsane. reflexivity.
  - destruct (Z.ltb_spec 0 (sem_xfer_count (minfo info))) as [Hpos|Hnone].
    + destruct (get_one_xfer_succeeds info ty fl tx rx Hd Hp Hg Hpos Hsane)
        as (x & table & _ & _ & Heq & _).
      do 2 eexists. exact Heq.
    + do 2 eexists. unfold ti_sci_get_one_xfer, down_timeout. rewrite Hsane.
      destruct (Z.ltb_spec 0 (sem_xfer_count (minfo info))); [lia|]. reflexivity.
Qed.

(** [ti_sci_cmd_get_revision] returns on every well-formed instance. *)
Lemma get_revision_total (info : ti_sci_info) (env : mbox_env) :
  desc_ok (desc info) -> pool_ok (desc info) (minfo info) ->
  credits_ok (desc info) (minfo info) ->
  Forall (seq_in_table (desc info)) (arrivals env) ->
  exists ret log info',
    ti_sci_cmd_get_revision TI_SCI_MSG_VERSION SIZEOF_RESP_VERSION rev_info
      SIZEOF_FIRMWARE_DESCRIPTION info env = Some (ret, log, info').
Proof.
  intros Hd Hp Hg Hin.
  destruct (get_one_xfer_total info TI_SCI_MSG_VERSION 0 SIZEOF_HDR
              SIZEOF_RESP_VERSION Hd Hp Hg) as (p & info1 & Hget).
  destruct p as [err|xfer].
  - do 3 eexists. unfold ti_sci_cmd_get_revision. rewrite Hget. reflexivity.
  - destruct (get_revision_release info info1 xfer env Hd Hp Hg Hin Hget)
      as (ret & log & info2 & Hdo & _ & _ & _ & Hfail).
    destruct (Z.eq_dec ret 0) as [->|Hne].
    + destruct (get_one_xfer_inv _ _ _ _ _ _ _ Hd Hp Hg Hget)
        as (x & table & _ & Hid & Hclr & _ & _ & _ & Hx & Hset & Hinfo1 & Hp1 & Hseq).
      assert (Hx1 : exists x1, get_xfer (minfo info1) xfer = Some x1
                               /\ hdr_seq (xfer_buf x1) = xfer).
      { eexists. rewrite Hinfo1. simpl_state. split; [|exact Hseq].
        eapply get_set_xfer_eq. exact Hx. }
      destruct Hx1 as (x1 & Hx1 & Hseq1).
      assert (Hd1 : desc info1 = desc info) by (rewrite Hinfo1; reflexivity).
      rewrite <- Hd1 in Hp1, Hin.
      destruct (do_xfer_spec info1 xfer x1 env Hp1 Hin ltac:(lia) Hx1)
        as (ret' & log' & info2' & Hdo' & Hs & _).
      rewrite Hdo in Hdo'. injection Hdo' as <- <- <-.
      destruct Hs as (_ & _ & Ht2 & _ & _ & Hx2).
      destruct (Hx2 xfer x1 ltac:(lia) Hx1) as (x2 & Hx2' & _ & Hseq2).
      assert (Hback : clear_bit xfer (xfer_alloc_table (minfo info2))
                      = Some (xfer_alloc_table (minfo info))).
      { rewrite Ht2, Hinfo1. simpl_state. exact (clear_set_bit _ _ _ Hset Hclr). }
      do 3 eexists. unfold ti_sci_cmd_get_revision. rewrite Hget. simpl.
      rewrite Hdo. simpl. rewrite Hx2'. simpl.
      unfold ti_sci_put_one_xfer, xfer_unmark. simpl_state. rewrite Hx2'. simpl.
      rewrite (Hseq2 Hseq1), Hback. reflexivity.
    + destruct (Hfail Hne) as (log' & info3 & Hrev & _).
      do 3 eexists. exact Hrev.
Qed.

(** C5: in [ti_sci_cmd_get_revision], when the allocation has succeeded
    and the transfer then fails, the command returns the error of the
    transfer: the value of the failed send, or [-ETIMEDOUT] when the
    send went out and the wait ended unsignalled (as it does when no
    message delivered names the transfer). Before it returns it has
    released the transfer once: the bit is clear, the table and the
    semaphore are as before the command, one more than after the
    allocation; a further allocation with sane sizes succeeds. The
    messages delivered during the wait name bits within the table. *)
Theorem get_revision_failure_releases (info info1 : ti_sci_info) (xfer : Z)
    (env : mbox_env) :
  desc_ok (desc info) -> pool_ok (desc info) (minfo info) ->
  credits_ok (desc info) (minfo info) ->
  Forall (seq_in_table (desc info)) (arrivals env) ->
  ti_sci_get_one_xfer info TI_SCI_MSG_VERSION 0 SIZEOF_HDR SIZEOF_RESP_VERSION
  = Some (XFER xfer, info1) ->
  exists ret log info2,
    ti_sci_do_xfer info1 xfer env = Some (ret, log, info2) /\
    (send_ret env < 0 -> ret = send_ret env) /\
    (0 <= send_ret env -> ret = 0 \/ ret = - ETIMEDOUT) /\
    (0 <= send_ret env ->
     Forall (fun m => hdr_seq (buf m) <> xfer) (arrivals env) ->
     ret = - ETIMEDOUT) /\
    (ret <> 0 ->
     exists log' info3,
       ti_sci_cmd_get_revision TI_SCI_MSG_VERSION SIZEOF_RESP_VERSION rev_info
         SIZEOF_FIRMWARE_DESCRIPTION info env = Some (ret, log', info3) /\
       test_bit xfer (xfer_alloc_table (minfo info1)) = Some true /\
       test_bit xfer (xfer_alloc_table (minfo info3)) = Some false /\
       xfer_alloc_table (minfo info3) = xfer_alloc_table (minfo info) /\
       sem_xfer_count (minfo info3) = sem_xfer_count (minfo info1) + 1 /\
       sem_xfer_count (minfo info3) = sem_xfer_count (minfo info) /\
       version info3 = version info /\
       forall ty fl tx rx,
         bad_transfer_sizes (desc info) tx rx = false ->
         exists id info4,
           ti_sci_get_one_xfer info3 ty fl tx rx = Some (XFER id, info4)).
Proof.
  intros Hd Hp Hg Hin Hget.
  exact (get_revision_release info info1 xfer env Hd Hp Hg Hin Hget).
Qed.

End CommandProperties.

Lemma get_revision_failure_releases_witness :
  exists log info3,
    ti_sci_cmd_get_revision 2 44 sample_rev_info 32 k2g_probed
      {| send_ret := 0; arrivals := [] |} = Some (- ETIMEDOUT, log, info3) /\
    sem_xfer_count (minfo info3) = 128.
Proof.
  destruct k2g_probed_ok as (Hd & Hp & Hg).
  destruct (get_revision_failure_releases 2 44 sample_rev_info 32
              k2g_probed k2g_one_allocated 0
              {| send_ret := 0; arrivals := [] |} Hd Hp Hg (Forall_nil_2 _)
              k2g_one_allocated_eq)
    as (ret & log & info2 & _ & _ & _ & Hnone & Hfail).
  assert (Hret : ret = - ETIMEDOUT) by (apply Hnone; [simpl; lia|apply Forall_nil_2]).
  destruct Hfail as (log' & info3 & Hrev & _ & _ & _ & _ & Hsem & _).
  - rewrite Hret. discriminate.
  - exists log', info3. rewrite <- Hret. split; [exact Hrev|]. rewrite Hsem.
    reflexivity.
Defined.

(** ** Probe *)

Lemma prealloc_xfers_block (d : ti_sci_desc) (ok : nat -> bool) (n i : nat)
    (res : list devres) (block : list ti_sci_xfer) :
  prealloc_xfers d ok i n = (res, Some block) ->
  block = replicate n (prealloc_xfer d) /\ (n <> O -> 0 <= max_msg_size d).
Proof.
  revert i res block. induction n as [|n IH]; intros i res block; simpl.
  - intros [= <- <-]. split; [reflexivity|congruence].
  - unfold devm_alloc at 1.
    destruct (ok i); simpl; [|discriminate].
    destruct (Z.leb_spec 0 (max_msg_size d)); [|discriminate].
    destruct (prealloc_xfers d ok (S i) n) as [res' [rest|]] eqn:E; simpl;
      [|discriminate].
    intros [= <- <-]. destruct (IH _ _ _ E) as [-> _]. auto.
Qed.

Lemma probed_info_ok (d : ti_sci_desc) :
  0 <= max_msgs d < 2 ^ 8 -> 0 <= max_msg_size d < 2 ^ 31 ->
  let info := probed_info d (replicate (Z.to_nat (max_msgs d)) (prealloc_xfer d)) in
  desc_ok (desc info) /\ pool_ok (desc info) (minfo info) /\
  credits_ok (desc info) (minfo info).
Proof.
  intros Hm Hs info. unfold info, probed_info, desc_ok, pool_ok, credits_ok.
  simpl_state. unfold sema_init. rewrite bitmap_weight_zero.
  split_and!; try lia.
  - apply length_replicate.
  - apply Forall_replicate. unfold xfer_ok, prealloc_xfer. simpl.
    rewrite length_replicate. split; [reflexivity|lia].
  - apply length_bitmap_zero.
  - intros i Hi. apply bit_bitmap_zero.
Qed.

Section ProbeProperties.

Variable TI_SCI_MSG_VERSION : Z.
Variable SIZEOF_RESP_VERSION : Z.
Variable rev_info : list Z -> ti_sci_version_info.
Variable SIZEOF_FIRMWARE_DESCRIPTION : nat.

Local Abbreviation probe :=
  (ti_sci_probe TI_SCI_MSG_VERSION SIZEOF_RESP_VERSION rev_info
     SIZEOF_FIRMWARE_DESCRIPTION).

(** An empty pool: the semaphore starts at zero and the command fails
    at the allocation. *)
Lemma get_revision_empty_pool (d : ti_sci_desc) (env : mbox_env) :
  max_msgs d = 0 ->
  exists ret log info',
    ti_sci_cmd_get_revision TI_SCI_MSG_VERSION SIZEOF_RESP_VERSION rev_info
      SIZEOF_FIRMWARE_DESCRIPTION (probed_info d []) env = Some (ret, log, info').
Proof.
  intros Hz. unfold ti_sci_cmd_get_revision, ti_sci_get_one_xfer.
  destruct (bad_transfer_sizes _ _ _); [do 3 eexists; reflexivity|].
  unfold probed_info. simpl_state. unfold sema_init, down_timeout. rewrite Hz. simpl.
  do 3 eexists; reflexivity.
Qed.

(** [ti_sci_probe] returns, whatever the platform answers, when the
    messages it delivers have their sequence identifiers within the
    table. *)
Lemma probe_total (env : probe_env) :
  (forall d, of_match_device env = Some d ->
     max_msgs d < 2 ^ 8 ->
     max_msg_size d < 2 ^ 31 /\ Forall (seq_in_table d) (arrivals (mbox env))) ->
  exists r, probe env = Some r.
Proof.
  intros Hint. unfold ti_sci_probe.
  destruct (of_match_device env) as [d|] eqn:Hmatch; [|eexists; reflexivity].
  specialize (Hint d eq_refl).
  destruct (kzalloc_info_ok env); simpl; [|eexists; reflexivity].
  destruct (Z.leb_spec (Z.shiftl 1 (8 * SIZEOF_SEQ)) (max_msgs d)) as [Hbig|Hfit];
    [eexists; reflexivity|].
  change (Z.shiftl 1 (8 * SIZEOF_SEQ)) with (2 ^ 8) in Hfit.
  destruct (Hint Hfit) as [Hsz Hin].
  unfold devm_alloc at 1.
  destruct (kcalloc_xfer_block_ok env); simpl; [|eexists; reflexivity].
  destruct (Z.leb_spec 0 (max_msgs d)) as [Hnn|]; simpl; [|eexists; reflexivity].
  destruct (devm_alloc _ _); simpl; [|eexists; reflexivity].
  destruct (prealloc_xfers d (kcalloc_xfer_buf_ok env) 0 (Z.to_nat (max_msgs d)))
    as [bufs [block|]] eqn:Hpre; [|eexists; reflexivity].
  destruct (prealloc_xfers_block _ _ _ _ _ _ Hpre) as [-> Hsize].
  destruct (chan_rx_err env <? 0); [eexists; reflexivity|].
  destruct (chan_tx_err env <? 0); [eexists; reflexivity|].
  assert (Hrev : exists ret log info',
             ti_sci_cmd_get_revision TI_SCI_MSG_VERSION SIZEOF_RESP_VERSION
               rev_info SIZEOF_FIRMWARE_DESCRIPTION
               (probed_info d (replicate (Z.to_nat (max_msgs d)) (prealloc_xfer d)))
               (mbox env) = Some (ret, log, info')).
  { destruct (Z.eq_dec (max_msgs d) 0) as [Hz|Hnz].
    - rewrite Hz. simpl. now apply get_revision_empty_pool.
    - destruct (probed_info_ok d) as (Hd & Hp & Hg); [lia| |].
      + split; [|exact Hsz]. apply Hsize. lia.
      + now apply get_revision_total. }
  destruct Hrev as (ret & log & info' & ->). simpl.
  destruct (ret =? 0); simpl; eexists; reflexivity.
Qed.

(** C9: when [max_msgs] is not below [2 ^ 8], the range of the [u8]
    sequence field, [ti_sci_probe] fails with a negative error
    ([-EINVAL] once the instance itself is allocated) before any
    message is pre-allocated: no transfer block among the device's
    allocations, no driver data, not listed. When [max_msgs] is below
    [2 ^ 8] the check passes: with the instance allocated the probe
    goes on to the allocation of the transfer block, which is made when
    the allocator grants it, and a refusal there is [-ENOMEM]. *)
Theorem probe_max_msgs_check (env : probe_env) (d : ti_sci_desc) :
  of_match_device env = Some d ->
  (2 ^ 8 <= max_msgs d ->
   exists r,
     probe env = Some r /\
     probe_ret r < 0 /\
     (kzalloc_info_ok env = true ->
      probe_ret r = - EINVAL /\ probe_log r = [warn_max_msgs]) /\
     (forall n, res_xfer_block n ∉ probe_devres r) /\
     probe_drvdata r = None /\ probe_listed r = false) /\
  (max_msgs d < 2 ^ 8 -> kzalloc_info_ok env = true ->
   max_msg_size d < 2 ^ 31 ->
   Forall (seq_in_table d) (arrivals (mbox env)) ->
   exists r,
     probe env = Some r /\
     (devm_alloc (kcalloc_xfer_block_ok env) (max_msgs d) = true ->
      res_xfer_block (max_msgs d) ∈ probe_devres r) /\
     (devm_alloc (kcalloc_xfer_block_ok env) (max_msgs d) = false ->
      probe_ret r = - ENOMEM /\ probe_log r = [])).
Proof.
  intros Hmatch. split.
  - intros Hbig. unfold ti_sci_probe. rewrite Hmatch.
    change (Z.shiftl 1 (8 * SIZEOF_SEQ)) with (2 ^ 8).
    destruct (kzalloc_info_ok env); simpl.
    + destruct (Z.leb_spec (2 ^ 8) (max_msgs d)); [|lia].
      eexists. split; [reflexivity|]. simpl. split_and!; auto.
      * unfold EINVAL. lia.
      * intros n Hn. apply list_elem_of_singleton in Hn. discriminate.
    + eexists. split; [reflexivity|]. simpl. split_and!; auto.
      * unfold ENOMEM. lia.
      * discriminate.
      * intros n Hn. apply elem_of_nil in Hn. exact Hn.
  - intros Hfit Hinfo Hsz Hin.
    destruct (probe_total env) as [r Hr].
    { intros d' Hd' _. rewrite Hmatch in Hd'. injection Hd' as <-. auto. }
    exists r. split; [exact Hr|].
    unfold ti_sci_probe in Hr. rewrite Hmatch, Hinfo in Hr.
    change (Z.shiftl 1 (8 * SIZEOF_SEQ)) with (2 ^ 8) in Hr. simpl in Hr.
    destruct (Z.leb_spec (2 ^ 8) (max_msgs d)); [lia|].
    destruct (devm_alloc (kcalloc_xfer_block_ok env) (max_msgs d)); simpl in Hr.
    + split; [intros _|discriminate].
      destruct (devm_alloc _ _); simpl in Hr.
      * destruct (prealloc_xfers _ _ _ _) as [bufs [block|]].
        -- destruct (chan_rx_err env <? 0);
             [injection Hr as <-; simpl; (apply list_elem_of_In; simpl; auto)|].
           destruct (chan_tx_err env <? 0);
             [injection Hr as <-; simpl; (apply list_elem_of_In; simpl; auto)|].
           destruct (ti_sci_cmd_get_revision _ _ _ _ _ _) as [[[ret log] info']|];
             [|discriminate].
           simpl in Hr. destruct (ret =? 0); simpl in Hr;
             injection Hr as <-; simpl; (apply list_elem_of_In; simpl; auto).
        -- injection Hr as <-. simpl. (apply list_elem_of_In; simpl; auto).
      * injection Hr as <-. simpl. (apply list_elem_of_In; simpl; auto).
    + split; [discriminate|intros _]. injection Hr as <-. auto.
Qed.

End ProbeProperties.

Lemma probe_max_msgs_check_witness :
  (exists r,
     ti_sci_probe 2 44 sample_rev_info 32
       (k2g_platform {| send_ret := 0; arrivals := [] |}) = Some r /\
     res_xfer_block 128 ∈ probe_devres r) /\
  (exists r,
     ti_sci_probe 2 44 sample_rev_info 32 oversized_platform = Some r /\
     probe_ret r = - EINVAL).
Proof.
  split.
  - destruct (probe_max_msgs_check 2 44 sample_rev_info 32
                (k2g_platform {| send_ret := 0; arrivals := [] |})
                ti_sci_pmmc_k2g_desc eq_refl)
      as [_ Hfit].
    destruct Hfit as (r & Hr & Hblock & _).
    + reflexivity.
    + reflexivity.
    + reflexivity.
    + apply Forall_nil_2.
    + exists r. split; [exact Hr|]. apply Hblock. reflexivity.
  - destruct (probe_max_msgs_check 2 44 sample_rev_info 32 oversized_platform
                _ eq_refl)
      as [Hbig _].
    destruct Hbig as (r & Hr & _ & Hret & _).
    + simpl. lia.
    + exists r. split; [exact Hr|]. apply Hret. reflexivity.
Defined.

(** ** Interleaved callers: the semaphore bounds the table *)

Lemma sum_over_insert (f : thread -> Z) (ths : list thread) (t : nat)
    (th th' : thread) :
  ths !! t = Some th ->
  sum_over f (<[t := th']> ths) = sum_over f ths - f th + f th'.
Proof.
  revert t. induction ths as [|a rest IH]; intros [|t] H; simpl in *;
    try discriminate.
  - injection H as ->. lia.
  - rewrite (IH t H). lia.
Qed.

Lemma holds_bit_le_credit (th : thread) : 0 <= holds_bit th <= holds_credit th.
Proof. destruct th; simpl; lia. Qed.

Lemma sum_bit_le_credit (ths : list thread) :
  0 <= sum_over holds_bit ths <= sum_over holds_credit ths.
Proof.
  induction ths as [|a rest IH]; simpl; [lia|].
  pose proof (holds_bit_le_credit a). lia.
Qed.

Lemma sum_bit_lt_credit (ths : list thread) (t : nat) (th : thread) :
  ths !! t = Some th -> holds_bit th < holds_credit th ->
  sum_over holds_bit ths < sum_over holds_credit ths.
Proof.
  revert t. induction ths as [|a rest IH]; intros [|t] H Hlt; simpl in *;
    try discriminate.
  - injection H as ->. pose proof (sum_bit_le_credit rest). lia.
  - pose proof (holds_bit_le_credit a). pose proof (IH t H Hlt). lia.
Qed.

Lemma sum_over_idle (f : thread -> Z) (n : nat) :
  f Idle = 0 -> sum_over f (replicate n Idle) = 0.
Proof. intros H. induction n as [|n IH]; simpl; lia. Qed.

Lemma lookup_insert_thread (ths : list thread) (t t' : nat) (th th' : thread) :
  <[t := th]> ths !! t' = Some th' ->
  t' = t /\ th' = th \/ t' <> t /\ ths !! t' = Some th'.
Proof.
  intros H. apply list_lookup_insert_Some in H.
  destruct H as [(-> & -> & _)|[Hne H]]; auto.
Qed.

(** Replacing a caller by one that holds the same bit keeps who holds
    which bit. *)
Lemma bit_of_insert_same (ths : list thread) (t t' : nat) (th new th' : thread)
    (b : Z) :
  ths !! t = Some th -> bit_of new = bit_of th ->
  <[t := new]> ths !! t' = Some th' -> bit_of th' = Some b ->
  exists th0, ths !! t' = Some th0 /\ bit_of th0 = Some b.
Proof.
  intros Ht Hsame Hl Hb. apply lookup_insert_thread in Hl.
  destruct Hl as [[-> ->]|[_ Hl]].
  - exists th. split; [exact Ht|congruence].
  - exists th'. auto.
Qed.

(** Replacing a caller by one that holds no bit. *)
Lemma bit_of_insert_none (ths : list thread) (t t' : nat) (new th' : thread) (b : Z) :
  bit_of new = None ->
  <[t := new]> ths !! t' = Some th' -> bit_of th' = Some b ->
  t' <> t /\ ths !! t' = Some th'.
Proof.
  intros Hnone Hl Hb. apply lookup_insert_thread in Hl.
  destruct Hl as [[-> ->]|Hl]; [congruence|exact Hl].
Qed.

Lemma sys_inv_initial (d : ti_sci_desc) (n : nat) :
  desc_ok d -> sys_inv d (initial_system d n).
Proof.
  intros [Hm Hs].
  destruct (probed_info_ok d Hm Hs) as (_ & Hp & _).
  constructor; unfold initial_system; simpl_state.
  - reflexivity.
  - exact Hp.
  - unfold probed_info, sema_init. simpl. lia.
  - unfold probed_info, sema_init. simpl.
    rewrite sum_over_idle by reflexivity. lia.
  - unfold probed_info. simpl. rewrite bitmap_weight_zero.
    now rewrite sum_over_idle.
  - apply Forall_replicate. exact I.
  - intros t th b Hl Hb. apply lookup_replicate in Hl. destruct Hl as [-> _].
    discriminate.
  - intros t t' th th' b Hl _ Hb. apply lookup_replicate in Hl.
    destruct Hl as [-> _]. discriminate.
  - intros t xfer x Hl. apply lookup_replicate in Hl. destruct Hl as [Hl _].
    discriminate.
Qed.

Lemma inv_step_down (d : ti_sci_desc) (info : ti_sci_info) (ths : list thread)
    (t : nat) (ty fl tx rx count : Z) :
  sys_inv d {| sys_info := info; sys_threads := ths |} ->
  ths !! t = Some Idle ->
  bad_transfer_sizes (desc info) tx rx = false ->
  down_timeout (sem_xfer_count (minfo info)) = (0, count) ->
  sys_inv d {| sys_info := set_minfo (set_sem count (minfo info)) info;
               sys_threads := <[t := Acquired ty fl tx rx]> ths |}.
Proof.
  intros [Hdesc Hpool Hsem Hcred Hbits Hargs Hown Huniq Hseq] Ht Hsane Hdown.
  simpl_state.
  apply down_timeout_inv in Hdown.
  destruct Hdown as [(_ & Hpos & ->)|(Habs & _)]; [|unfold ETIME in Habs; lia].
  constructor; simpl_state; auto.
  - lia.
  - rewrite (sum_over_insert _ _ _ _ _ Ht). simpl. lia.
  - rewrite (sum_over_insert _ _ _ _ _ Ht). simpl. lia.
  - apply Forall_insert; [exact Hargs|]. simpl. now rewrite <- Hdesc.
  - intros t' th b Hl Hb.
    destruct (bit_of_insert_none _ _ _ (Acquired ty fl tx rx) _ _ eq_refl Hl Hb) as [_ Hl'].
    eapply Hown; eauto.
  - intros t1 t2 th1 th2 b Hl1 Hl2 Hb1 Hb2.
    destruct (bit_of_insert_none _ _ _ (Acquired ty fl tx rx) _ _ eq_refl Hl1 Hb1) as [_ Hl1'].
    destruct (bit_of_insert_none _ _ _ (Acquired ty fl tx rx) _ _ eq_refl Hl2 Hb2) as [_ Hl2'].
    eapply Huniq; eauto.
  - intros t' xfer x Hl Hx.
    destruct (bit_of_insert_none _ _ _ (Acquired ty fl tx rx) _ xfer eq_refl Hl eq_refl) as [_ Hl'].
    eapply Hseq; eauto.
Qed.

Lemma inv_step_up (d : ti_sci_desc) (info : ti_sci_info) (ths : list thread)
    (t : nat) :
  sys_inv d {| sys_info := info; sys_threads := ths |} ->
  ths !! t = Some Unmarked ->
  sys_inv d {| sys_info :=
                 set_minfo (set_sem (up (sem_xfer_count (minfo info))) (minfo info))
                   info;
               sys_threads := <[t := Idle]> ths |}.
Proof.
  intros [Hdesc Hpool Hsem Hcred Hbits Hargs Hown Huniq Hseq] Ht.
  simpl_state. unfold up.
  constructor; simpl_state; auto.
  - lia.
  - rewrite (sum_over_insert _ _ _ _ _ Ht). simpl. lia.
  - rewrite (sum_over_insert _ _ _ _ _ Ht). simpl. lia.
  - apply Forall_insert; [exact Hargs|exact I].
  - intros t' th b Hl Hb.
    destruct (bit_of_insert_none _ _ _ Idle _ _ eq_refl Hl Hb) as [_ Hl'].
    eapply Hown; eauto.
  - intros t1 t2 th1 th2 b Hl1 Hl2 Hb1 Hb2.
    destruct (bit_of_insert_none _ _ _ Idle _ _ eq_refl Hl1 Hb1) as [_ Hl1'].
    destruct (bit_of_insert_none _ _ _ Idle _ _ eq_refl Hl2 Hb2) as [_ Hl2'].
    eapply Huniq; eauto.
  - intros t' xfer x Hl Hx.
    destruct (bit_of_insert_none _ _ _ Idle _ xfer eq_refl Hl eq_refl) as [_ Hl'].
    eapply Hseq; eauto.
Qed.

Lemma inv_step_mark (d : ti_sci_desc) (info : ti_sci_info) (ths : list thread)
    (t : nat) (ty fl tx rx bit_pos : Z) (mi : ti_sci_xfers_info) :
  desc_ok d ->
  sys_inv d {| sys_info := info; sys_threads := ths |} ->
  ths !! t = Some (Acquired ty fl tx rx) ->
  xfer_mark (desc info) (minfo info) = Some (bit_pos, mi) ->
  sys_inv d {| sys_info := set_minfo mi info;
               sys_threads := <[t := Marked bit_pos ty fl tx rx]> ths |}.
Proof.
  intros [Hm Hs] [Hdesc Hpool Hsem Hcred Hbits Hargs Hown Huniq Hseq] Ht Hmark.
  simpl_state. rewrite Hdesc in Hmark.
  assert (Hfree : bitmap_weight (xfer_alloc_table (minfo info)) (max_msgs d)
                  < max_msgs d).
  { pose proof (sum_bit_lt_credit ths t _ Ht ltac:(simpl; lia)). lia. }
  destruct (xfer_mark_spec d (minfo info) ltac:(lia) Hpool Hfree)
    as (table & Hset & Heq & Hb & Hclr & _ & Hw & Hpool').
  rewrite Heq in Hmark. injection Hmark as <- <-.
  set (b := find_first_zero_bit (xfer_alloc_table (minfo info)) (max_msgs d)) in *.
  assert (Hother : forall t' th b', ths !! t' = Some th -> bit_of th = Some b' ->
                                    b' <> b).
  { intros t' th b' Hl Hb' ->. destruct (Hown _ _ _ Hl Hb') as [_ Hset'].
    congruence. }
  constructor; simpl_state; auto.
  - rewrite (sum_over_insert _ _ _ _ _ Ht). simpl. lia.
  - rewrite Hw, (sum_over_insert _ _ _ _ _ Ht). simpl. lia.
  - apply Forall_insert; [exact Hargs|].
    rewrite Forall_lookup in Hargs. apply (Hargs _ _ Ht).
  - intros t' th b' Hl Hb'. apply lookup_insert_thread in Hl.
    destruct Hl as [[-> ->]|[_ Hl]].
    + injection Hb' as <-. split; [exact Hb|].
      rewrite (bit_set_bit _ _ _ _ Hset). now rewrite Z.eqb_refl.
    + destruct (Hown _ _ _ Hl Hb') as [Hr Hset']. split; [exact Hr|].
      rewrite (bit_set_bit _ _ _ _ Hset). rewrite Hset'. apply orb_true_r.
  - intros t1 t2 th1 th2 b' Hl1 Hl2 Hb1 Hb2.
    apply lookup_insert_thread in Hl1. apply lookup_insert_thread in Hl2.
    destruct Hl1 as [[-> ->]|[Hn1 Hl1]]; destruct Hl2 as [[-> ->]|[Hn2 Hl2]].
    + reflexivity.
    + injection Hb1 as <-. exfalso. eapply Hother; eauto.
    + injection Hb2 as <-. exfalso. eapply Hother; eauto.
    + eapply Huniq; eauto.
  - intros t' xfer x Hl Hx. apply lookup_insert_thread in Hl.
    destruct Hl as [[_ [=]]|[_ Hl]]. eapply Hseq; eauto.
Qed.


Lemma inv_step_prepare (d : ti_sci_desc) (info : ti_sci_info) (ths : list thread)
    (t : nat) (ty fl tx rx bit_pos xfer_id : Z) (mi : ti_sci_xfers_info) :
  desc_ok d ->
  sys_inv d {| sys_info := info; sys_threads := ths |} ->
  ths !! t = Some (Marked bit_pos ty fl tx rx) ->
  xfer_prepare (desc info) bit_pos ty fl tx rx (minfo info) = Some (xfer_id, mi) ->
  sys_inv d {| sys_info := set_minfo mi info;
               sys_threads := <[t := Owning xfer_id]> ths |}.
Proof.
  intros Hd [Hdesc Hpool Hsem Hcred Hbits Hargs Hown Huniq Hseq] Ht Hprep.
  simpl_state. rewrite Hdesc in Hprep.
  destruct (Hown _ _ _ Ht eq_refl) as [Hb Hset].
  assert (Hsane : bad_transfer_sizes d tx rx = false).
  { rewrite Forall_lookup in Hargs. apply (Hargs _ _ Ht). }
  destruct (xfer_prepare_spec d (minfo info) bit_pos ty fl tx rx Hd Hpool Hb Hsane)
    as (x & Hx & Heq & Hpool' & Hhdr & _).
  rewrite Heq in Hprep. injection Hprep as <- <-.
  constructor; simpl_state; auto.
  - rewrite (sum_over_insert _ _ _ _ _ Ht). simpl. lia.
  - rewrite (sum_over_insert _ _ _ _ _ Ht). simpl. lia.
  - apply Forall_insert; [exact Hargs|exact I].
  - intros t' th b Hl Hb'.
    destruct (bit_of_insert_same _ _ _ _ (Owning bit_pos) _ _ Ht eq_refl Hl Hb')
      as (th0 & Hl0 & Hb0).
    eapply Hown; eauto.
  - intros t1 t2 th1 th2 b Hl1 Hl2 Hb1 Hb2.
    destruct (bit_of_insert_same _ _ _ _ (Owning bit_pos) _ _ Ht eq_refl Hl1 Hb1)
      as (th1' & Hl1' & Hb1').
    destruct (bit_of_insert_same _ _ _ _ (Owning bit_pos) _ _ Ht eq_refl Hl2 Hb2)
      as (th2' & Hl2' & Hb2').
    eapply Huniq; eauto.
  - intros t' xfer y Hl Hy. apply lookup_insert_thread in Hl.
    destruct Hl as [[-> [= ->]]|[Hne Hl]].
    + erewrite get_set_xfer_eq in Hy by exact Hx. injection Hy as <-. exact Hhdr.
    + destruct (Hown _ _ _ Hl eq_refl) as [Hr _].
      assert (xfer <> bit_pos).
      { intros ->. apply Hne. eapply Huniq; eauto. }
      rewrite get_set_xfer_ne in Hy by lia. eapply Hseq; eauto.
Qed.

Lemma inv_step_unmark (d : ti_sci_desc) (info : ti_sci_info) (ths : list thread)
    (t : nat) (xfer : Z) (mi : ti_sci_xfers_info) :
  sys_inv d {| sys_info := info; sys_threads := ths |} ->
  ths !! t = Some (Owning xfer) ->
  xfer_unmark (minfo info) xfer = Some mi ->
  sys_inv d {| sys_info := set_minfo mi info;
               sys_threads := <[t := Unmarked]> ths |}.
Proof.
  intros [Hdesc Hpool Hsem Hcred Hbits Hargs Hown Huniq Hseq] Ht Hun.
  simpl_state. unfold xfer_unmark in Hun.
  destruct (get_xfer (minfo info) xfer) as [x|] eqn:Hx; [|discriminate].
  simpl in Hun. rewrite (Hseq _ _ _ Ht Hx) in Hun.
  destruct (clear_bit xfer (xfer_alloc_table (minfo info))) as [table|] eqn:Hclr;
    [|discriminate].
  simpl in Hun. injection Hun as <-.
  destruct (Hown _ _ _ Ht eq_refl) as [Hr Hset].
  assert (Hother : forall t' th b, t' <> t -> ths !! t' = Some th ->
                                   bit_of th = Some b -> b <> xfer).
  { intros t' th b Hne Hl Hb ->. apply Hne. eapply Huniq; eauto. }
  constructor; simpl_state; auto.
  - apply (pool_ok_clear_bit d (minfo info) xfer (sem_xfer_count (minfo info))
             table Hclr Hpool).
  - rewrite (sum_over_insert _ _ _ _ _ Ht). simpl. lia.
  - rewrite (bitmap_weight_clear_bit _ _ _ _ Hr Hset Hclr).
    rewrite (sum_over_insert _ _ _ _ _ Ht). simpl. lia.
  - apply Forall_insert; [exact Hargs|exact I].
  - intros t' th b Hl Hb.
    destruct (bit_of_insert_none _ _ _ Unmarked _ _ eq_refl Hl Hb) as [Hne Hl'].
    destruct (Hown _ _ _ Hl' Hb) as [Hr' Hset']. split; [exact Hr'|].
    rewrite (bit_clear_bit _ _ _ _ Hclr). rewrite Hset'.
    destruct (Z.eqb_spec xfer b) as [E|_]; [|reflexivity].
    exfalso. eapply Hother; eauto.
  - intros t1 t2 th1 th2 b Hl1 Hl2 Hb1 Hb2.
    destruct (bit_of_insert_none _ _ _ Unmarked _ _ eq_refl Hl1 Hb1) as [_ Hl1'].
    destruct (bit_of_insert_none _ _ _ Unmarked _ _ eq_refl Hl2 Hb2) as [_ Hl2'].
    eapply Huniq; eauto.
  - intros t' xfer' y Hl Hy.
    destruct (bit_of_insert_none _ _ _ Unmarked _ xfer' eq_refl Hl eq_refl)
      as [_ Hl'].
    eapply Hseq; eauto.
Qed.

(** A step that touches transfers only keeps the invariant. *)
Lemma inv_slots_only (d : ti_sci_desc) (info info' : ti_sci_info)
    (ths : list thread) :
  sys_inv d {| sys_info := info; sys_threads := ths |} ->
  slots_only info info' ->
  sys_inv d {| sys_info := info'; sys_threads := ths |}.
Proof.
  intros [Hdesc Hpool Hsem Hcred Hbits Hargs Hown Huniq Hseq]
         (Hd' & _ & Ht' & Hs' & Hp' & Hx').
  simpl_state. rewrite Hdesc in Hp'.
  constructor; simpl_state; rewrite ?Ht', ?Hs'; auto.
  - congruence.
  - intros t xfer x' Hl Hx.
    destruct (Hown _ _ _ Hl eq_refl) as [Hr _].
    destruct (pool_ok_in_range d (minfo info) xfer Hpool Hr) as [x Hx0].
    destruct (Hx' xfer x ltac:(lia) Hx0) as (x'' & Hx'' & _ & Hkeep).
    rewrite Hx in Hx''. injection Hx'' as <-.
    apply Hkeep. eapply Hseq; eauto.
Qed.

Lemma step_preserves (d : ti_sci_desc) (s s' : system) :
  desc_ok d -> sys_inv d s -> step s s' -> sys_inv d s'.
Proof.
  intros Hd Hinv Hstep. destruct Hstep.
  - match goal with
    | H : ti_sci_get_one_xfer _ _ _ _ _ = _ |- _ =>
        apply get_one_xfer_err in H; destruct H as [-> _]
    end.
    exact Hinv.
  - eapply inv_step_down; eauto.
  - eapply inv_step_mark; eauto.
  - eapply inv_step_prepare; eauto.
  - eapply inv_slots_only; [exact Hinv|].
    apply slots_only_set_done; [|assumption].
    destruct Hinv as [_ _ _ _ _ _ Hown _ _]. simpl_state.
    match goal with
    | H : _ !! _ = Some (Owning _) |- _ =>
        destruct (Hown _ _ _ H eq_refl) as [Hr _]
    end.
    lia.
  - eapply inv_step_unmark; eauto.
  - eapply inv_step_up; eauto.
  - eapply inv_slots_only; [exact Hinv|].
    eapply rx_callback_slots_only'; [|eassumption].
    destruct Hinv as [Hdesc Hpool _ _ _ _ _ _ _]. simpl_state.
    rewrite Hdesc. exact Hpool.
Qed.

Lemma reachable_inv (d : ti_sci_desc) (s : system) :
  desc_ok d -> reachable d s -> sys_inv d s.
Proof.
  intros Hd Hreach. induction Hreach as [n|s s' _ IH Hstep].
  - now apply sys_inv_initial.
  - eapply step_preserves; eauto.
Qed.

(** C1: in every state reached from the probed instance by interleaved
    callers, each between the steps of [ti_sci_get_one_xfer] and
    [ti_sci_put_one_xfer], and by the receive callback, the number of
    set bits of the table is the number of callers between their
    [set_bit] and their [clear_bit]; the deficit of the semaphore is the
    number of callers between their [down_timeout] and their [up]; every
    caller of the first kind is one of the second. So the allocated
    slots never exceed the deficit, which never exceeds [max_msgs], and
    the two are equal whenever no caller stands between the semaphore and
    the table. *)
Theorem allocated_slots_bounded (d : ti_sci_desc) (s : system) :
  desc_ok d -> reachable d s ->
  desc (sys_info s) = d /\
  allocated_slots (sys_info s) = sum_over holds_bit (sys_threads s) /\
  sem_deficit (sys_info s) = sum_over holds_credit (sys_threads s) /\
  Forall (fun th => 0 <= holds_bit th <= holds_credit th) (sys_threads s) /\
  0 <= allocated_slots (sys_info s) <= sem_deficit (sys_info s) /\
  sem_deficit (sys_info s) <= max_msgs d /\
  (Forall (fun th => holds_bit th = holds_credit th) (sys_threads s) ->
   allocated_slots (sys_info s) = sem_deficit (sys_info s)).
Proof.
  intros Hd Hreach.
  destruct (reachable_inv d s Hd Hreach)
    as [Hdesc Hpool Hsem Hcred Hbits Hargs Hown Huniq Hseq].
  unfold allocated_slots, sem_deficit. rewrite Hdesc.
  pose proof (sum_bit_le_credit (sys_threads s)) as Hle.
  split_and!; try lia.
  - reflexivity.
  - apply Forall_forall. intros th _. apply holds_bit_le_credit.
  - intros Hall. rewrite Hbits.
    replace (max_msgs d - sem_xfer_count (minfo (sys_info s)))
      with (sum_over holds_credit (sys_threads s)) by lia.
    clear -Hall. induction Hall as [|th rest Hth _ IH]; simpl; lia.
Qed.

(** The calls are runs of the steps: a successful
    [ti_sci_get_one_xfer] by an idle caller is its [down_timeout], its
    locked section and its set-up; a [ti_sci_put_one_xfer] by the owner
    is its locked section and its [up]. *)
Lemma get_one_xfer_reachable (d : ti_sci_desc) (info info' : ti_sci_info)
    (ths : list thread) (t : nat) (ty fl tx rx id : Z) :
  reachable d {| sys_info := info; sys_threads := ths |} ->
  ths !! t = Some Idle ->
  ti_sci_get_one_xfer info ty fl tx rx = Some (XFER id, info') ->
  reachable d {| sys_info := info'; sys_threads := <[t := Owning id]> ths |}.
Proof.
  intros Hreach Ht Hget.
  destruct (get_one_xfer_ok _ _ _ _ _ _ _ Hget)
    as (bit_pos & mi & Hsane & Hpos & Hmark & Hprep & Hinfo').
  assert (Hlen : (t < length ths)%nat) by (eapply lookup_lt_Some; exact Ht).
  rewrite Hinfo'.
  rewrite <- (list_insert_insert_eq ths t (Owning id) (Marked bit_pos ty fl tx rx)).
  rewrite <- (list_insert_insert_eq ths t (Marked bit_pos ty fl tx rx)
                (Acquired ty fl tx rx)).
  eapply reach_step.
  - eapply reach_step.
    + eapply reach_step; [exact Hreach|].
      apply (step_down info ths t ty fl tx rx (sem_xfer_count (minfo info) - 1)
               Ht Hsane).
      now apply down_timeout_acquired.
    + apply (step_mark _ _ t ty fl tx rx bit_pos mi).
      * now apply list_lookup_insert_eq.
      * exact Hmark.
  - change (set_minfo (minfo info') info)
      with (set_minfo (minfo info')
              (set_minfo mi
                 (set_minfo (set_sem (sem_xfer_count (minfo info) - 1) (minfo info))
                    info))).
    apply (step_prepare _ _ t ty fl tx rx bit_pos id (minfo info')).
    + apply list_lookup_insert_eq. now rewrite length_insert.
    + exact Hprep.
Qed.

Lemma put_one_xfer_reachable (d : ti_sci_desc) (info : ti_sci_info)
    (mi : ti_sci_xfers_info) (ths : list thread) (t : nat) (xfer : Z) :
  reachable d {| sys_info := info; sys_threads := ths |} ->
  ths !! t = Some (Owning xfer) ->
  ti_sci_put_one_xfer (minfo info) xfer = Some mi ->
  reachable d {| sys_info := set_minfo mi info; sys_threads := <[t := Idle]> ths |}.
Proof.
  intros Hreach Ht Hput. unfold ti_sci_put_one_xfer in Hput.
  destruct (xfer_unmark (minfo info) xfer) as [mi1|] eqn:Hun; [|discriminate].
  simpl in Hput. injection Hput as <-.
  assert (Hlen : (t < length ths)%nat) by (eapply lookup_lt_Some; exact Ht).
  rewrite <- (list_insert_insert_eq ths t Idle Unmarked).
  eapply reach_step.
  - eapply reach_step; [exact Hreach|].
    apply (step_unmark info ths t xfer mi1 Ht Hun).
  - change (set_minfo (set_sem (up (sem_xfer_count mi1)) mi1) info)
      with (set_minfo (set_sem (up (sem_xfer_count (minfo (set_minfo mi1 info))))
                         (minfo (set_minfo mi1 info)))
              (set_minfo mi1 info)).
    apply (step_up (set_minfo mi1 info) _ t). now apply list_lookup_insert_eq.
Qed.

Lemma k2g_one_allocated_reachable :
  reachable ti_sci_pmmc_k2g_desc
    {| sys_info := k2g_one_allocated; sys_threads := [Owning 0] |}.
Proof.
  apply (get_one_xfer_reachable ti_sci_pmmc_k2g_desc k2g_probed k2g_one_allocated
           [Idle] 0 2 0 8 44 0).
  - apply (reach_init ti_sci_pmmc_k2g_desc 1).
  - reflexivity.
  - exact k2g_one_allocated_eq.
Qed.

Lemma allocated_slots_bounded_witness :
  allocated_slots k2g_one_allocated = 1 /\
  sem_deficit k2g_one_allocated = 1.
Proof.
  destruct (allocated_slots_bounded ti_sci_pmmc_k2g_desc
              {| sys_info := k2g_one_allocated; sys_threads := [Owning 0] |})
    as (_ & Hb & Hc & _).
  - vm_compute. repeat split; discriminate.
  - apply k2g_one_allocated_reachable.
  - simpl_state. rewrite Hb, Hc. split; reflexivity.
Defined.

(** ** Messages shorter than the header *)

Lemma probed_expect_header (d : ti_sci_desc) (block : list ti_sci_xfer) :
  allocated_expect_header (minfo (probed_info d block)).
Proof.
  intros i x Hbit _. unfold probed_info in Hbit. simpl_state.
  rewrite bit_bitmap_zero in Hbit. discriminate.
Qed.

(** With [max_msg_size] below 256 the cast to [u8] keeps the expected
    length, so a transfer set up by [ti_sci_get_one_xfer] expects at
    least a header. *)
Lemma get_one_xfer_expect_header (info info' : ti_sci_info) (ty fl tx rx : Z)
    (p : xfer_ptr) :
  desc_ok (desc info) -> pool_ok (desc info) (minfo info) ->
  credits_ok (desc info) (minfo info) ->
  max_msg_size (desc info) < 2 ^ 8 ->
  allocated_expect_header (minfo info) ->
  ti_sci_get_one_xfer info ty fl tx rx = Some (p, info') ->
  allocated_expect_header (minfo info').
Proof.
  intros Hd Hp Hg Hsmall Hexp Hget. destruct p as [err|id].
  - apply get_one_xfer_err in Hget. destruct Hget as [-> _]. exact Hexp.
  - destruct (get_one_xfer_inv _ _ _ _ _ _ _ Hd Hp Hg Hget)
      as (x & table & _ & Hid & Hclr & _ & Hsane & _ & Hx & Hset & -> & _ & _).
    intros i y Hbit Hy. simpl_state.
    destruct (bit_true_range _ _ Hbit) as [Hi _].
    rewrite (bit_set_bit _ _ _ _ Hset) in Hbit.
    destruct (Z.eq_dec id i) as [<-|Hne].
    + erewrite get_set_xfer_eq in Hy by exact Hx. injection Hy as <-.
      unfold prepared. simpl.
      destruct (sane_sizes_bounds _ _ _ (proj2 Hd) Hsane) as [_ Hr].
      rewrite u8_small; [lia|]. unfold SIZEOF_HDR in Hr. lia.
    + rewrite get_set_xfer_ne in Hy by lia.
      destruct (Z.eqb_spec id i); [lia|]. simpl in Hbit.
      apply (Hexp i y Hbit Hy).
Qed.

Lemma put_one_xfer_expect_header (mi mi' : ti_sci_xfers_info) (xfer : Z) :
  allocated_expect_header mi -> ti_sci_put_one_xfer mi xfer = Some mi' ->
  allocated_expect_header mi'.
Proof.
  intros Hexp Hput. unfold ti_sci_put_one_xfer, xfer_unmark in Hput.
  destruct (get_xfer mi xfer) as [x|]; [|discriminate]. simpl in Hput.
  destruct (clear_bit _ _) as [table|] eqn:Hclr; [|discriminate].
  simpl in Hput. injection Hput as <-. intros i y Hbit Hy. simpl_state.
  rewrite (bit_clear_bit _ _ _ _ Hclr) in Hbit.
  apply andb_true_iff in Hbit. apply (Hexp i y (proj2 Hbit) Hy).
Qed.

(** C2, as the code has it: the callback has no check of the length
    against the header size. For a message shorter than the header it
    still takes the sequence identifier from the header's place in the
    transport buffer; with that identifier within the table the
    message is then dropped, as not expected when the bit is clear, and
    by the length checks when the bit is set and the transfer expects
    at least a header; no transfer, bit, credit or completion changes.
    The line it logs names the sequence identifier it has read. *)
Theorem rx_callback_short_message (info : ti_sci_info) (m : ti_msgmgr_message) :
  pool_ok (desc info) (minfo info) ->
  allocated_expect_header (minfo info) ->
  seq_in_table (desc info) m ->
  len m < SIZEOF_HDR ->
  exists log,
    ti_sci_rx_callback info m = Some (log, info) /\
    (test_bit (hdr_seq (buf m)) (xfer_alloc_table (minfo info)) = Some false ->
     log = [err_not_expected (hdr_seq (buf m))]) /\
    (test_bit (hdr_seq (buf m)) (xfer_alloc_table (minfo info)) = Some true ->
     exists e, log = [e; ti_sci_dump_header_dbg (buf m)]).
Proof.
  intros Hp Hexp Hin Hshort. unfold ti_sci_rx_callback.
  rewrite (pool_ok_test_bit _ _ _ Hp Hin). simpl.
  destruct (bit (xfer_alloc_table (minfo info)) (hdr_seq (buf m))) eqn:Hbit; simpl.
  - pose proof (pool_ok_set_bit_range _ _ _ Hp Hbit) as Hr.
    destruct (pool_ok_in_range _ _ _ Hp Hr) as [x Hx]. rewrite Hx. simpl.
    pose proof (Hexp _ _ Hbit Hx) as Hhdr.
    destruct (_ <? len m).
    + eexists. split; [reflexivity|]. split; [discriminate|]. eauto.
    + destruct (Z.ltb_spec (len m) (rx_len x)); [|lia].
      eexists. split; [reflexivity|]. split; [discriminate|]. eauto.
  - eexists. split; [reflexivity|]. split; [reflexivity|discriminate].
Qed.

Lemma k2g_one_allocated_expect_header :
  allocated_expect_header (minfo k2g_one_allocated).
Proof.
  destruct k2g_probed_ok as (Hd & Hp & Hg).
  eapply get_one_xfer_expect_header; eauto.
  - reflexivity.
  - apply probed_expect_header.
  - exact k2g_one_allocated_eq.
Qed.

Lemma rx_callback_short_message_witness :
  exists log,
    ti_sci_rx_callback k2g_one_allocated {| len := 2; buf := [0; 0; 0; 0] |}
    = Some (log, k2g_one_allocated).
Proof.
  destruct k2g_one_allocated_pool as (_ & Hp & _).
  destruct (rx_callback_short_message k2g_one_allocated
              {| len := 2; buf := [0; 0; 0; 0] |} Hp
              k2g_one_allocated_expect_header)
    as (log & H & _).
  - vm_compute. split; [discriminate|reflexivity].
  - reflexivity.
  - exists log. exact H.
Defined.

Lemma k2g_marked_reachable :
  reachable ti_sci_pmmc_k2g_desc
    {| sys_info := k2g_marked; sys_threads := [Marked 0 2 0 8 44] |}.
Proof.
  change k2g_marked
    with (set_minfo (set_table [1; 0; 0; 0] (set_sem 127 (minfo k2g_probed)))
            (set_minfo (set_sem 127 (minfo k2g_probed)) k2g_probed)).
  eapply reach_step.
  - eapply reach_step; [apply (reach_init ti_sci_pmmc_k2g_desc 1)|].
    apply (step_down k2g_probed [Idle] 0 2 0 8 44 127); reflexivity.
  - apply (step_mark _ [Acquired 2 0 8 44] 0 2 0 8 44 0
             (set_table [1; 0; 0; 0] (set_sem 127 (minfo k2g_probed))));
      reflexivity.
Qed.

(** C2, as stated, fails. Two messages of length 2 with the same two
    bytes, which differ only in the transport buffer at offset 3, past
    their end: on the K2G instance with transfer 0 allocated the
    callback treats the first as a short reply for transfer 0 and the
    second as an unexpected message for sequence identifier 1. It has
    used the header of a message shorter than the header, and read past
    the end of the message. And when the first arrives between the
    locked section and the set-up of the first allocation, where bit 0
    is set and transfer 0 still expects zero bytes, it is accepted: the
    completion of transfer 0 goes from 0 to 1. *)
Lemma rx_callback_short_uses_header :
  let m0 := {| len := 2; buf := [0; 0; 0; 0] |} in
  let m1 := {| len := 2; buf := [0; 0; 0; 1] |} in
  len m0 < SIZEOF_HDR /\ len m1 = len m0 /\
  take (Z.to_nat (len m0)) (buf m1) = take (Z.to_nat (len m0)) (buf m0) /\
  ti_sci_rx_callback k2g_one_allocated m0
  = Some ([err_recv_short 2 44; dbg_msghdr 0 0 0 0], k2g_one_allocated) /\
  ti_sci_rx_callback k2g_one_allocated m1
  = Some ([err_not_expected 1], k2g_one_allocated) /\
  ti_sci_rx_callback k2g_one_allocated m0 <> ti_sci_rx_callback k2g_one_allocated m1 /\
  reachable ti_sci_pmmc_k2g_desc
    {| sys_info := k2g_marked; sys_threads := [Marked 0 2 0 8 44] |} /\
  done <$> get_xfer (minfo k2g_marked) 0 = Some O /\
  (ti_sci_rx_callback k2g_marked m0 ≫= fun r =>
   done <$> get_xfer (minfo r.2) 0) = Some 1%nat.
Proof.
  intros m0 m1. split_and!; try reflexivity.
  - discriminate.
  - exact k2g_marked_reachable.
Qed.

(** ** Runs of the model *)

(** The K2G probe with a firmware that answers the version request:
    the probe succeeds, the instance is listed, the version is stored,
    and the transfer is released. *)
Example probe_k2g_answered :
  (ti_sci_probe 2 44 sample_rev_info 32
     (k2g_platform {| send_ret := 0; arrivals := [sample_version_reply] |})
   ≫= fun r =>
   info ← probe_drvdata r;
   Some (probe_ret r, probe_listed r, abi_major (version info),
         abi_minor (version info), firmware_revision (version info),
         take 4 (firmware_description (version info)),
         sem_xfer_count (minfo info), xfer_alloc_table (minfo info)))
  = Some (0, true, 3, 7, 1, [75; 50; 71; 0], 128, [0; 0; 0; 0]).
Proof. reflexivity. Qed.

(** The same probe with a firmware that never answers. *)
Example probe_k2g_silent :
  (ti_sci_probe 2 44 sample_rev_info 32
     (k2g_platform {| send_ret := 0; arrivals := [] |})
   ≫= fun r =>
   info ← probe_drvdata r;
   Some (probe_ret r, probe_listed r, sem_xfer_count (minfo info),
         xfer_alloc_table (minfo info)))
  = Some (- ETIMEDOUT, false, 128, [0; 0; 0; 0]).
Proof. reflexivity. Qed.

(** With two messages, two allocations take transfers 0 and 1; a third
    finds no credit and gives up with [-ETIME]; after the release of
    transfer 0 the next allocation takes it again. *)
Example saturation_two_msgs :
  let info0 :=
    probed_info two_msgs_desc (replicate 2 (prealloc_xfer two_msgs_desc)) in
  ('(p1, info1) ← ti_sci_get_one_xfer info0 2 0 8 8;
   '(p2, info2) ← ti_sci_get_one_xfer info1 2 0 8 8;
   '(p3, info3) ← ti_sci_get_one_xfer info2 2 0 8 8;
   mi4 ← ti_sci_put_one_xfer (minfo info3) 0;
   '(p5, info5) ← ti_sci_get_one_xfer (set_minfo mi4 info3) 2 0 8 8;
   Some (p1, p2, p3, p5, sem_xfer_count (minfo info5),
         xfer_alloc_table (minfo info5)))
  = Some (XFER 0, XFER 1, ERR_PTR (- ETIME), XFER 0, 0, [3]).
Proof. reflexivity. Qed.

(** A message whose sequence identifier lies past the words of the K2G
    table: the callback reads outside the table. *)
Example rx_callback_outside_table :
  ti_sci_rx_callback k2g_probed {| len := 8; buf := [2; 0; 2; 200; 0; 0; 0; 0] |}
  = None.
Proof. reflexivity. Qed.

(** * Further properties of the transfer layer *)

(** ** Allocation and release *)

(** X1: [ti_sci_put_one_xfer] undoes [ti_sci_get_one_xfer]. On a
    well-formed instance, releasing the transfer that an allocation has
    just returned succeeds and gives back the allocation table and the
    semaphore count of before the allocation; the block keeps its
    length and every other transfer is as before, so the instance is
    well formed again. Only the released transfer keeps what the
    allocation wrote into it. *)
Theorem get_put_one_xfer_round_trip (info info' : ti_sci_info) (ty fl tx rx id : Z) :
  desc_ok (desc info) -> pool_ok (desc info) (minfo info) ->
  credits_ok (desc info) (minfo info) ->
  ti_sci_get_one_xfer info ty fl tx rx = Some (XFER id, info') ->
  exists mi,
    ti_sci_put_one_xfer (minfo info') id = Some mi /\
    xfer_alloc_table mi = xfer_alloc_table (minfo info) /\
    sem_xfer_count mi = sem_xfer_count (minfo info) /\
    length (xfer_block mi) = length (xfer_block (minfo info)) /\
    (forall j, 0 <= j -> j <> id -> get_xfer mi j = get_xfer (minfo info) j) /\
    pool_ok (desc info) mi /\ credits_ok (desc info) mi.
Proof.
  intros Hd Hp Hg Hget.
  destruct (get_one_xfer_inv _ _ _ _ _ _ _ Hd Hp Hg Hget)
    as (x & table & _ & Hid & Hclr & _ & _ & Hpos & Hx & Hset & Hinfo1 & Hp1 & Hseq).
  set (px := prepared (desc info) id ty fl tx rx x) in *.
  assert (Hx1 : get_xfer (minfo info') id = Some px).
  { rewrite Hinfo1. simpl_state. eapply get_set_xfer_eq. exact Hx. }
  assert (Hback : clear_bit id (xfer_alloc_table (minfo info'))
                  = Some (xfer_alloc_table (minfo info))).
  { rewrite Hinfo1. simpl_state. exact (clear_set_bit _ _ _ Hset Hclr). }
  pose proof (put_one_xfer_spec (minfo info') id px _ Hx1 Hseq Hback) as Hput.
  eexists. split; [exact Hput|].
  assert (Hs1 : sem_xfer_count (minfo info') = sem_xfer_count (minfo info) - 1)
    by (rewrite Hinfo1; reflexivity).
  simpl_state. split_and!; auto.
  - lia.
  - rewrite Hinfo1. simpl_state. apply length_insert.
  - intros j Hj Hne. unfold get_xfer. simpl_state.
    rewrite Hinfo1. simpl_state.
    apply list_lookup_insert_ne. intros E. apply Hne. lia.
  - apply (pool_ok_clear_bit _ _ id _ _ Hback Hp1).
  - destruct Hg as [Hnn Hw]. unfold credits_ok. simpl_state. split; lia.
Qed.

Lemma get_put_one_xfer_round_trip_witness :
  exists mi,
    ti_sci_put_one_xfer (minfo k2g_one_allocated) 0 = Some mi /\
    xfer_alloc_table mi = [0; 0; 0; 0] /\ sem_xfer_count mi = 128.
Proof.
  destruct k2g_probed_ok as (Hd & Hp & Hg).
  destruct (get_put_one_xfer_round_trip k2g_probed k2g_one_allocated 2 0 8 44 0
              Hd Hp Hg k2g_one_allocated_eq)
    as (mi & Hput & Ht & Hs & _).
  exists mi. split; [exact Hput|]. rewrite Ht, Hs. split; reflexivity.
Defined.

(** X2: the expected reply length of a transfer is the requested
    receive size cut to eight bits. After a successful allocation the
    transfer holds [rx_message_size mod 256] as [rx_len]; this is the
    requested size whenever [max_msg_size] is below 256. The receive
    callback compares with the stored value: a message for the transfer
    that is not longer than [max_msg_size] is copied and signalled
    exactly when its length is at least [rx_message_size mod 256]. *)
Theorem get_one_xfer_rx_len (info info' : ti_sci_info) (ty fl tx rx id : Z) :
  desc_ok (desc info) -> pool_ok (desc info) (minfo info) ->
  credits_ok (desc info) (minfo info) ->
  ti_sci_get_one_xfer info ty fl tx rx = Some (XFER id, info') ->
  exists x',
    get_xfer (minfo info') id = Some x' /\
    tx_message_len x' = tx /\
    rx_len x' = rx mod 2 ^ 8 /\
    (max_msg_size (desc info) < 2 ^ 8 -> rx_len x' = rx) /\
    (forall m, hdr_seq (buf m) = id -> len m <= max_msg_size (desc info) ->
       exists log info'',
         ti_sci_rx_callback info' m = Some (log, info'') /\
         (rx mod 2 ^ 8 <= len m <->
          get_xfer (minfo info'') id = Some (delivered x' m))).
Proof.
  intros Hd Hp Hg Hget.
  destruct (get_one_xfer_inv _ _ _ _ _ _ _ Hd Hp Hg Hget)
    as (x & table & _ & Hid & Hclr & _ & Hsane & Hpos & Hx & Hset & Hinfo1 & Hp1 & Hseq).
  set (px := prepared (desc info) id ty fl tx rx x) in *.
  assert (Hx1 : get_xfer (minfo info') id = Some px).
  { rewrite Hinfo1. simpl_state. eapply get_set_xfer_eq. exact Hx. }
  assert (Hd1 : desc info' = desc info) by (rewrite Hinfo1; reflexivity).
  destruct Hd as [Hm Hsz].
  destruct (sane_sizes_bounds _ _ _ Hsz Hsane) as [_ Hrx].
  exists px. split; [exact Hx1|]. split; [reflexivity|].
  split; [reflexivity|]. split.
  - intros Hsmall. unfold px, prepared. simpl. apply u8_small.
    unfold SIZEOF_HDR in Hrx. lia.
  - intros m Hm_seq Hlen.
    assert (Hbit : test_bit (hdr_seq (buf m)) (xfer_alloc_table (minfo info'))
                   = Some true).
    { rewrite Hm_seq, Hinfo1. simpl_state.
      rewrite test_bit_in_range.
      - rewrite (bit_set_bit _ _ _ _ Hset). now rewrite Z.eqb_refl.
      - rewrite (length_set_bit _ _ _ Hset). now apply (pool_ok_bit_in_table _ _ id Hp). }
    assert (Hxm : get_xfer (minfo info') (hdr_seq (buf m)) = Some px)
      by (rewrite Hm_seq; exact Hx1).
    assert (Hsz1 : 0 <= max_msg_size (desc info') < 2 ^ 31)
      by (rewrite Hd1; exact Hsz).
    destruct (rx_callback_expected_eq info' m px Hbit Hxm Hsz1) as (log & Hcb).
    do 2 eexists. split; [exact Hcb|].
    rewrite Hd1. change (rx_len px) with (rx mod 2 ^ 8).
    destruct (Z.leb_spec (len m) (max_msg_size (desc info))); [|lia]. simpl.
    destruct (Z.leb_spec (rx mod 2 ^ 8) (len m)) as [Hge|Hlt].
    + split; [intros _|auto]. simpl_state. rewrite <- Hm_seq.
      eapply get_set_xfer_eq. exact Hxm.
    + split; [lia|]. rewrite Hx1. discriminate.
Qed.

Lemma get_one_xfer_rx_len_witness :
  exists x',
    get_xfer (minfo k2g_one_allocated) 0 = Some x' /\ rx_len x' = 44.
Proof.
  destruct k2g_probed_ok as (Hd & Hp & Hg).
  destruct (get_one_xfer_rx_len k2g_probed k2g_one_allocated 2 0 8 44 0
              Hd Hp Hg k2g_one_allocated_eq)
    as (x' & Hx & _ & Hrx & _).
  exists x'. split; [exact Hx|]. rewrite Hrx. reflexivity.
Defined.

(** ** The reply of a transfer *)

Lemma wait_for_completion_signalled (info : ti_sci_info) (xfer : Z)
    (x : ti_sci_xfer) (n : nat) (deliveries : list ti_msgmgr_message) :
  get_xfer (minfo info) xfer = Some x -> done x = S n ->
  wait_for_completion_timeout info xfer deliveries
  = Some (1, [], set_minfo (set_xfer xfer (set_done n x) (minfo info)) info).
Proof.
  intros Hx Hd. destruct deliveries; simpl; rewrite Hx; simpl; rewrite Hd; reflexivity.
Qed.

Lemma valid_reply_dec (d : ti_sci_desc) (xfer expected : Z) (m : ti_msgmgr_message) :
  valid_reply d xfer expected m \/ ~ valid_reply d xfer expected m.
Proof.
  unfold valid_reply.
  destruct (Z.eq_dec (hdr_seq (buf m)) xfer); [|right; tauto].
  destruct (Z_le_dec expected (len m)); [|right; tauto].
  destruct (Z_le_dec (len m) (max_msg_size d)); [left|right]; tauto.
Qed.

(** The deliveries up to the first message the callback accepts for the
    transfer. *)
Lemma first_valid_reply (d : ti_sci_desc) (xfer expected : Z)
    (l : list ti_msgmgr_message) :
  Forall (fun m => ~ valid_reply d xfer expected m) l \/
  exists pre m rest,
    l = pre ++ m :: rest /\
    Forall (fun p => ~ valid_reply d xfer expected p) pre /\
    valid_reply d xfer expected m.
Proof.
  induction l as [|a l IH]; [left; constructor|].
  destruct (valid_reply_dec d xfer expected a) as [Ha|Ha].
  - right. exists [], a, l. split_and!; auto.
  - destruct IH as [Hall|(pre & m & rest & -> & Hpre & Hm)].
    + left. constructor; assumption.
    + right. exists (a :: pre), m, rest. split_and!; auto.
Qed.

(** A message that the callback does not accept for the transfer
    leaves it as it is. *)
Lemma rx_callback_not_valid (info : ti_sci_info) (xfer : Z) (x : ti_sci_xfer)
    (p : ti_msgmgr_message) :
  pool_ok (desc info) (minfo info) ->
  0 <= max_msg_size (desc info) < 2 ^ 31 ->
  get_xfer (minfo info) xfer = Some x ->
  test_bit xfer (xfer_alloc_table (minfo info)) = Some true ->
  seq_in_table (desc info) p ->
  ~ valid_reply (desc info) xfer (rx_len x) p ->
  exists log info1,
    ti_sci_rx_callback info p = Some (log, info1) /\
    slots_only info info1 /\
    get_xfer (minfo info1) xfer = Some x.
Proof.
  intros Hp Hsz Hx Hbit Hin Hnv.
  destruct (test_bit_Some _ _ _ Hbit) as [Hrange _].
  destruct (Z.eq_dec (hdr_seq (buf p)) xfer) as [Heq|Hne].
  - rewrite <- Heq in Hbit, Hx.
    destruct (rx_callback_expected_eq info p x Hbit Hx Hsz) as (log & Hcb).
    assert (Hrej : (len p <=? max_msg_size (desc info)) && (rx_len x <=? len p)
                   = false).
    { apply andb_false_iff. unfold valid_reply in Hnv.
      destruct (Z.leb_spec (len p) (max_msg_size (desc info))); [|now left].
      destruct (Z.leb_spec (rx_len x) (len p)); [|now right].
      exfalso. apply Hnv. split; [exact Heq|lia]. }
    rewrite Hrej in Hcb. exists log, info. split; [exact Hcb|].
    split; [apply slots_only_refl|]. rewrite <- Heq. exact Hx.
  - destruct (rx_callback_slots_only info p Hp Hin) as (log & info1 & Hcb & Hs).
    exists log, info1. split; [exact Hcb|]. split; [exact Hs|].
    rewrite (rx_callback_other_xfer info info1 p log xfer Hcb); [exact Hx|lia|].
    intros E. apply Hne. now symmetry.
Qed.

(** The wait ends signalled at the first message that the callback
    accepts for the transfer; the messages before it leave the transfer
    as it is. *)
Lemma wait_for_completion_reply (pre : list ti_msgmgr_message) :
  forall (info : ti_sci_info) (xfer : Z) (x : ti_sci_xfer) (m : ti_msgmgr_message)
         (rest : list ti_msgmgr_message),
    pool_ok (desc info) (minfo info) ->
    0 <= max_msg_size (desc info) < 2 ^ 31 ->
    get_xfer (minfo info) xfer = Some x -> done x = O ->
    test_bit xfer (xfer_alloc_table (minfo info)) = Some true ->
    Forall (seq_in_table (desc info)) pre ->
    Forall (fun p => ~ valid_reply (desc info) xfer (rx_len x) p) pre ->
    valid_reply (desc info) xfer (rx_len x) m ->
    exists log info',
      wait_for_completion_timeout info xfer (pre ++ m :: rest)
      = Some (1, log, info') /\
      slots_only info info' /\
      get_xfer (minfo info') xfer = Some (set_done 0 (delivered x m)).
Proof.
  induction pre as [|p pre IH]; intros info xfer x m rest Hp Hsz Hx Hdone Hbit Hin
    Hpre [Hseq Hlen].
  - simpl. rewrite Hx. simpl. rewrite Hdone.
    destruct (test_bit_Some _ _ _ Hbit) as [Hrange _].
    rewrite <- Hseq in Hbit, Hx.
    destruct (rx_callback_expected_eq info m x Hbit Hx Hsz) as (log & Hcb).
    destruct (Z.leb_spec (len m) (max_msg_size (desc info))); [|lia].
    destruct (Z.leb_spec (rx_len x) (len m)); [|lia]. simpl in Hcb.
    rewrite Hcb. simpl. rewrite Hseq in *.
    set (info1 := set_minfo (set_xfer xfer (delivered x m) (minfo info)) info) in *.
    assert (Hx1 : get_xfer (minfo info1) xfer = Some (delivered x m))
      by (unfold info1; simpl_state; eapply get_set_xfer_eq; exact Hx).
    rewrite (wait_for_completion_signalled info1 xfer (delivered x m) 0 rest Hx1)
      by (simpl; unfold complete; now rewrite Hdone).
    simpl. do 2 eexists. split; [reflexivity|]. split.
    + apply slots_only_trans with info1.
      * apply (rx_callback_slots_only' info info1 m log Hp Hcb).
      * apply slots_only_set_done; [lia|exact Hx1].
    + simpl_state. eapply get_set_xfer_eq. exact Hx1.
  - apply Forall_cons in Hpre as [Hnv Hpre]. apply Forall_cons in Hin as [Hip Hin].
    destruct (rx_callback_not_valid info xfer x p Hp Hsz Hx Hbit Hip Hnv)
      as (log & info1 & Hcb & Hs & Hx1).
    simpl. rewrite Hx. simpl. rewrite Hdone, Hcb. simpl.
    pose proof Hs as (Hd1 & _ & Ht1 & _ & Hp1 & _).
    destruct (IH info1 xfer x m rest) as (log' & info' & Hw & Hs' & Hx');
      rewrite ?Hd1, ?Ht1; auto.
    { split; assumption. }
    rewrite Hw. simpl. do 2 eexists. split; [reflexivity|]. split; [|exact Hx'].
    apply slots_only_trans with info1; assumption.
Qed.

(** The wait ends unsignalled when no message delivered is accepted for
    the transfer, which is left as it is. *)
Lemma wait_for_completion_no_valid (deliveries : list ti_msgmgr_message) :
  forall (info : ti_sci_info) (xfer : Z) (x : ti_sci_xfer),
    pool_ok (desc info) (minfo info) ->
    0 <= max_msg_size (desc info) < 2 ^ 31 ->
    get_xfer (minfo info) xfer = Some x -> done x = O ->
    test_bit xfer (xfer_alloc_table (minfo info)) = Some true ->
    Forall (seq_in_table (desc info)) deliveries ->
    Forall (fun p => ~ valid_reply (desc info) xfer (rx_len x) p) deliveries ->
    exists log info',
      wait_for_completion_timeout info xfer deliveries = Some (0, log, info') /\
      slots_only info info' /\
      get_xfer (minfo info') xfer = Some x.
Proof.
  induction deliveries as [|p l IH]; intros info xfer x Hp Hsz Hx Hdone Hbit Hin Hnone.
  - simpl. rewrite Hx. simpl. rewrite Hdone. do 2 eexists.
    split; [reflexivity|]. split; [apply slots_only_refl|exact Hx].
  - apply Forall_cons in Hnone as [Hnv Hnone]. apply Forall_cons in Hin as [Hip Hin].
    destruct (rx_callback_not_valid info xfer x p Hp Hsz Hx Hbit Hip Hnv)
      as (log & info1 & Hcb & Hs & Hx1).
    simpl. rewrite Hx. simpl. rewrite Hdone, Hcb. simpl.
    pose proof Hs as (Hd1 & _ & Ht1 & _ & Hp1 & _).
    destruct (IH info1 xfer x) as (log' & info' & Hw & Hs' & Hx');
      rewrite ?Hd1, ?Ht1; auto.
    rewrite Hw. simpl. do 2 eexists. split; [reflexivity|]. split; [|exact Hx'].
    apply slots_only_trans with info1; assumption.
Qed.

Lemma do_xfer_reply (info : ti_sci_info) (xfer : Z) (x : ti_sci_xfer)
    (env : mbox_env) (pre rest : list ti_msgmgr_message) (m : ti_msgmgr_message) :
  pool_ok (desc info) (minfo info) ->
  0 <= max_msg_size (desc info) < 2 ^ 31 ->
  get_xfer (minfo info) xfer = Some x -> done x = O ->
  test_bit xfer (xfer_alloc_table (minfo info)) = Some true ->
  0 <= send_ret env ->
  arrivals env = pre ++ m :: rest ->
  Forall (seq_in_table (desc info)) pre ->
  Forall (fun p => ~ valid_reply (desc info) xfer (rx_len x) p) pre ->
  valid_reply (desc info) xfer (rx_len x) m ->
  exists log info',
    ti_sci_do_xfer info xfer env
    = Some (0, [mbox_send_message (tx_message x); mbox_client_txdone] ++ log, info') /\
    slots_only info info' /\
    get_xfer (minfo info') xfer = Some (set_done 0 (delivered x m)).
Proof.
  intros Hp Hsz Hx Hdone Hbit Hsend Harr Hin Hpre Hm.
  destruct (wait_for_completion_reply pre info xfer x m rest Hp Hsz Hx Hdone Hbit
              Hin Hpre Hm) as (log & info' & Hw & Hs & Hx').
  unfold ti_sci_do_xfer. rewrite Hx. simpl.
  destruct (Z.ltb_spec (send_ret env) 0); [lia|].
  rewrite Harr, Hw. simpl. do 2 eexists. split; [reflexivity|]. split; assumption.
Qed.

(** X3: a valid reply completes the transfer. The transfer is
    allocated (its bit is set) and not yet signalled, the send is
    accepted, and [m] is the first message delivered during the wait
    that names the transfer with a length between the expected length
    and [max_msg_size]; the messages before it name bits of the table.
    Then [ti_sci_do_xfer] returns 0 after submitting the transfer's own
    message; the first [rx_len] bytes of the buffer are those of [m]
    and the rest of the buffer is untouched; the signal is consumed,
    the lengths are kept, and the table and the semaphore are
    unchanged. *)
Theorem do_xfer_reply_round_trip (info : ti_sci_info) (xfer : Z) (x : ti_sci_xfer)
    (env : mbox_env) (pre rest : list ti_msgmgr_message) (m : ti_msgmgr_message) :
  pool_ok (desc info) (minfo info) ->
  0 <= max_msg_size (desc info) < 2 ^ 31 ->
  get_xfer (minfo info) xfer = Some x -> done x = O ->
  test_bit xfer (xfer_alloc_table (minfo info)) = Some true ->
  0 <= send_ret env ->
  arrivals env = pre ++ m :: rest ->
  Forall (seq_in_table (desc info)) pre ->
  Forall (fun p => ~ valid_reply (desc info) xfer (rx_len x) p) pre ->
  valid_reply (desc info) xfer (rx_len x) m ->
  exists log info' x',
    ti_sci_do_xfer info xfer env
    = Some (0, [mbox_send_message (tx_message x); mbox_client_txdone] ++ log, info') /\
    get_xfer (minfo info') xfer = Some x' /\
    (forall i, read_u8 (xfer_buf x') i
               = if (i <? Z.to_nat (rx_len x))%nat then read_u8 (buf m) i
                 else read_u8 (xfer_buf x) i) /\
    done x' = O /\ rx_len x' = rx_len x /\ tx_message_len x' = tx_message_len x /\
    xfer_alloc_table (minfo info') = xfer_alloc_table (minfo info) /\
    sem_xfer_count (minfo info') = sem_xfer_count (minfo info).
Proof.
  intros Hp Hsz Hx Hdone Hbit Hsend Harr Hin Hpre Hm.
  destruct (do_xfer_reply info xfer x env pre rest m Hp Hsz Hx Hdone Hbit Hsend Harr
              Hin Hpre Hm) as (log & info' & Hdo & Hs & Hx').
  destruct Hs as (_ & _ & Ht & Hsem & _).
  exists log, info', (set_done 0 (delivered x m)).
  split_and!; auto. intros i. simpl. apply read_memcpy.
Qed.

Lemma do_xfer_reply_round_trip_witness :
  exists log info',
    ti_sci_do_xfer k2g_one_allocated 0
      {| send_ret := 0; arrivals := [sample_version_reply] |}
    = Some (0, log, info') /\
    (x' ← get_xfer (minfo info') 0; Some (read_u8 (xfer_buf x') 42)) = Some 3.
Proof.
  destruct k2g_one_allocated_pool as (Hd & Hp & Hg).
  destruct (do_xfer_reply_round_trip k2g_one_allocated 0
              (prepared ti_sci_pmmc_k2g_desc 0 2 0 8 44
                 (prealloc_xfer ti_sci_pmmc_k2g_desc))
              {| send_ret := 0; arrivals := [sample_version_reply] |}
              [] [] sample_version_reply Hp)
    as (log & info' & x' & Hdo & Hx' & Hbuf & _); auto.
  - vm_compute. split; first [discriminate | reflexivity].
  - simpl. lia.
  - split; [reflexivity|]. vm_compute. split; discriminate.
  - do 2 eexists. split; [exact Hdo|]. rewrite Hx'. simpl.
    rewrite Hbuf. reflexivity.
Defined.

(** X21: when [ti_sci_do_xfer] succeeds. For an allocated transfer
    that is not yet signalled, with an accepted send and the messages
    delivered naming bits of the table, the call returns 0 or
    [-ETIMEDOUT]. It returns 0 exactly when some message delivered
    during the wait names the transfer with a length between the
    expected length and [max_msg_size]: a message too short or too
    long does not complete the transfer, even with the right sequence
    identifier. After a timeout the transfer is as it was. *)
Theorem do_xfer_success_iff (info : ti_sci_info) (xfer : Z) (x : ti_sci_xfer)
    (env : mbox_env) :
  pool_ok (desc info) (minfo info) ->
  0 <= max_msg_size (desc info) < 2 ^ 31 ->
  get_xfer (minfo info) xfer = Some x -> done x = O ->
  test_bit xfer (xfer_alloc_table (minfo info)) = Some true ->
  0 <= send_ret env ->
  Forall (seq_in_table (desc info)) (arrivals env) ->
  exists ret log info',
    ti_sci_do_xfer info xfer env = Some (ret, log, info') /\
    (ret = 0 \/ ret = - ETIMEDOUT) /\
    (ret = 0 <-> Exists (valid_reply (desc info) xfer (rx_len x)) (arrivals env)) /\
    (ret = - ETIMEDOUT -> get_xfer (minfo info') xfer = Some x).
Proof.
  intros Hp Hsz Hx Hdone Hbit Hsend Hin.
  destruct (first_valid_reply (desc info) xfer (rx_len x) (arrivals env))
    as [Hnone|(pre & m & rest & Harr & Hpre & Hm)].
  - destruct (wait_for_completion_no_valid (arrivals env) info xfer x Hp Hsz Hx Hdone
                Hbit Hin Hnone) as (log & info' & Hw & _ & Hx').
    unfold ti_sci_do_xfer. rewrite Hx. simpl.
    destruct (Z.ltb_spec (send_ret env) 0); [lia|]. rewrite Hw. simpl.
    do 3 eexists. split; [reflexivity|]. split; [now right|]. split; [|auto].
    split; [unfold ETIMEDOUT; lia|].
    intros Hex. exfalso. revert Hex. now apply Forall_Exists_neg.
  - assert (Hin' : Forall (seq_in_table (desc info)) pre).
    { rewrite Harr in Hin. now apply Forall_app in Hin as [Hin _]. }
    destruct (do_xfer_reply info xfer x env pre rest m Hp Hsz Hx Hdone Hbit Hsend Harr
                Hin' Hpre Hm) as (log & info' & Hdo & _).
    do 3 eexists. split; [exact Hdo|]. split; [now left|]. split.
    + split; [intros _|reflexivity]. rewrite Harr. apply Exists_app. right.
      now apply Exists_cons_hd.
    + unfold ETIMEDOUT. lia.
Qed.

Lemma do_xfer_success_iff_witness :
  exists log info',
    ti_sci_do_xfer k2g_one_allocated 0
      {| send_ret := 0; arrivals := [{| len := 43; buf := buf sample_version_reply |}] |}
    = Some (- ETIMEDOUT, log, info').
Proof.
  destruct k2g_one_allocated_pool as (Hd & Hp & Hg).
  destruct (do_xfer_success_iff k2g_one_allocated 0
              (prepared ti_sci_pmmc_k2g_desc 0 2 0 8 44
                 (prealloc_xfer ti_sci_pmmc_k2g_desc))
              {| send_ret := 0;
                 arrivals := [{| len := 43; buf := buf sample_version_reply |}] |} Hp)
    as (ret & log & info' & Hdo & Hret & _); auto.
  - vm_compute. split; first [discriminate | reflexivity].
  - simpl. lia.
  - repeat constructor; vm_compute; discriminate.
  - exists log, info'. rewrite Hdo. destruct Hret as [->| ->]; [|reflexivity].
    vm_compute in Hdo. discriminate Hdo.
Defined.

Lemma read_stamp_payload (d : ti_sci_desc) (id ty fl : Z) (b : list Z) (i : nat) :
  (8 <= i)%nat -> read_u8 (stamp d id ty fl b) i = read_u8 b i.
Proof.
  intros Hi. unfold stamp, set_hdr_flags, set_hdr_host, set_hdr_type, set_hdr_seq.
  repeat rewrite read_write_u8_ne by lia. reflexivity.
Qed.

(** X22: an allocation writes the header and nothing else of the
    buffer. After a successful [ti_sci_get_one_xfer] the buffer of the
    transfer has its length of before, and every byte from offset 8 on
    is the byte that was there: the payload of the exchange that used
    the transfer before is still in the buffer, and it is for the caller
    to write the payload of the request. *)
Theorem get_one_xfer_keeps_payload (info info' : ti_sci_info) (ty fl tx rx id : Z) :
  desc_ok (desc info) -> pool_ok (desc info) (minfo info) ->
  credits_ok (desc info) (minfo info) ->
  ti_sci_get_one_xfer info ty fl tx rx = Some (XFER id, info') ->
  exists x x',
    get_xfer (minfo info) id = Some x /\
    get_xfer (minfo info') id = Some x' /\
    length (xfer_buf x') = length (xfer_buf x) /\
    forall i, (8 <= i)%nat -> read_u8 (xfer_buf x') i = read_u8 (xfer_buf x) i.
Proof.
  intros Hd Hp Hg Hget.
  destruct (get_one_xfer_inv _ _ _ _ _ _ _ Hd Hp Hg Hget)
    as (x & table & _ & _ & _ & _ & _ & _ & Hx & _ & Hinfo1 & _).
  exists x, (prepared (desc info) id ty fl tx rx x). split; [exact Hx|]. split.
  - rewrite Hinfo1. simpl_state. eapply get_set_xfer_eq. exact Hx.
  - simpl. split; [apply length_stamp|]. intros i Hi. now apply read_stamp_payload.
Qed.

Lemma get_one_xfer_keeps_payload_witness :
  exists x',
    get_xfer (minfo k2g_one_allocated) 0 = Some x' /\
    length (xfer_buf x') = 64%nat.
Proof.
  destruct k2g_probed_ok as (Hd & Hp & Hg).
  destruct (get_one_xfer_keeps_payload k2g_probed k2g_one_allocated 2 0 8 44 0
              Hd Hp Hg k2g_one_allocated_eq)
    as (x & x' & Hx & Hx' & Hlen & _).
  exists x'. split; [exact Hx'|]. rewrite Hlen.
  vm_compute in Hx. injection Hx as <-. reflexivity.
Defined.

(** X24: where the receive callback stays within the table. On a
    well-formed instance, [ti_sci_rx_callback] reads a word of the
    allocation table exactly when the sequence identifier of the
    message is below the number of bits in the table's words,
    [BITS_PER_LONG * BITS_TO_LONGS(max_msgs)]; a larger identifier, which
    the [u8] field can hold whenever that number is below 256, makes
    [test_bit] read past the table. Within the words, an identifier at
    or above [max_msgs] is reported as not expected and the block is
    not indexed with it. *)
Theorem rx_callback_defined_iff (info : ti_sci_info) (m : ti_msgmgr_message) :
  desc_ok (desc info) -> pool_ok (desc info) (minfo info) ->
  (is_Some (ti_sci_rx_callback info m) <-> seq_in_table (desc info) m) /\
  (seq_in_table (desc info) m -> max_msgs (desc info) <= hdr_seq (buf m) ->
   ti_sci_rx_callback info m = Some ([err_not_expected (hdr_seq (buf m))], info)).
Proof.
  intros Hd Hp. split; [split|].
  - intros [[log info'] Hcb]. unfold ti_sci_rx_callback in Hcb.
    destruct (test_bit (hdr_seq (buf m)) (xfer_alloc_table (minfo info)))
      as [b|] eqn:Hbit; [|discriminate].
    destruct (test_bit_Some _ _ _ Hbit) as [Hrange _].
    destruct Hp as (_ & _ & Hlen & _). rewrite Hlen in Hrange.
    unfold seq_in_table. destruct Hd as [Hm _].
    assert (0 <= BITS_TO_LONGS (max_msgs (desc info))).
    { unfold BITS_TO_LONGS, BITS_PER_LONG. apply Z.div_pos; lia. }
    lia.
  - intros Hin. destruct (rx_callback_slots_only info m Hp Hin) as (log & info' & -> & _).
    eexists. reflexivity.
  - intros Hin Hbeyond. unfold ti_sci_rx_callback.
    rewrite (pool_ok_test_bit _ _ _ Hp Hin).
    destruct Hp as (_ & _ & _ & Htop). rewrite (Htop _ Hbeyond). reflexivity.
Qed.

Lemma rx_callback_defined_iff_witness :
  ti_sci_rx_callback k2g_probed {| len := 8; buf := [2; 0; 2; 200; 0; 0; 0; 0] |}
  = None.
Proof.
  destruct k2g_probed_ok as (Hd & Hp & _).
  destruct (rx_callback_defined_iff k2g_probed
              {| len := 8; buf := [2; 0; 2; 200; 0; 0; 0; 0] |} Hd Hp) as [[Hdef _] _].
  destruct (ti_sci_rx_callback k2g_probed _) as [r|]; [|reflexivity].
  exfalso. assert (Hin : seq_in_table (desc k2g_probed)
                           {| len := 8; buf := [2; 0; 2; 200; 0; 0; 0; 0] |})
    by (apply Hdef; eexists; reflexivity).
  unfold seq_in_table in Hin. vm_compute in Hin. destruct Hin as [_ Hlt].
  discriminate Hlt.
Defined.

(** ** The version command *)

Section CommandOutcomes.

Variable TI_SCI_MSG_VERSION : Z.
Variable SIZEOF_RESP_VERSION : Z.
Variable rev_info : list Z -> ti_sci_version_info.
Variable SIZEOF_FIRMWARE_DESCRIPTION : nat.

Local Abbreviation get_revision :=
  (ti_sci_cmd_get_revision TI_SCI_MSG_VERSION SIZEOF_RESP_VERSION rev_info
     SIZEOF_FIRMWARE_DESCRIPTION).

(** [ti_sci_cmd_get_revision] from the end of its transfer: whatever
    the transfer returned, the release gives back the table and the
    semaphore count of before the command; the version is stored from
    the buffer when the transfer returned 0 and is left alone
    otherwise. *)
Lemma get_revision_after_xfer (info info1 info2 : ti_sci_info) (xfer ret : Z)
    (env : mbox_env) (log : list event) :
  desc_ok (desc info) -> pool_ok (desc info) (minfo info) ->
  credits_ok (desc info) (minfo info) ->
  ti_sci_get_one_xfer info TI_SCI_MSG_VERSION 0 SIZEOF_HDR SIZEOF_RESP_VERSION
  = Some (XFER xfer, info1) ->
  ti_sci_do_xfer info1 xfer env = Some (ret, log, info2) ->
  slots_only info1 info2 ->
  exists x2 log' info3,
    get_xfer (minfo info2) xfer = Some x2 /\
    get_revision info env = Some (ret, log', info3) /\
    desc info3 = desc info /\
    xfer_alloc_table (minfo info3) = xfer_alloc_table (minfo info) /\
    sem_xfer_count (minfo info3) = sem_xfer_count (minfo info) /\
    xfer_block (minfo info3) = xfer_block (minfo info2) /\
    pool_ok (desc info) (minfo info3) /\
    (ret <> 0 -> version info3 = version info /\ log' = log ++ [err_send_fail ret]) /\
    (ret = 0 ->
     log' = log /\
     abi_major (version info3) = abi_major (rev_info (xfer_buf x2)) /\
     abi_minor (version info3) = abi_minor (rev_info (xfer_buf x2)) /\
     firmware_revision (version info3) = firmware_revision (rev_info (xfer_buf x2)) /\
     firmware_description (version info3)
     = strncpy (firmware_description (rev_info (xfer_buf x2)))
         SIZEOF_FIRMWARE_DESCRIPTION).
Proof.
  intros Hd Hp Hg Hget Hdo Hs.
  destruct (get_one_xfer_inv _ _ _ _ _ _ _ Hd Hp Hg Hget)
    as (x & table & _ & Hid & Hclr & _ & _ & Hpos & Hx & Hset & Hinfo1 & Hp1 & Hseq).
  set (px := prepared (desc info) xfer TI_SCI_MSG_VERSION 0 SIZEOF_HDR
               SIZEOF_RESP_VERSION x) in *.
  assert (Hx1 : get_xfer (minfo info1) xfer = Some px).
  { rewrite Hinfo1. simpl_state. eapply get_set_xfer_eq. exact Hx. }
  assert (Hd1 : desc info1 = desc info) by (rewrite Hinfo1; reflexivity).
  assert (Hv1 : version info1 = version info) by (rewrite Hinfo1; reflexivity).
  assert (Hs1 : sem_xfer_count (minfo info1) = sem_xfer_count (minfo info) - 1)
    by (rewrite Hinfo1; reflexivity).
  destruct Hs as (Hd2 & Hv2 & Ht2 & Hs2 & Hp2 & Hx2).
  destruct (Hx2 xfer px ltac:(lia) Hx1) as (x2 & Hx2' & _ & Hseq2).
  assert (Hback : clear_bit xfer (xfer_alloc_table (minfo info2))
                  = Some (xfer_alloc_table (minfo info))).
  { rewrite Ht2, Hinfo1. simpl_state. exact (clear_set_bit _ _ _ Hset Hclr). }
  pose proof (put_one_xfer_spec (minfo info2) xfer x2 _ Hx2' (Hseq2 Hseq) Hback)
    as Hput.
  rewrite Hs2, Hs1 in Hput.
  replace (sem_xfer_count (minfo info) - 1 + 1)
    with (sem_xfer_count (minfo info)) in Hput by lia.
  assert (Hp3 : pool_ok (desc info)
                  (set_sem (sem_xfer_count (minfo info))
                     (set_table (xfer_alloc_table (minfo info)) (minfo info2)))).
  { apply (pool_ok_clear_bit _ _ xfer _ _ Hback). rewrite <- Hd1. apply Hp2.
    rewrite Hd1. exact Hp1. }
  exists x2. unfold ti_sci_cmd_get_revision. rewrite Hget. simpl. rewrite Hdo. simpl.
  destruct (Z.eqb_spec ret 0) as [->|Hne]; simpl.
  - rewrite Hx2'. simpl. rewrite Hput. simpl.
    do 2 eexists. split; [reflexivity|]. split; [reflexivity|]. simpl_state.
    split_and!; auto; congruence.
  - rewrite Hput. simpl.
    do 2 eexists. split; [exact Hx2'|]. split; [reflexivity|]. simpl_state.
    split_and!; auto; try congruence. intros _. split; [congruence|reflexivity].
Qed.

(** Every outcome of [ti_sci_cmd_get_revision] on a well-formed
    instance. *)
Lemma get_revision_outcome (info : ti_sci_info) (env : mbox_env) :
  desc_ok (desc info) -> pool_ok (desc info) (minfo info) ->
  credits_ok (desc info) (minfo info) ->
  Forall (seq_in_table (desc info)) (arrivals env) ->
  exists ret log info',
    get_revision info env = Some (ret, log, info') /\
    desc info' = desc info /\
    xfer_alloc_table (minfo info') = xfer_alloc_table (minfo info) /\
    sem_xfer_count (minfo info') = sem_xfer_count (minfo info) /\
    pool_ok (desc info') (minfo info') /\
    credits_ok (desc info') (minfo info') /\
    (ret <> 0 -> version info' = version info) /\
    (ret = 0 \/ ret = - ERANGE \/ ret = - ETIME \/ ret = - ETIMEDOUT \/
     (ret = send_ret env /\ send_ret env < 0)).
Proof.
  intros Hd Hp Hg Hin.
  destruct (get_one_xfer_total info TI_SCI_MSG_VERSION 0 SIZEOF_HDR
              SIZEOF_RESP_VERSION Hd Hp Hg) as (p & info1 & Hget).
  destruct p as [err|xfer].
  - destruct (get_one_xfer_err _ _ _ _ _ _ _ Hget) as [-> Herr].
    exists err, [err_alloc_failed err], info.
    split; [unfold ti_sci_cmd_get_revision; rewrite Hget; reflexivity|].
    split_and!; auto. destruct Herr as [[-> _]|[-> _]]; auto.
  - destruct (get_one_xfer_inv _ _ _ _ _ _ _ Hd Hp Hg Hget)
      as (x & table & _ & Hid & _ & _ & _ & _ & Hx & _ & Hinfo1 & Hp1 & _).
    assert (Hd1 : desc info1 = desc info) by (rewrite Hinfo1; reflexivity).
    assert (Hx1 : exists x1, get_xfer (minfo info1) xfer = Some x1).
    { eexists. rewrite Hinfo1. simpl_state. eapply get_set_xfer_eq. exact Hx. }
    destruct Hx1 as (x1 & Hx1).
    rewrite <- Hd1 in Hp1, Hin.
    destruct (do_xfer_spec info1 xfer x1 env Hp1 Hin ltac:(lia) Hx1)
      as (ret & log & info2 & Hdo & Hs & Hsend & Hwait & _).
    destruct (get_revision_after_xfer info info1 info2 xfer ret env log
                Hd Hp Hg Hget Hdo Hs)
      as (x2 & log' & info3 & _ & Hrev & Hd3 & Ht3 & Hs3 & _ & Hp3 & Hfail & _).
    exists ret, log', info3. split; [exact Hrev|].
    split_and!; auto.
    + rewrite Hd3. exact Hp3.
    + rewrite Hd3. unfold credits_ok. rewrite Ht3, Hs3. exact Hg.
    + intros Hne. now apply Hfail.
    + destruct (Z.lt_ge_cases (send_ret env) 0) as [Hneg|Hnn].
      * right. right. right. right. split; [now apply Hsend|exact Hneg].
      * destruct (Hwait ltac:(lia)) as [->| ->]; auto.
Qed.

(** X4: [ti_sci_cmd_get_revision] never leaks a transfer. On a
    well-formed instance, with the messages delivered naming bits within
    the table, the command returns, and for every outcome the
    allocation table and the semaphore count are those of before the
    command and the instance is well formed again. The value returned
    is 0, [-ERANGE] or [-ETIME] from the allocation, [-ETIMEDOUT], or
    the negative value of the failed send; the stored version changes
    only when 0 is returned. *)
Theorem get_revision_never_leaks (info : ti_sci_info) (env : mbox_env) :
  desc_ok (desc info) -> pool_ok (desc info) (minfo info) ->
  credits_ok (desc info) (minfo info) ->
  Forall (seq_in_table (desc info)) (arrivals env) ->
  exists ret log info',
    get_revision info env = Some (ret, log, info') /\
    desc info' = desc info /\
    xfer_alloc_table (minfo info') = xfer_alloc_table (minfo info) /\
    sem_xfer_count (minfo info') = sem_xfer_count (minfo info) /\
    pool_ok (desc info') (minfo info') /\
    credits_ok (desc info') (minfo info') /\
    (ret <> 0 -> version info' = version info) /\
    (ret = 0 \/ ret = - ERANGE \/ ret = - ETIME \/ ret = - ETIMEDOUT \/
     (ret = send_ret env /\ send_ret env < 0)).
Proof.
  intros Hd Hp Hg Hin. exact (get_revision_outcome info env Hd Hp Hg Hin).
Qed.

(** X5: the version stored is the one in the reply. When the
    allocation of the command returns transfer [xfer], the send is
    accepted and the first message that names [xfer] has a length
    between the size of the version response (cut to eight bits) and
    [max_msg_size],
    the command returns 0. The version fields are read from the
    transfer's buffer, whose leading bytes, as many as expected, are
    those of the reply; the description goes through [strncpy]. The
    transfer is released: table and semaphore are as before. *)
Theorem get_revision_stores_reply (info info1 : ti_sci_info) (xfer : Z)
    (env : mbox_env) (pre rest : list ti_msgmgr_message) (m : ti_msgmgr_message) :
  desc_ok (desc info) -> pool_ok (desc info) (minfo info) ->
  credits_ok (desc info) (minfo info) ->
  ti_sci_get_one_xfer info TI_SCI_MSG_VERSION 0 SIZEOF_HDR SIZEOF_RESP_VERSION
  = Some (XFER xfer, info1) ->
  0 <= send_ret env ->
  arrivals env = pre ++ m :: rest ->
  Forall (seq_in_table (desc info)) pre ->
  Forall (fun p => ~ valid_reply (desc info) xfer (SIZEOF_RESP_VERSION mod 2 ^ 8) p)
    pre ->
  valid_reply (desc info) xfer (SIZEOF_RESP_VERSION mod 2 ^ 8) m ->
  exists log info' b,
    get_revision info env = Some (0, log, info') /\
    (forall i, (i < Z.to_nat (SIZEOF_RESP_VERSION mod 2 ^ 8))%nat ->
               read_u8 b i = read_u8 (buf m) i) /\
    abi_major (version info') = abi_major (rev_info b) /\
    abi_minor (version info') = abi_minor (rev_info b) /\
    firmware_revision (version info') = firmware_revision (rev_info b) /\
    firmware_description (version info')
    = strncpy (firmware_description (rev_info b)) SIZEOF_FIRMWARE_DESCRIPTION /\
    xfer_alloc_table (minfo info') = xfer_alloc_table (minfo info) /\
    sem_xfer_count (minfo info') = sem_xfer_count (minfo info).
Proof.
  intros Hd Hp Hg Hget Hsend Harr Hin Hpre Hm.
  destruct (get_one_xfer_inv _ _ _ _ _ _ _ Hd Hp Hg Hget)
    as (x & table & _ & Hid & _ & _ & _ & _ & Hx & Hset & Hinfo1 & Hp1 & _).
  set (px := prepared (desc info) xfer TI_SCI_MSG_VERSION 0 SIZEOF_HDR
               SIZEOF_RESP_VERSION x) in *.
  assert (Hx1 : get_xfer (minfo info1) xfer = Some px).
  { rewrite Hinfo1. simpl_state. eapply get_set_xfer_eq. exact Hx. }
  assert (Hd1 : desc info1 = desc info) by (rewrite Hinfo1; reflexivity).
  assert (Hbit : test_bit xfer (xfer_alloc_table (minfo info1)) = Some true).
  { rewrite Hinfo1. simpl_state. rewrite test_bit_in_range.
    - rewrite (bit_set_bit _ _ _ _ Hset). now rewrite Z.eqb_refl.
    - rewrite (length_set_bit _ _ _ Hset). now apply (pool_ok_bit_in_table _ _ xfer Hp). }
  rewrite <- Hd1 in Hp1, Hin, Hpre, Hm.
  destruct (do_xfer_reply info1 xfer px env pre rest m Hp1)
    as (log & info2 & Hdo & Hs & Hx2); auto.
  { rewrite Hd1. apply Hd. }
  destruct (get_revision_after_xfer info info1 info2 xfer 0 env _ Hd Hp Hg Hget Hdo Hs)
    as (x2 & log' & info3 & Hx2' & Hrev & _ & Ht3 & Hs3 & _ & _ & _ & Hok).
  rewrite Hx2 in Hx2'. injection Hx2' as <-.
  destruct (Hok eq_refl) as (_ & Hma & Hmi & Hfr & Hfd).
  exists log', info3, (xfer_buf (set_done 0 (delivered px m))).
  split; [exact Hrev|]. split_and!; auto.
  intros i Hi. simpl. rewrite read_memcpy.
  change (rx_len px) with (u8 SIZEOF_RESP_VERSION). unfold u8.
  change 256 with (2 ^ 8).
  destruct (Nat.ltb_spec i (Z.to_nat (SIZEOF_RESP_VERSION mod 2 ^ 8))); [reflexivity|lia].
Qed.

(** X6: a reply that comes after the command has returned is turned
    away. When the allocation of [ti_sci_cmd_get_revision] returns
    transfer [xfer], then after the command, whatever its outcome, the
    receive callback reports any message that names [xfer] as not
    expected and changes nothing. *)
Theorem get_revision_late_reply (info info1 : ti_sci_info) (xfer : Z)
    (env : mbox_env) :
  desc_ok (desc info) -> pool_ok (desc info) (minfo info) ->
  credits_ok (desc info) (minfo info) ->
  Forall (seq_in_table (desc info)) (arrivals env) ->
  ti_sci_get_one_xfer info TI_SCI_MSG_VERSION 0 SIZEOF_HDR SIZEOF_RESP_VERSION
  = Some (XFER xfer, info1) ->
  exists ret log info3,
    get_revision info env = Some (ret, log, info3) /\
    forall m, hdr_seq (buf m) = xfer ->
      ti_sci_rx_callback info3 m = Some ([err_not_expected xfer], info3).
Proof.
  intros Hd Hp Hg Hin Hget.
  destruct (get_revision_outcome info env Hd Hp Hg Hin)
    as (ret & log & info3 & Hrev & _ & Ht3 & _).
  destruct (get_one_xfer_inv _ _ _ _ _ _ _ Hd Hp Hg Hget)
    as (x & table & _ & Hid & Hclr & _).
  exists ret, log, info3. split; [exact Hrev|].
  intros m Hm. unfold ti_sci_rx_callback. rewrite Hm, Ht3.
  rewrite test_bit_in_range by now apply (pool_ok_bit_in_table _ _ xfer Hp).
  rewrite Hclr. reflexivity.
Qed.

End CommandOutcomes.

Lemma get_revision_never_leaks_witness :
  exists log info',
    ti_sci_cmd_get_revision 2 44 sample_rev_info 32 k2g_probed
      {| send_ret := -5; arrivals := [] |} = Some (-5, log, info') /\
    sem_xfer_count (minfo info') = 128.
Proof.
  destruct k2g_probed_ok as (Hd & Hp & Hg).
  destruct (get_revision_never_leaks 2 44 sample_rev_info 32 k2g_probed
              {| send_ret := -5; arrivals := [] |} Hd Hp Hg (Forall_nil_2 _))
    as (ret & log & info' & Hrev & _ & _ & Hs & _).
  assert (Hret : ret = -5).
  { vm_compute in Hrev. now injection Hrev as <- _ _. }
  subst ret. exists log, info'. split; [exact Hrev|]. rewrite Hs. reflexivity.
Defined.

Lemma get_revision_stores_reply_witness :
  exists log info',
    ti_sci_cmd_get_revision 2 44 sample_rev_info 32 k2g_probed
      {| send_ret := 0; arrivals := [sample_version_reply] |}
    = Some (0, log, info') /\
    sem_xfer_count (minfo info') = 128.
Proof.
  destruct k2g_probed_ok as (Hd & Hp & Hg).
  destruct (get_revision_stores_reply 2 44 sample_rev_info 32 k2g_probed
              k2g_one_allocated 0
              {| send_ret := 0; arrivals := [sample_version_reply] |}
              [] [] sample_version_reply Hd Hp Hg k2g_one_allocated_eq)
    as (log & info' & b & Hrev & _ & _ & _ & _ & _ & _ & Hs); auto.
  - simpl. lia.
  - split; [reflexivity|]. vm_compute. split; discriminate.
  - exists log, info'. split; [exact Hrev|]. rewrite Hs. reflexivity.
Defined.

Lemma get_revision_late_reply_witness :
  exists ret log info3,
    ti_sci_cmd_get_revision 2 44 sample_rev_info 32 k2g_probed
      {| send_ret := 0; arrivals := [] |} = Some (ret, log, info3) /\
    ti_sci_rx_callback info3 sample_version_reply
    = Some ([err_not_expected 0], info3).
Proof.
  destruct k2g_probed_ok as (Hd & Hp & Hg).
  destruct (get_revision_late_reply 2 44 sample_rev_info 32 k2g_probed
              k2g_one_allocated 0 {| send_ret := 0; arrivals := [] |}
              Hd Hp Hg (Forall_nil_2 _) k2g_one_allocated_eq)
    as (ret & log & info3 & Hrev & Hlate).
  exists ret, log, info3. split; [exact Hrev|]. apply Hlate. reflexivity.
Defined.

(** ** Interleaved callers: ownership and progress *)

Lemma clear_bit_in_range (nr : Z) (addr : list Z) :
  0 <= nr < BITS_PER_LONG * Z.of_nat (length addr) ->
  exists addr', clear_bit nr addr = Some addr'.
Proof.
  intros Hr. destruct (word_of_in_range nr addr Hr) as (w & Hw).
  unfold clear_bit. rewrite Hw. simpl. eexists. reflexivity.
Qed.

Lemma sum_over_ext (f g : thread -> Z) (ths : list thread) :
  Forall (fun th => f th = g th) ths -> sum_over f ths = sum_over g ths.
Proof.
  induction 1 as [|th ths Hth _ IH]; simpl; [reflexivity|]. rewrite Hth, IH. reflexivity.
Qed.

Lemma inv_credits_ok (d : ti_sci_desc) (s : system) :
  sys_inv d s -> credits_ok d (minfo (sys_info s)).
Proof.
  intros [_ _ Hsem Hc Hb _ _ _ _]. unfold credits_ok. split; [exact Hsem|].
  pose proof (sum_bit_le_credit (sys_threads s)). lia.
Qed.

(** X7: a transfer has one owner. In every state reachable from the
    probed instance through the steps of concurrent callers and
    deliveries, two callers that are past the locked section of
    [ti_sci_get_one_xfer] and have not yet released never hold the same
    bit; the bit a caller holds is below [max_msgs] and set in the
    table; and the transfer a caller owns carries its own index in the
    header's sequence field, so that [ti_sci_put_one_xfer] clears the
    owner's bit and no other. *)
Theorem owned_transfer_exclusive (d : ti_sci_desc) (s : system) :
  desc_ok d -> reachable d s ->
  (forall t t' th th' b,
     sys_threads s !! t = Some th -> sys_threads s !! t' = Some th' ->
     bit_of th = Some b -> bit_of th' = Some b -> t = t') /\
  (forall t th b,
     sys_threads s !! t = Some th -> bit_of th = Some b ->
     0 <= b < max_msgs d /\
     test_bit b (xfer_alloc_table (minfo (sys_info s))) = Some true) /\
  (forall t xfer,
     sys_threads s !! t = Some (Owning xfer) ->
     exists x, get_xfer (minfo (sys_info s)) xfer = Some x /\
               hdr_seq (xfer_buf x) = xfer).
Proof.
  intros Hd Hr. destruct (reachable_inv d s Hd Hr)
    as [_ Hpool _ _ _ _ Howned Huniq Hseq].
  split; [exact Huniq|]. split.
  - intros t th b Ht Hb. destruct (Howned t th b Ht Hb) as [Hrange Hbit].
    split; [exact Hrange|]. now apply bit_true_range in Hbit.
  - intros t xfer Ht.
    destruct (Howned t (Owning xfer) xfer Ht eq_refl) as [Hrange _].
    destruct (pool_ok_in_range d _ xfer Hpool Hrange) as (x & Hx).
    exists x. split; [exact Hx|]. exact (Hseq t xfer x Ht Hx).
Qed.

Lemma owned_transfer_exclusive_witness :
  exists x, get_xfer (minfo k2g_one_allocated) 0 = Some x /\
            hdr_seq (xfer_buf x) = 0.
Proof.
  destruct (owned_transfer_exclusive ti_sci_pmmc_k2g_desc
              {| sys_info := k2g_one_allocated; sys_threads := [Owning 0] |})
    as (_ & _ & Hown).
  - vm_compute. repeat split; discriminate.
  - apply k2g_one_allocated_reachable.
  - apply (Hown O 0). reflexivity.
Defined.

(** X8: no step of a caller faults. In every reachable state, a caller
    that has taken a credit of the semaphore finds, in the locked
    section, a clear bit below [max_msgs] and sets it: the search never
    returns [max_msgs]. A caller that has set bit [bit_pos] finds the
    transfer of that index in the block and sets it up. A caller that
    owns a transfer clears, in the locked section of the release, its
    own bit and no other. *)
Theorem reachable_steps_defined (d : ti_sci_desc) (info : ti_sci_info)
    (ths : list thread) :
  desc_ok d -> reachable d {| sys_info := info; sys_threads := ths |} ->
  (forall t ty fl tx rx,
     ths !! t = Some (Acquired ty fl tx rx) ->
     exists bit_pos mi,
       xfer_mark (desc info) (minfo info) = Some (bit_pos, mi) /\
       0 <= bit_pos < max_msgs d /\
       bit (xfer_alloc_table (minfo info)) bit_pos = false /\
       bit (xfer_alloc_table mi) bit_pos = true) /\
  (forall t bit_pos ty fl tx rx,
     ths !! t = Some (Marked bit_pos ty fl tx rx) ->
     exists mi,
       xfer_prepare (desc info) bit_pos ty fl tx rx (minfo info)
       = Some (bit_pos, mi)) /\
  (forall t xfer,
     ths !! t = Some (Owning xfer) ->
     exists mi,
       xfer_unmark (minfo info) xfer = Some mi /\
       bit (xfer_alloc_table mi) xfer = false /\
       forall j, j <> xfer ->
         bit (xfer_alloc_table mi) j = bit (xfer_alloc_table (minfo info)) j).
Proof.
  intros Hd Hr. pose proof (reachable_inv d _ Hd Hr) as Hinv.
  destruct Hinv as [Hdesc Hpool Hsem Hc Hb Hargs Howned Huniq Hseq].
  simpl_state. rewrite Hdesc. split_and!.
  - intros t ty fl tx rx Ht.
    pose proof (sum_bit_lt_credit ths t _ Ht ltac:(simpl; lia)) as Hlt.
    destruct (xfer_mark_spec d (minfo info) ltac:(destruct Hd; lia) Hpool
                ltac:(lia))
      as (table & Hset & Hmark & Hrange & Hclr & _).
    do 2 eexists. split; [exact Hmark|]. split; [exact Hrange|].
    split; [exact Hclr|]. simpl_state. rewrite (bit_set_bit _ _ _ _ Hset). now rewrite Z.eqb_refl.
  - intros t bit_pos ty fl tx rx Ht.
    destruct (Howned t _ bit_pos Ht eq_refl) as [Hrange _].
    pose proof (proj1 (Forall_lookup _ _) Hargs t _ Ht) as Hsane. simpl in Hsane.
    destruct (xfer_prepare_spec d (minfo info) bit_pos ty fl tx rx Hd Hpool Hrange
                Hsane) as (x & _ & Hprep & _).
    eexists. exact Hprep.
  - intros t xfer Ht.
    destruct (Howned t _ xfer Ht eq_refl) as [Hrange Hbit].
    destruct (pool_ok_in_range d _ xfer Hpool Hrange) as (x & Hx).
    pose proof (Hseq t xfer x Ht Hx) as Hsq.
    destruct (clear_bit_in_range xfer (xfer_alloc_table (minfo info)))
      as (table & Hclr).
    { now apply (pool_ok_bit_in_table d). }
    exists (set_table table (minfo info)). split.
    + unfold xfer_unmark. rewrite Hx. simpl. rewrite Hsq, Hclr. reflexivity.
    + simpl_state. split.
      * rewrite (bit_clear_bit _ _ _ _ Hclr). now rewrite Z.eqb_refl.
      * intros j Hj. rewrite (bit_clear_bit _ _ _ _ Hclr).
        destruct (Z.eqb_spec xfer j); [congruence|reflexivity].
Qed.

Lemma reachable_steps_defined_witness :
  exists mi,
    xfer_prepare (desc k2g_marked) 0 2 0 8 44 (minfo k2g_marked) = Some (0, mi).
Proof.
  destruct (reachable_steps_defined ti_sci_pmmc_k2g_desc k2g_marked
              [Marked 0 2 0 8 44])
    as (_ & Hprep & _).
  - vm_compute. repeat split; discriminate.
  - apply k2g_marked_reachable.
  - apply (Hprep O). reflexivity.
Defined.

Lemma two_msgs_full_reachable :
  reachable two_msgs_desc
    {| sys_info := two_msgs_full; sys_threads := [Owning 0; Owning 1] |}.
Proof.
  apply (get_one_xfer_reachable two_msgs_desc
           (match ti_sci_get_one_xfer (sys_info (initial_system two_msgs_desc 2))
                    2 0 8 8 with
            | Some (_, i) => i
            | None => sys_info (initial_system two_msgs_desc 2)
            end)
           two_msgs_full [Owning 0; Idle] 1 2 0 8 8 1);
    [|reflexivity|reflexivity].
  apply (get_one_xfer_reachable two_msgs_desc
           (sys_info (initial_system two_msgs_desc 2)) _ [Idle; Idle] 0 2 0 8 8 0);
    [|reflexivity|reflexivity].
  apply (reach_init two_msgs_desc 2).
Qed.

(** X9: a full table turns callers away, and only a full table does.
    In a reachable state in which all [max_msgs] bits are set, the
    semaphore count is zero, and [ti_sci_get_one_xfer] with sane sizes
    returns [-ETIME] and leaves the instance as it is. In a reachable
    state in which no caller stands between the semaphore and the table
    and fewer than [max_msgs] bits are set, the same call returns a
    transfer whose bit was clear, and one more bit is set. *)
Theorem full_table_refuses (d : ti_sci_desc) (info : ti_sci_info)
    (ths : list thread) (ty fl tx rx : Z) :
  desc_ok d -> reachable d {| sys_info := info; sys_threads := ths |} ->
  bad_transfer_sizes d tx rx = false ->
  (allocated_slots info = max_msgs d ->
   sem_xfer_count (minfo info) = 0 /\
   ti_sci_get_one_xfer info ty fl tx rx = Some (ERR_PTR (- ETIME), info)) /\
  (Forall (fun th => holds_bit th = holds_credit th) ths ->
   allocated_slots info < max_msgs d ->
   exists id info',
     ti_sci_get_one_xfer info ty fl tx rx = Some (XFER id, info') /\
     test_bit id (xfer_alloc_table (minfo info)) = Some false /\
     allocated_slots info' = allocated_slots info + 1).
Proof.
  intros Hd Hr Hsane. pose proof (reachable_inv d _ Hd Hr) as Hinv.
  pose proof (inv_credits_ok d _ Hinv) as Hg.
  destruct Hinv as [Hdesc Hpool Hsem Hc Hb _ _ _ _].
  simpl_state. unfold allocated_slots. rewrite Hdesc. split.
  - intros Hfull. pose proof (sum_bit_le_credit ths) as Hle.
    assert (Hz : sem_xfer_count (minfo info) = 0) by lia.
    split; [exact Hz|].
    unfold ti_sci_get_one_xfer, down_timeout. rewrite Hdesc, Hsane, Hz. reflexivity.
  - intros Hq Hfree. rewrite (sum_over_ext _ _ _ Hq) in Hb.
    rewrite <- Hdesc in Hd, Hpool, Hg, Hsane.
    destruct (get_one_xfer_succeeds info ty fl tx rx Hd Hpool Hg
                ltac:(rewrite Hdesc in *; lia) Hsane)
      as (x & table & _ & Hset & Heq & Hrange & Hclr & _).
    do 2 eexists. split; [exact Heq|]. simpl_state. rewrite Hdesc in *. split.
    + rewrite test_bit_in_range by now apply (pool_ok_bit_in_table d).
      now rewrite Hclr.
    + exact (bitmap_weight_set_bit _ _ _ _ Hrange Hclr Hset).
Qed.

Lemma full_table_refuses_witness :
  sem_xfer_count (minfo two_msgs_full) = 0 /\
  ti_sci_get_one_xfer two_msgs_full 2 0 8 8
  = Some (ERR_PTR (- ETIME), two_msgs_full).
Proof.
  destruct (full_table_refuses two_msgs_desc two_msgs_full [Owning 0; Owning 1]
              2 0 8 8)
    as (Hfull & _).
  - vm_compute. repeat split; discriminate.
  - apply two_msgs_full_reachable.
  - reflexivity.
  - apply Hfull. reflexivity.
Defined.

(** ** Outcomes of the probe *)

Section ProbeOutcomes.

Variable TI_SCI_MSG_VERSION : Z.
Variable SIZEOF_RESP_VERSION : Z.
Variable rev_info : list Z -> ti_sci_version_info.
Variable SIZEOF_FIRMWARE_DESCRIPTION : nat.

Local Abbreviation probe :=
  (ti_sci_probe TI_SCI_MSG_VERSION SIZEOF_RESP_VERSION rev_info
     SIZEOF_FIRMWARE_DESCRIPTION).

Lemma get_revision_empty_pool_outcome (d : ti_sci_desc) (env : mbox_env) :
  max_msgs d = 0 ->
  exists ret,
    ti_sci_cmd_get_revision TI_SCI_MSG_VERSION SIZEOF_RESP_VERSION rev_info
      SIZEOF_FIRMWARE_DESCRIPTION (probed_info d []) env
    = Some (ret, [err_alloc_failed ret], probed_info d []) /\
    ret < 0.
Proof.
  intros Hz. unfold ti_sci_cmd_get_revision, ti_sci_get_one_xfer.
  destruct (bad_transfer_sizes _ _ _).
  - eexists. split; [reflexivity|]. unfold ERANGE. lia.
  - unfold probed_info. simpl_state. unfold sema_init, down_timeout. rewrite Hz. simpl.
    eexists. split; [reflexivity|]. unfold ETIME. lia.
Qed.

(** X10: what [ti_sci_probe] leaves behind. Whatever the platform
    answers (with the messages delivered naming bits within the table),
    the probe returns 0 or a negative error, and the instance is added
    to the list exactly when it returns 0. Whenever the driver data is
    set, on success and on failure alike, the instance has the
    description that matched, no bit set in the allocation table and
    the semaphore at [max_msgs]: the version exchange has released its
    transfer. The version is stored only on success, and then the last
    line logged reports it. *)
Theorem probe_outcomes (env : probe_env) :
  (forall d, of_match_device env = Some d ->
     max_msgs d < 2 ^ 8 ->
     max_msg_size d < 2 ^ 31 /\ Forall (seq_in_table d) (arrivals (mbox env))) ->
  exists r,
    probe env = Some r /\
    probe_ret r <= 0 /\
    (probe_listed r = true <-> probe_ret r = 0) /\
    (forall info, probe_drvdata r = Some info ->
       exists d,
         of_match_device env = Some d /\ desc info = d /\
         xfer_alloc_table (minfo info) = bitmap_zero (max_msgs d) /\
         sem_xfer_count (minfo info) = max_msgs d /\
         (probe_ret r <> 0 -> version info = zero_version)) /\
    (probe_ret r = 0 ->
     exists info log,
       probe_drvdata r = Some info /\
       probe_log r = log ++ [info_abi (version info)]).
Proof.
  intros Hint. unfold ti_sci_probe.
  destruct (of_match_device env) as [d|] eqn:Hmatch.
  2:{ eexists. split; [reflexivity|]. simpl. unfold EINVAL.
      split_and!; try lia; try discriminate. }
  specialize (Hint d eq_refl).
  destruct (kzalloc_info_ok env); simpl.
  2:{ eexists. split; [reflexivity|]. simpl. unfold ENOMEM.
      split_and!; try lia; try discriminate. }
  destruct (Z.leb_spec (Z.shiftl 1 (8 * SIZEOF_SEQ)) (max_msgs d)) as [Hbig|Hfit].
  { eexists. split; [reflexivity|]. simpl. unfold EINVAL.
    split_and!; try lia; try discriminate. }
  change (Z.shiftl 1 (8 * SIZEOF_SEQ)) with (2 ^ 8) in Hfit.
  destruct (Hint Hfit) as [Hsz Hin].
  unfold devm_alloc at 1.
  destruct (kcalloc_xfer_block_ok env); simpl.
  2:{ eexists. split; [reflexivity|]. simpl. unfold ENOMEM.
      split_and!; try lia; try discriminate. }
  destruct (Z.leb_spec 0 (max_msgs d)) as [Hnn|]; simpl.
  2:{ eexists. split; [reflexivity|]. simpl. unfold ENOMEM.
      split_and!; try lia; try discriminate. }
  destruct (devm_alloc _ _); simpl.
  2:{ eexists. split; [reflexivity|]. simpl. unfold ENOMEM.
      split_and!; try lia; try discriminate. }
  destruct (prealloc_xfers d (kcalloc_xfer_buf_ok env) 0 (Z.to_nat (max_msgs d)))
    as [bufs [block|]] eqn:Hpre.
  2:{ eexists. split; [reflexivity|]. simpl. unfold ENOMEM.
      split_and!; try lia; try discriminate. }
  destruct (prealloc_xfers_block _ _ _ _ _ _ Hpre) as [-> Hsize].
  destruct (Z.ltb_spec (chan_rx_err env) 0) as [Hrx|_].
  { eexists. split; [reflexivity|]. simpl.
    split_and!; try lia; try discriminate.
    intros info [= <-]. exists d. auto. }
  destruct (Z.ltb_spec (chan_tx_err env) 0) as [Htx|_].
  { eexists. split; [reflexivity|]. simpl.
    split_and!; try lia; try discriminate.
    intros info [= <-]. exists d. auto. }
  set (info0 := probed_info d (replicate (Z.to_nat (max_msgs d)) (prealloc_xfer d))).
  assert (Hrev : exists ret log info',
             ti_sci_cmd_get_revision TI_SCI_MSG_VERSION SIZEOF_RESP_VERSION
               rev_info SIZEOF_FIRMWARE_DESCRIPTION info0 (mbox env)
             = Some (ret, log, info') /\
             ret <= 0 /\ desc info' = d /\
             xfer_alloc_table (minfo info') = bitmap_zero (max_msgs d) /\
             sem_xfer_count (minfo info') = max_msgs d /\
             (ret <> 0 -> version info' = zero_version)).
  { destruct (Z.eq_dec (max_msgs d) 0) as [Hz|Hnz].
    - unfold info0. rewrite Hz. simpl.
      destruct (get_revision_empty_pool_outcome d (mbox env) Hz) as (ret & Hr & Hneg).
      exists ret, [err_alloc_failed ret], (probed_info d []).
      split; [exact Hr|]. split_and!; auto; try lia.
      simpl. now rewrite Hz.
    - destruct (probed_info_ok d) as (Hd & Hp & Hg); [lia| |].
      + split; [|exact Hsz]. apply Hsize. lia.
      + destruct (get_revision_outcome TI_SCI_MSG_VERSION SIZEOF_RESP_VERSION
                    rev_info SIZEOF_FIRMWARE_DESCRIPTION info0 (mbox env) Hd Hp Hg Hin)
          as (ret & log & info' & Hr & Hd' & Ht' & Hs' & _ & _ & Hv & Hret).
        exists ret, log, info'. split; [exact Hr|]. split_and!; auto.
        unfold ERANGE, ETIME, ETIMEDOUT in Hret. lia. }
  destruct Hrev as (ret & log & info' & -> & Hle & Hd' & Ht' & Hs' & Hv'). simpl.
  destruct (Z.eqb_spec ret 0) as [->|Hne]; simpl.
  - eexists. split; [reflexivity|]. simpl. split_and!; auto; try lia.
    + intros info [= <-]. exists d. split_and!; auto.
    + intros _. exists info'. eexists. split; [reflexivity|].
      now rewrite app_assoc.
  - eexists. split; [reflexivity|]. simpl.
    split_and!; auto; try lia; try discriminate.
    intros info [= <-]. exists d. split_and!; auto.
Qed.

End ProbeOutcomes.

Lemma probe_outcomes_witness :
  exists r,
    ti_sci_probe 2 44 sample_rev_info 32
      (k2g_platform {| send_ret := 0; arrivals := [sample_version_reply] |})
    = Some r /\
    probe_listed r = true.
Proof.
  destruct (probe_outcomes 2 44 sample_rev_info 32
              (k2g_platform {| send_ret := 0; arrivals := [sample_version_reply] |}))
    as (r & Hr & _ & Hl & _).
  - intros d [= <-] _. split; [reflexivity|].
    repeat constructor; vm_compute; discriminate.
  - exists r. split; [exact Hr|]. apply Hl.
    vm_compute in Hr. injection Hr as <-. reflexivity.
Defined.

Lemma prealloc_xfers_refused (d : ti_sci_desc) (ok : nat -> bool) (n : nat) :
  forall i k : nat,
    (k < n)%nat -> 0 <= max_msg_size d ->
    (forall j, (j < k)%nat -> ok (i + j)%nat = true) -> ok (i + k)%nat = false ->
    prealloc_xfers d ok i n
    = ((fun j => res_xfer_buf j (max_msg_size d)) <$> seq i k, None).
Proof.
  induction n as [|n IH]; intros i k Hk Hsz Hbefore Hat; [lia|].
  simpl. unfold devm_alloc at 1. destruct k as [|k].
  - rewrite Nat.add_0_r in Hat. rewrite Hat. reflexivity.
  - pose proof (Hbefore O ltac:(lia)) as H0. rewrite Nat.add_0_r in H0. rewrite H0.
    destruct (Z.leb_spec 0 (max_msg_size d)); [|lia]. simpl.
    rewrite (IH (S i) k); [reflexivity|lia|exact Hsz| |].
    + intros j Hj. replace (S i + j)%nat with (i + S j)%nat by lia. apply Hbefore. lia.
    + replace (S i + k)%nat with (i + S k)%nat by lia. exact Hat.
Qed.

Section ProbeAllocations.

Variable TI_SCI_MSG_VERSION : Z.
Variable SIZEOF_RESP_VERSION : Z.
Variable rev_info : list Z -> ti_sci_version_info.
Variable SIZEOF_FIRMWARE_DESCRIPTION : nat.

(** X23: the probe stops at the first buffer that is refused. With
    the description matched and accepted and the instance, the block
    and the table granted, when the buffer of transfer [k] is the first
    one refused, [ti_sci_probe] returns [-ENOMEM]: the device holds the
    instance, the block, the table and the buffers of the transfers
    before [k], in this order; no driver data is set, nothing is logged,
    the mailbox is not asked for a channel, and the instance is not
    listed. *)
Theorem probe_buffer_refused (env : probe_env) (d : ti_sci_desc) (k : nat) :
  of_match_device env = Some d -> kzalloc_info_ok env = true ->
  0 <= max_msgs d < 2 ^ 8 -> 0 <= max_msg_size d ->
  kcalloc_xfer_block_ok env = true -> kzalloc_alloc_table_ok env = true ->
  (k < Z.to_nat (max_msgs d))%nat ->
  (forall j, (j < k)%nat -> kcalloc_xfer_buf_ok env j = true) ->
  kcalloc_xfer_buf_ok env k = false ->
  ti_sci_probe TI_SCI_MSG_VERSION SIZEOF_RESP_VERSION rev_info
    SIZEOF_FIRMWARE_DESCRIPTION env
  = Some {| probe_ret := - ENOMEM;
            probe_devres :=
              [res_info; res_xfer_block (max_msgs d);
               res_xfer_alloc_table (BITS_TO_LONGS (max_msgs d))]
              ++ ((fun j => res_xfer_buf j (max_msg_size d)) <$> seq 0 k);
            probe_drvdata := None;
            probe_listed := false;
            probe_log := [] |}.
Proof.
  intros Hmatch Hinfo Hmsgs Hsz Hblock Htable Hk Hbefore Hat.
  unfold ti_sci_probe. rewrite Hmatch, Hinfo. simpl.
  change (Z.shiftl 1 (8 * SIZEOF_SEQ)) with (2 ^ 8).
  destruct (Z.leb_spec (2 ^ 8) (max_msgs d)); [lia|].
  unfold devm_alloc at 1 2. rewrite Hblock, Htable. simpl.
  destruct (Z.leb_spec 0 (max_msgs d)); [|lia]. simpl.
  assert (Hlongs : 0 <= BITS_TO_LONGS (max_msgs d)).
  { unfold BITS_TO_LONGS, BITS_PER_LONG. apply Z.div_pos; lia. }
  destruct (Z.leb_spec 0 (BITS_TO_LONGS (max_msgs d))); [|lia]. simpl.
  rewrite (prealloc_xfers_refused d (kcalloc_xfer_buf_ok env) _ 0 k Hk Hsz Hbefore Hat).
  reflexivity.
Qed.

End ProbeAllocations.

Lemma probe_buffer_refused_witness :
  exists r,
    ti_sci_probe 2 44 sample_rev_info 32
      {| of_match_device := Some ti_sci_pmmc_k2g_desc;
         kzalloc_info_ok := true;
         kcalloc_xfer_block_ok := true;
         kzalloc_alloc_table_ok := true;
         kcalloc_xfer_buf_ok := fun i => (i <? 2)%nat;
         debugfs_create_ret := 0;
         chan_rx_err := 0;
         chan_tx_err := 0;
         mbox := {| send_ret := 0; arrivals := [] |} |}
    = Some r /\
    probe_ret r = - ENOMEM /\
    probe_devres r
    = [res_info; res_xfer_block 128; res_xfer_alloc_table 4;
       res_xfer_buf 0 64; res_xfer_buf 1 64].
Proof.
  eexists. split.
  - apply (probe_buffer_refused 2 44 sample_rev_info 32 _ ti_sci_pmmc_k2g_desc 2);
      try reflexivity.
    + simpl. lia.
    + simpl. lia.
    + simpl. lia.
    + intros [|[|j]] Hj; try reflexivity. lia.
  - split; reflexivity.
Defined.

(** * Properties of the handles *)

Lemma int_of_id (v : Z) : - 2 ^ 31 <= v < 2 ^ 31 -> int_of v = v.
Proof. intros H. unfold int_of. rewrite Z.mod_small by lia. lia. Qed.

Lemma set_users_id (info : ti_sci_instance) : set_users (users info) info = info.
Proof. destruct info; reflexivity. Qed.

Lemma find_instance_Some (insts : list ti_sci_instance) (np : device_node)
    (l : list nat) (p : nat) :
  find_instance insts np l = Some (Some p) ->
  exists info l1 l2,
    l = l1 ++ p :: l2 /\
    (forall q i, q ∈ l1 -> insts !! q = Some i -> inst_of_node i <> Some np) /\
    insts !! p = Some info /\ inst_of_node info = Some np.
Proof.
  induction l as [|a l IH]; simpl; [discriminate|].
  destruct (insts !! a) as [info|] eqn:Ha; simpl; [|discriminate].
  destruct (decide (inst_of_node info = Some np)) as [Hn|Hn].
  - intros [= <-]. exists info, [], l. split_and!; auto.
    intros q i Hq. now apply elem_of_nil in Hq.
  - intros Hf. destruct (IH Hf) as (info' & l1 & l2 & -> & Hbefore & Hp & Hnode).
    exists info', (a :: l1), l2. split_and!; auto.
    intros q i Hq Hi. apply elem_of_cons in Hq as [->|Hq]; [congruence|eauto].
Qed.

Lemma find_instance_None (insts : list ti_sci_instance) (np : device_node)
    (l : list nat) :
  find_instance insts np l = Some None ->
  forall q i, q ∈ l -> insts !! q = Some i -> inst_of_node i <> Some np.
Proof.
  induction l as [|a l IH]; simpl.
  - intros _ q i Hq. now apply elem_of_nil in Hq.
  - destruct (insts !! a) as [info|] eqn:Ha; simpl; [|discriminate].
    destruct (decide (inst_of_node info = Some np)) as [Hn|Hn]; [discriminate|].
    intros Hf q i Hq Hi. apply elem_of_cons in Hq as [->|Hq]; [congruence|eauto].
Qed.

Lemma find_instance_total (insts : list ti_sci_instance) (np : device_node)
    (l : list nat) :
  (forall p, p ∈ l -> is_Some (insts !! p)) ->
  exists found, find_instance insts np l = Some found.
Proof.
  induction l as [|a l IH]; intros Hval; simpl; [eexists; reflexivity|].
  destruct (Hval a) as [info Ha]; [apply list_elem_of_here|].
  rewrite Ha. simpl. destruct (decide _); [eexists; reflexivity|].
  apply IH. intros p Hp. apply Hval. now apply list_elem_of_further.
Qed.

(** Where no linked instance has the node, the walk finds none; where
    the first that has it is at [p], it finds [p]. *)
Lemma find_instance_absent (insts : list ti_sci_instance) (np : device_node)
    (l : list nat) :
  (forall p, p ∈ l -> is_Some (insts !! p)) ->
  (forall q i, q ∈ l -> insts !! q = Some i -> inst_of_node i <> Some np) ->
  find_instance insts np l = Some None.
Proof.
  intros Hval Hno. destruct (find_instance_total insts np l Hval) as ([p|] & Hf);
    [|exact Hf].
  destruct (find_instance_Some _ _ _ _ Hf) as (info & l1 & l2 & -> & _ & Hp & Hn).
  exfalso. apply (Hno p info); auto. apply elem_of_app. right. apply list_elem_of_here.
Qed.

Lemma find_instance_first (insts : list ti_sci_instance) (np : device_node)
    (l1 l2 : list nat) (p : nat) (info : ti_sci_instance) :
  (forall q, q ∈ l1 -> is_Some (insts !! q)) ->
  (forall q i, q ∈ l1 -> insts !! q = Some i -> inst_of_node i <> Some np) ->
  insts !! p = Some info -> inst_of_node info = Some np ->
  find_instance insts np (l1 ++ p :: l2) = Some (Some p).
Proof.
  intros Hval Hno Hp Hn. induction l1 as [|a l1 IH]; simpl.
  - rewrite Hp. simpl. destruct (decide _); [reflexivity|contradiction].
  - destruct (Hval a) as [i Ha]; [apply list_elem_of_here|].
    rewrite Ha. simpl. destruct (decide _) as [E|_].
    + exfalso. apply (Hno a i); auto. apply list_elem_of_here.
    + apply IH.
      * intros q Hq. apply Hval. now apply list_elem_of_further.
      * intros q j Hq. apply Hno. now apply list_elem_of_further.
Qed.

Lemma get_handle_inv (dt : device_tree) (dev : option device) (r r' : registry)
    (p : nat) (log : list handle_event) :
  ti_sci_get_handle dt dev r = Some (HANDLE p, log, r') ->
  exists dv np sci_np info,
    dev = Some dv /\ of_node dv = Some np /\ dt np = Some sci_np /\
    find_instance (instances r) sci_np (ti_sci_list r) = Some (Some p) /\
    instances r !! p = Some info /\ inst_of_node info = Some sci_np /\
    log = [] /\
    r' = set_instance p (set_users (int_of (users info + 1)) info) r.
Proof.
  unfold ti_sci_get_handle. destruct dev as [dv|]; [|discriminate].
  destruct (of_node dv) as [np|] eqn:Hnp; [|discriminate].
  destruct (dt np) as [sci_np|] eqn:Hdt; [|discriminate].
  destruct (find_instance _ _ _) as [[q|]|] eqn:Hf; simpl; try discriminate.
  destruct (instances r !! q) as [info|] eqn:Hq; simpl; [|discriminate].
  intros [= <- <- <-].
  destruct (find_instance_Some _ _ _ _ Hf) as (info' & _ & _ & _ & _ & Hq' & Hn).
  rewrite Hq in Hq'. injection Hq' as <-.
  exists dv, np, sci_np, info. split_and!; auto.
Qed.

(** X11: the outcomes of [ti_sci_get_handle]. With every linked
    address that of an instance, the call returns. It returns a handle
    exactly for a device that has a node whose "ti,sci" property names
    the node of a linked instance: the handle is that of the first such
    instance from the head of the list, and only that instance's
    number of users changes, by one. Otherwise it returns an error
    pointer and changes nothing: [-EINVAL] without a device or without
    a node, [-ENODEV] without the property, [-EPROBE_DEFER] when no
    linked instance has the node named. It never returns null. *)
Theorem get_handle_outcome (dt : device_tree) (dev : option device) (r : registry) :
  (forall p, p ∈ ti_sci_list r -> is_Some (instances r !! p)) ->
  exists handle log r',
    ti_sci_get_handle dt dev r = Some (handle, log, r') /\
    match handle with
    | HANDLE p =>
        exists dv np sci_np info l1 l2,
          dev = Some dv /\ of_node dv = Some np /\ dt np = Some sci_np /\
          ti_sci_list r = l1 ++ p :: l2 /\
          (forall q i, q ∈ l1 -> instances r !! q = Some i ->
                       inst_of_node i <> Some sci_np) /\
          instances r !! p = Some info /\ inst_of_node info = Some sci_np /\
          r' = set_instance p (set_users (int_of (users info + 1)) info) r
    | HANDLE_ERR_PTR err =>
        r' = r /\ - MAX_ERRNO <= err < 0 /\
        (err = - EINVAL /\
         (dev = None \/ exists dv, dev = Some dv /\ of_node dv = None) \/
         err = - ENODEV /\
         (exists dv np, dev = Some dv /\ of_node dv = Some np /\ dt np = None) \/
         err = - EPROBE_DEFER /\
         (exists dv np sci_np,
            dev = Some dv /\ of_node dv = Some np /\ dt np = Some sci_np /\
            forall q i, q ∈ ti_sci_list r -> instances r !! q = Some i ->
                        inst_of_node i <> Some sci_np))
    | HANDLE_NULL => False
    end.
Proof.
  intros Hval. unfold ti_sci_get_handle.
  destruct dev as [dv|].
  2:{ do 3 eexists. split; [reflexivity|]. split; [reflexivity|].
      split; [unfold MAX_ERRNO, EINVAL; lia|]. left. auto. }
  destruct (of_node dv) as [np|] eqn:Hnp.
  2:{ do 3 eexists. split; [reflexivity|]. split; [reflexivity|].
      split; [unfold MAX_ERRNO, EINVAL; lia|]. left. split; [reflexivity|].
      right. exists dv. auto. }
  destruct (dt np) as [sci_np|] eqn:Hdt.
  2:{ do 3 eexists. split; [reflexivity|]. split; [reflexivity|].
      split; [unfold MAX_ERRNO, ENODEV; lia|]. right. left. split; [reflexivity|].
      exists dv, np. auto. }
  destruct (find_instance_total (instances r) sci_np (ti_sci_list r) Hval)
    as ([p|] & Hf); rewrite Hf; simpl.
  - destruct (find_instance_Some _ _ _ _ Hf) as (info & l1 & l2 & Hl & Hno & Hp & Hn).
    rewrite Hp. simpl. do 3 eexists. split; [reflexivity|].
    exists dv, np, sci_np, info, l1, l2. split_and!; auto.
  - do 3 eexists. split; [reflexivity|]. split; [reflexivity|].
    split; [unfold MAX_ERRNO, EPROBE_DEFER; lia|]. right. right.
    split; [reflexivity|]. exists dv, np, sci_np. split_and!; auto.
    exact (find_instance_None _ _ _ Hf).
Qed.

Lemma k2g_registry_ok : registry_ok k2g_registry.
Proof.
  split_and!.
  - apply NoDup_singleton.
  - intros p Hp. apply list_elem_of_singleton in Hp as ->. eexists. reflexivity.
  - intros [|p] info; simpl; [|discriminate]. intros [= <-]. simpl. lia.
Qed.

Lemma get_handle_outcome_witness :
  exists r',
    ti_sci_get_handle client_tree (Some client_dev) k2g_registry
    = Some (HANDLE 0, [], r') /\
    users <$> instances r' !! 0%nat = Some 1.
Proof.
  destruct (get_handle_outcome client_tree (Some client_dev) k2g_registry)
    as (handle & log & r' & Hget & Hspec).
  - apply k2g_registry_ok.
  - vm_compute in Hget. injection Hget as <- <- <-.
    eexists. split; reflexivity.
Defined.

(** The release that follows a get. *)
Lemma put_after_get (dt : device_tree) (dev : option device) (r r' : registry)
    (p : nat) (log : list handle_event) :
  (forall q info, instances r !! q = Some info -> 0 <= users info < 2 ^ 31 - 1) ->
  ti_sci_get_handle dt dev r = Some (HANDLE p, log, r') ->
  exists info,
    instances r !! p = Some info /\
    instances r' !! p = Some (set_users (users info + 1) info) /\
    ti_sci_list r' = ti_sci_list r /\
    (forall q, q <> p -> instances r' !! q = instances r !! q) /\
    ti_sci_put_handle (HANDLE p) r' = Some (0, [], r).
Proof.
  intros Hu Hget.
  destruct (get_handle_inv _ _ _ _ _ _ Hget)
    as (dv & np & sci_np & info & _ & _ & _ & _ & Hp & _ & _ & ->).
  pose proof (Hu p info Hp) as Hrange.
  rewrite int_of_id by lia.
  assert (Hlt : (p < length (instances r))%nat) by (eapply lookup_lt_Some; eauto).
  exists info. split; [exact Hp|]. simpl. split_and!; auto.
  - now apply list_lookup_insert_eq.
  - intros q Hq. now apply list_lookup_insert_ne.
  - unfold ti_sci_put_handle. simpl. rewrite list_lookup_insert_eq by exact Hlt.
    simpl. destruct (Z.eqb_spec (users info + 1) 0); [lia|].
    unfold set_instance. simpl. rewrite list_insert_insert_eq.
    replace (users info + 1 - 1) with (users info) by lia.
    rewrite int_of_id by lia.
    replace (set_users (users info) (set_users (users info + 1) info)) with info
      by (destruct info; reflexivity).
    rewrite list_insert_id by exact Hp. destruct r; reflexivity.
Qed.

(** X12: [ti_sci_put_handle] undoes [ti_sci_get_handle]. With the
    numbers of users non-negative and below [INT_MAX], a successful get
    adds one user to the instance of the handle and touches nothing
    else, and a put of that handle then returns 0 and gives back the
    registry of before the get. *)
Theorem get_put_handle_round_trip (dt : device_tree) (dev : option device)
    (r r' : registry) (p : nat) (log : list handle_event) :
  (forall q info, instances r !! q = Some info -> 0 <= users info < 2 ^ 31 - 1) ->
  ti_sci_get_handle dt dev r = Some (HANDLE p, log, r') ->
  exists info,
    instances r !! p = Some info /\
    instances r' !! p = Some (set_users (users info + 1) info) /\
    ti_sci_list r' = ti_sci_list r /\
    (forall q, q <> p -> instances r' !! q = instances r !! q) /\
    ti_sci_put_handle (HANDLE p) r' = Some (0, [], r).
Proof. exact (put_after_get dt dev r r' p log). Qed.

Lemma k2g_registry_users :
  forall q info, instances k2g_registry !! q = Some info ->
                 0 <= users info < 2 ^ 31 - 1.
Proof.
  intros [|q] info; simpl; [|discriminate]. intros [= <-]. simpl. lia.
Qed.

Lemma k2g_registry_get :
  exists r',
    ti_sci_get_handle client_tree (Some client_dev) k2g_registry
    = Some (HANDLE 0, [], r').
Proof. eexists. reflexivity. Qed.

Lemma get_put_handle_round_trip_witness :
  exists r',
    ti_sci_get_handle client_tree (Some client_dev) k2g_registry
    = Some (HANDLE 0, [], r') /\
    ti_sci_put_handle (HANDLE 0) r' = Some (0, [], k2g_registry).
Proof.
  destruct k2g_registry_get as (r' & Hget).
  destruct (get_put_handle_round_trip client_tree (Some client_dev) k2g_registry
              r' 0 [] k2g_registry_users Hget)
    as (info & _ & _ & _ & _ & Hput).
  exists r'. split; [exact Hget|exact Hput].
Defined.

(** X13: [ti_sci_put_handle] never takes the number of users below
    zero. On a well-formed registry every put returns, and the registry
    stays well formed with the same list. A put of a handle returns 0;
    it takes one user off the instance of the handle and leaves the
    others alone, except that on an instance without users it warns and
    changes nothing. A put of an error pointer returns the error in it
    and a put of null returns [-EINVAL], both without any change. *)
Theorem put_handle_users_floor (handle : handle_ptr) (r : registry) :
  registry_ok r ->
  (forall p, handle = HANDLE p -> is_Some (instances r !! p)) ->
  exists ret log r',
    ti_sci_put_handle handle r = Some (ret, log, r') /\
    registry_ok r' /\ ti_sci_list r' = ti_sci_list r /\
    match handle with
    | HANDLE p =>
        ret = 0 /\
        exists info,
          instances r !! p = Some info /\
          (users info = 0 -> r' = r /\ log = [warn_no_users]) /\
          (users info <> 0 ->
           log = [] /\
           instances r' !! p = Some (set_users (users info - 1) info) /\
           forall q, q <> p -> instances r' !! q = instances r !! q)
    | HANDLE_NULL => ret = - EINVAL /\ r' = r /\ log = []
    | HANDLE_ERR_PTR err => ret = err /\ r' = r /\ log = []
    end.
Proof.
  intros Hok Hp. destruct handle as [err| |p]; simpl.
  - do 3 eexists. split; [reflexivity|]. auto.
  - do 3 eexists. split; [reflexivity|]. auto.
  - destruct (Hp p eq_refl) as [info Hi]. rewrite Hi. simpl.
    destruct Hok as (Hnd & Hval & Hu). pose proof (Hu p info Hi) as Hrange.
    assert (Hlt : (p < length (instances r))%nat) by (eapply lookup_lt_Some; eauto).
    destruct (Z.eqb_spec (users info) 0) as [Hz|Hnz].
    + do 3 eexists. split; [reflexivity|]. split; [split_and!; auto|].
      split; [reflexivity|]. split; [reflexivity|].
      exists info. split_and!; auto. contradiction.
    + do 3 eexists. split; [reflexivity|]. rewrite int_of_id by lia.
      split; [|split; [reflexivity|split; [reflexivity|]]].
      * split_and!; auto.
        -- intros q Hq. simpl. apply list_lookup_insert_is_Some. now apply Hval.
        -- intros q i. simpl. intros Hq.
           apply list_lookup_insert_Some in Hq as [(-> & <- & _)|(_ & Hq)].
           ++ simpl. lia.
           ++ exact (Hu q i Hq).
      * exists info. split; [reflexivity|]. split; [contradiction|]. intros _.
        simpl. split_and!; auto.
        -- now apply list_lookup_insert_eq.
        -- intros q Hq. now apply list_lookup_insert_ne.
Qed.

Lemma put_handle_users_floor_witness :
  ti_sci_put_handle (HANDLE 0) k2g_registry
  = Some (0, [warn_no_users], k2g_registry).
Proof.
  destruct (put_handle_users_floor (HANDLE 0) k2g_registry k2g_registry_ok)
    as (ret & log & r' & Hput & _ & _ & -> & info & Hi & Hzero & _).
  - intros p [= <-]. eexists. reflexivity.
  - injection Hi as <-. destruct (Hzero eq_refl) as [-> ->]. exact Hput.
Defined.

Lemma get_handle_err_inv (dt : device_tree) (dev : option device) (r r' : registry)
    (err : Z) (log : list handle_event) :
  ti_sci_get_handle dt dev r = Some (HANDLE_ERR_PTR err, log, r') -> r' = r.
Proof.
  unfold ti_sci_get_handle. destruct dev as [dv|]; [|now intros [= _ _ <-]].
  destruct (of_node dv); [|now intros [= _ _ <-]].
  destruct (dt _); [|now intros [= _ _ <-]].
  destruct (find_instance _ _ _) as [[q|]|]; simpl; try discriminate.
  - destruct (instances r !! q); simpl; discriminate.
  - now intros [= _ _ <-].
Qed.

Lemma get_handle_not_null (dt : device_tree) (dev : option device) (r r' : registry)
    (log : list handle_event) :
  ti_sci_get_handle dt dev r <> Some (HANDLE_NULL, log, r').
Proof.
  unfold ti_sci_get_handle. destruct dev as [dv|]; [|discriminate].
  destruct (of_node dv); [|discriminate].
  destruct (dt _); [|discriminate].
  destruct (find_instance _ _ _) as [[q|]|]; simpl; try discriminate.
  destruct (instances r !! q); simpl; discriminate.
Qed.

(** X14: a handle that is out keeps the instance from being removed.
    On a well-formed registry with the numbers of users below
    [INT_MAX], after a successful [ti_sci_get_handle] the call of
    [ti_sci_remove] for the instance of the handle returns [-EBUSY] and
    changes nothing. When the handle was the only one, the put that
    balances it makes the removal succeed: the instance is unlinked,
    its debug file is removed if the debug region was mapped, and a
    further get for the same device is deferred with [-EPROBE_DEFER]
    unless another linked instance has the same node. *)
Theorem handle_blocks_remove (dt : device_tree) (dev : option device)
    (r r1 : registry) (p : nat) (log : list handle_event) :
  registry_ok r ->
  (forall q info, instances r !! q = Some info -> users info < 2 ^ 31 - 1) ->
  ti_sci_get_handle dt dev r = Some (HANDLE p, log, r1) ->
  ti_sci_remove p r1 = Some (- EBUSY, [], r1) /\
  (forall info, instances r !! p = Some info -> users info = 0 ->
     exists r3,
       ti_sci_put_handle (HANDLE p) r1 = Some (0, [], r) /\
       ti_sci_remove p r
       = Some (0, ti_sci_debugfs_destroy (inst_debug info), r3) /\
       (p ∉ ti_sci_list r3) /\ instances r3 = instances r /\
       ((forall q i, q ∈ ti_sci_list r -> q <> p -> instances r !! q = Some i ->
                     inst_of_node i <> inst_of_node info) ->
        ti_sci_get_handle dt dev r3
        = Some (HANDLE_ERR_PTR (- EPROBE_DEFER), [], r3))).
Proof.
  intros (Hnd & Hval & Hu) Hmax Hget.
  assert (Hrange : forall q info, instances r !! q = Some info ->
                                  0 <= users info < 2 ^ 31 - 1).
  { intros q i Hq. pose proof (Hu q i Hq). pose proof (Hmax q i Hq). lia. }
  destruct (put_after_get dt dev r r1 p log Hrange Hget)
    as (info & Hp & Hp1 & Hl1 & _ & Hput).
  destruct (get_handle_inv _ _ _ _ _ _ Hget)
    as (dv & np & sci_np & info' & -> & Hnp & Hdt & _ & Hp' & Hnode & _ & _).
  rewrite Hp in Hp'. injection Hp' as <-.
  pose proof (Hrange p info Hp) as Hr. split.
  - unfold ti_sci_remove. rewrite Hp1. simpl.
    destruct (Z.eqb_spec (users info + 1) 0); [lia|]. reflexivity.
  - intros info0 Hp0 Hzero. rewrite Hp in Hp0. injection Hp0 as <-.
    eexists. split; [exact Hput|]. split.
    { unfold ti_sci_remove. rewrite Hp. simpl. rewrite Hzero. reflexivity. }
    simpl. split_and!; auto.
    + unfold list_del. intros Hin. apply list_elem_of_filter in Hin as [Hne _].
      now apply Hne.
    + intros Hother. unfold ti_sci_get_handle. simpl. rewrite Hnp, Hdt.
      rewrite (find_instance_absent (instances r) sci_np); [reflexivity| |].
      * intros q Hq. apply list_elem_of_filter in Hq as [_ Hq]. now apply Hval.
      * intros q i Hq Hi. apply list_elem_of_filter in Hq as [Hne Hq].
        rewrite <- Hnode. exact (Hother q i Hq Hne Hi).
Qed.

Lemma handle_blocks_remove_witness :
  exists r1,
    ti_sci_get_handle client_tree (Some client_dev) k2g_registry
    = Some (HANDLE 0, [], r1) /\
    ti_sci_remove 0 r1 = Some (- EBUSY, [], r1).
Proof.
  destruct k2g_registry_get as (r1 & Hget).
  destruct (handle_blocks_remove client_tree (Some client_dev) k2g_registry r1 0 []
              k2g_registry_ok) as (Hbusy & _).
  - intros q info Hq. apply (k2g_registry_users q info Hq).
  - exact Hget.
  - exists r1. split; [exact Hget|exact Hbusy].
Defined.

(** X15: removing one instance does not disturb the handles of the
    others. When [ti_sci_remove] succeeds for the instance at [p], a
    device whose get resolved to another instance [q] before the
    removal resolves to [q] after it, with the same effect on the
    instances; the two calls can be made in either order. *)
Theorem remove_keeps_other_handles (dt : device_tree) (dev : option device)
    (r r' r1 : registry) (p q : nat) (ev : list debug_event)
    (log : list handle_event) :
  (forall a, a ∈ ti_sci_list r -> is_Some (instances r !! a)) ->
  ti_sci_remove p r = Some (0, ev, r') ->
  ti_sci_get_handle dt dev r = Some (HANDLE q, log, r1) ->
  q <> p ->
  exists r1',
    ti_sci_get_handle dt dev r' = Some (HANDLE q, log, r1') /\
    ti_sci_remove p r1 = Some (0, ev, r1').
Proof.
  intros Hval Hrm Hget Hne.
  destruct (get_handle_inv _ _ _ _ _ _ Hget)
    as (dv & np & sci_np & info & -> & Hnp & Hdt & Hf & Hq & Hnode & -> & ->).
  unfold ti_sci_remove in Hrm.
  destruct (instances r !! p) as [ip|] eqn:Hp; simpl in Hrm; [|discriminate].
  destruct (Z.eqb_spec (users ip) 0) as [Hz|]; simpl in Hrm;
    [|unfold EBUSY in Hrm; injection Hrm as Hrm _ _; lia].
  injection Hrm as <- <-.
  destruct (find_instance_Some _ _ _ _ Hf) as (info' & l1 & l2 & Hl & Hno & _ & _).
  assert (Hfind : find_instance (instances r) sci_np (list_del p (ti_sci_list r))
                  = Some (Some q)).
  { unfold list_del. rewrite Hl, filter_app, filter_cons_True by exact Hne.
    apply (find_instance_first (instances r) sci_np _ _ q info); auto.
    - intros a Ha. apply list_elem_of_filter in Ha as [_ Ha]. apply Hval.
      rewrite Hl. apply elem_of_app. now left.
    - intros a i Ha. apply list_elem_of_filter in Ha as [_ Ha]. now apply Hno. }
  eexists. split.
  - unfold ti_sci_get_handle. simpl. rewrite Hnp, Hdt, Hfind. simpl. rewrite Hq.
    reflexivity.
  - unfold ti_sci_remove. simpl.
    rewrite list_lookup_insert_ne by (intros E; now apply Hne).
    rewrite Hp. simpl. rewrite Hz. reflexivity.
Qed.

(** A registry with a second instance, at address 1, for node 9. *)
Lemma remove_keeps_other_handles_witness :
  let r := list_add_tail 1
             {| instances := [k2g_instance;
                              {| inst_of_node := Some 9%nat; users := 0;
                                 inst_debug := zero_debug; inst_info := k2g_probed |}];
                ti_sci_list := [0%nat] |} in
  exists r' r1',
    ti_sci_remove 1 r = Some (0, [debugfs_remove DENTRY_NULL], r') /\
    ti_sci_get_handle client_tree (Some client_dev) r' = Some (HANDLE 0, [], r1').
Proof.
  intros r.
  destruct (ti_sci_remove 1 r) as [[[ret ev] r']|] eqn:Hrm;
    [|vm_compute in Hrm; discriminate Hrm].
  assert (Hret : ret = 0 /\ ev = [debugfs_remove DENTRY_NULL]).
  { vm_compute in Hrm. injection Hrm as <- <- _. split; reflexivity. }
  destruct Hret as [-> ->].
  destruct (ti_sci_get_handle client_tree (Some client_dev) r)
    as [[[h log] r1]|] eqn:Hget; [|vm_compute in Hget; discriminate Hget].
  assert (Hh : h = HANDLE 0 /\ log = []).
  { vm_compute in Hget. injection Hget as <- <- _. split; reflexivity. }
  destruct Hh as [-> ->].
  destruct (remove_keeps_other_handles client_tree (Some client_dev) r r' r1 1 0
              [debugfs_remove DENTRY_NULL] []) as (r1' & Hget' & _); auto.
  - intros a Ha. unfold r in Ha. simpl in Ha.
    apply elem_of_cons in Ha as [->|Ha]; [eexists; reflexivity|].
    apply list_elem_of_singleton in Ha as ->. eexists; reflexivity.
  - exists r', r1'. split; [reflexivity|exact Hget'].
Defined.

(** X16: the managed get is undone by its release. When
    [devres_alloc] fails, [devm_ti_sci_get_handle] returns [-ENOMEM]
    without looking for an instance. Otherwise it returns what
    [ti_sci_get_handle] returns: an error leaves the registry and the
    managed resources of the device as they were; a handle is added to
    the managed resources, and its release puts the handle, so that
    releasing the resources after the get ends where releasing them
    before the get would have. The numbers of users are non-negative
    and below [INT_MAX]. *)
Theorem devm_get_handle_release (dt : device_tree) (ok : bool)
    (dev : option device) (r r' : registry) (devres devres' : list handle_ptr)
    (handle : handle_ptr) (log : list handle_event) :
  (forall q info, instances r !! q = Some info -> 0 <= users info < 2 ^ 31 - 1) ->
  devm_ti_sci_get_handle dt ok dev r devres = Some (handle, log, r', devres') ->
  match handle with
  | HANDLE p =>
      ok = true /\ devres' = HANDLE p :: devres /\
      ti_sci_get_handle dt dev r = Some (HANDLE p, log, r') /\
      devm_ti_sci_release (HANDLE p) r' = Some ([], r) /\
      devres_release_all devres' r' = devres_release_all devres r
  | HANDLE_ERR_PTR err =>
      devres' = devres /\ r' = r /\
      (ok = false -> err = - ENOMEM /\ log = []) /\
      (ok = true -> ti_sci_get_handle dt dev r = Some (handle, log, r'))
  | HANDLE_NULL => False
  end.
Proof.
  intros Hu. unfold devm_ti_sci_get_handle. destruct ok; simpl.
  2:{ intros [= <- <- <- <-]. split_and!; auto. discriminate. }
  destruct (ti_sci_get_handle dt dev r) as [[[h lg] rr]|] eqn:Hget; simpl;
    [|discriminate].
  destruct h as [err| |p]; intros [= <- <- <- <-].
  - split_and!; auto; [|discriminate]. exact (get_handle_err_inv _ _ _ _ _ _ Hget).
  - exact (get_handle_not_null _ _ _ _ _ Hget).
  - destruct (put_after_get dt dev r rr p lg Hu Hget) as (info & _ & _ & _ & _ & Hput).
    assert (Hrel : devm_ti_sci_release (HANDLE p) rr = Some ([], r)).
    { unfold devm_ti_sci_release. rewrite Hput. reflexivity. }
    split_and!; auto.
    cbn [devres_release_all]. rewrite Hrel. simpl.
    destruct (devres_release_all devres r) as [[l r2]|]; reflexivity.
Qed.

Lemma devm_get_handle_release_witness :
  exists r',
    devm_ti_sci_get_handle client_tree true (Some client_dev) k2g_registry []
    = Some (HANDLE 0, [], r', [HANDLE 0]) /\
    devres_release_all [HANDLE 0] r' = Some ([], k2g_registry).
Proof.
  destruct (devm_ti_sci_get_handle client_tree true (Some client_dev) k2g_registry [])
    as [[[[h log] r'] devres']|] eqn:Hdevm; [|vm_compute in Hdevm; discriminate Hdevm].
  assert (Hh : h = HANDLE 0 /\ log = [] /\ devres' = [HANDLE 0]).
  { vm_compute in Hdevm. injection Hdevm as <- <- _ <-. split_and!; reflexivity. }
  destruct Hh as (-> & -> & ->).
  pose proof (devm_get_handle_release client_tree true (Some client_dev)
                k2g_registry r' [] [HANDLE 0] (HANDLE 0) [] k2g_registry_users Hdevm)
    as (_ & _ & _ & _ & Hall).
  exists r'. split; [reflexivity|]. rewrite Hall. reflexivity.
Defined.

(** X17: the instance becomes visible when the probe links it. For a
    device whose "ti,sci" property names the node of the instance at
    [p], while no linked instance has that node the get is deferred
    with [-EPROBE_DEFER] and changes nothing; once
    [list_add_tail] has linked [p] at the end of a successful probe,
    the same get returns the handle of [p] and counts one more user. *)
Theorem listed_instance_found (dt : device_tree) (dv : device) (r : registry)
    (p : nat) (info : ti_sci_instance) (np sci_np : device_node) :
  (forall q, q ∈ ti_sci_list r -> is_Some (instances r !! q)) ->
  instances r !! p = Some info -> inst_of_node info = Some sci_np ->
  of_node dv = Some np -> dt np = Some sci_np ->
  (forall q i, q ∈ ti_sci_list r -> instances r !! q = Some i ->
               inst_of_node i <> Some sci_np) ->
  ti_sci_get_handle dt (Some dv) r
  = Some (HANDLE_ERR_PTR (- EPROBE_DEFER), [], r) /\
  ti_sci_get_handle dt (Some dv) (list_add_tail p r)
  = Some (HANDLE p, [],
          set_instance p (set_users (int_of (users info + 1)) info)
            (list_add_tail p r)).
Proof.
  intros Hval Hp Hnode Hnp Hdt Hno. unfold ti_sci_get_handle. rewrite Hnp, Hdt.
  split.
  - rewrite (find_instance_absent _ _ _ Hval Hno). reflexivity.
  - simpl. rewrite (find_instance_first (instances r) sci_np _ [] p info Hval Hno Hp
                      Hnode).
    simpl. rewrite Hp. reflexivity.
Qed.

Lemma listed_instance_found_witness :
  ti_sci_get_handle client_tree (Some client_dev)
    {| instances := [k2g_instance]; ti_sci_list := [] |}
  = Some (HANDLE_ERR_PTR (- EPROBE_DEFER), [],
          {| instances := [k2g_instance]; ti_sci_list := [] |}) /\
  exists r',
    ti_sci_get_handle client_tree (Some client_dev) k2g_registry
    = Some (HANDLE 0, [], r').
Proof.
  destruct (listed_instance_found client_tree client_dev
              {| instances := [k2g_instance]; ti_sci_list := [] |} 0 k2g_instance
              3%nat 7%nat) as [Hdefer Hfound]; try reflexivity.
  - intros q Hq. now apply elem_of_nil in Hq.
  - intros q i Hq. now apply elem_of_nil in Hq.
  - split; [exact Hdefer|]. eexists. exact Hfound.
Defined.

(** * Properties of the debug log file *)

Lemma length_c_string (b : list Z) : (length (c_string b) <= length b)%nat.
Proof.
  induction b as [|c b IH]; simpl; [lia|]. destruct (c =? 0); simpl; lia.
Qed.

Lemma seq_puts_terminated (l rest : list Z) :
  seq_puts (l ++ 0 :: rest) = Some (c_string l).
Proof.
  induction l as [|c l IH]; simpl; [reflexivity|].
  destruct (c =? 0); [reflexivity|]. rewrite IH. reflexivity.
Qed.

(** The name of the debug file fits its array exactly when the name of
    the device has at most 36 bytes. *)
Lemma debug_name_fits (src : list Z) :
  strncat SIZEOF_DEBUG_NAME debug_name src SIZEOF_DEBUG_NAME
  = if decide (length (c_string src) <= 36)%nat
    then Some (take 13 debug_name ++ c_string src) else None.
Proof.
  unfold strncat.
  change (c_string debug_name) with (take 13 debug_name).
  rewrite length_app, length_take.
  change (13 `min` length debug_name)%nat with 13%nat. unfold SIZEOF_DEBUG_NAME.
  rewrite length_take.
  destruct (decide (length (c_string src) <= 36)%nat) as [Hle|Hgt].
  - rewrite (take_ge (c_string src)) by lia. destruct (decide _) as [_|Hn]; [reflexivity|lia].
  - destruct (decide _) as [Hlt|_]; [lia|reflexivity].
Qed.

Lemma size_t_small (v : Z) : 0 <= v < 2 ^ 32 -> size_t_of_int v = v.
Proof. intros H. unfold size_t_of_int, BITS_PER_LONG. now apply Z.mod_small. Qed.

(** X18: the outcomes of [ti_sci_debugfs_create]. The region, if the
    device has one and it maps, has at most [2 ^ 32 - 1] bytes, and the
    name of the device has at most 36 bytes. Then the call returns.
    Without a mapped region it returns 0 and creates nothing, and
    [ti_sci_debugfs_destroy] later removes nothing: the region is
    optional. With a mapped region the size recorded is
    [end - start], one less than the bytes of the resource; a refused
    buffer gives [-ENOMEM] with no file; otherwise the buffer has
    [size + 1] zero bytes, the file is named "ti_sci_debug@" followed
    by the name of the device, and the value returned is 0 or the error
    in the file pointer. *)
Theorem debugfs_create_outcomes (env : debugfs_env) (dbg : ti_sci_debug) :
  (forall res, debug_messages env = Some res ->
     0 <= res_end res - res_start res < 2 ^ 32 - 1) ->
  (length (c_string (dev_name env)) <= 36)%nat ->
  exists ret ev dbg',
    ti_sci_debugfs_create env dbg = Some (ret, ev, dbg') /\
    debug_region dbg' = devm_ioremap_resource env /\
    match devm_ioremap_resource env with
    | IOMEM res =>
        debug_messages env = Some res /\
        debug_region_size dbg' = res_end res - res_start res /\
        ti_sci_debugfs_destroy dbg' = [debugfs_remove (d dbg')] /\
        (kcalloc_debug_buffer_ok env = false ->
         ret = - ENOMEM /\ debug_buffer dbg' = None /\ d dbg' = d dbg) /\
        (kcalloc_debug_buffer_ok env = true ->
         debug_ok dbg' /\
         debug_buffer dbg'
         = Some (replicate (S (Z.to_nat (res_end res - res_start res))) 0) /\
         d dbg'
         = debugfs_create_file env (take 13 debug_name ++ c_string (dev_name env)) /\
         (ret = 0 \/ d dbg' = DENTRY_ERR_PTR ret))
    | _ =>
        ret = 0 /\ ev = [] /\ d dbg' = d dbg /\
        debug_buffer dbg' = debug_buffer dbg /\
        ti_sci_debugfs_destroy dbg' = []
    end.
Proof.
  intros Hres Hname. unfold ti_sci_debugfs_create.
  assert (Hmap : forall res, devm_ioremap_resource env = IOMEM res ->
                             debug_messages env = Some res).
  { unfold devm_ioremap_resource. intros res.
    destruct (debug_messages env) as [res'|]; [|discriminate].
    destruct (ioremap_err env <? 0); [discriminate|]. now intros [= <-]. }
  assert (Hnn : devm_ioremap_resource env <> IOMEM_NULL).
  { unfold devm_ioremap_resource. destruct (debug_messages env); [|discriminate].
    destruct (ioremap_err env <? 0); discriminate. }
  destruct (devm_ioremap_resource env) as [|err|res] eqn:Hregion; [contradiction| |].
  - do 3 eexists. split; [reflexivity|]. simpl. split_and!; auto.
  - pose proof (Hres res (Hmap res eq_refl)) as Hsize.
    rewrite (size_t_small (res_end res - res_start res)) by lia.
    rewrite (size_t_small (res_end res - res_start res + 1)) by lia.
    unfold devm_alloc.
    destruct (kcalloc_debug_buffer_ok env); simpl.
    + destruct (Z.leb_spec 0 (res_end res - res_start res + 1)); [|lia]. simpl.
      destruct (decide _) as [_|Hn]; [|lia].
      rewrite debug_name_fits. destruct (decide _) as [_|Hn]; [|contradiction].
      cbn -[take debug_name replicate Z.to_nat].
      replace (Z.to_nat (res_end res - res_start res + 1))
        with (S (Z.to_nat (res_end res - res_start res))) by lia.
      rewrite insert_replicate.
      set (name := take 13 debug_name ++ c_string (dev_name env)).
      assert (Hok : debug_ok
                      {| d := debugfs_create_file env name;
                         debug_region := IOMEM res;
                         debug_buffer :=
                           Some (replicate
                                   (S (Z.to_nat (res_end res - res_start res))) 0);
                         debug_region_size := res_end res - res_start res |}).
      { eexists. cbn [debug_buffer debug_region_size].
        split; [reflexivity|]. split; [lia|].
        split; [apply length_replicate|]. apply lookup_replicate_2. lia. }
      destruct (debugfs_create_file env name) as [|err|file] eqn:Hfile;
        do 3 eexists; (split; [reflexivity|]);
        cbn -[take debug_name replicate Z.to_nat]; split_and!; auto;
        discriminate.
    + do 3 eexists. split; [reflexivity|]. simpl. split_and!; auto; discriminate.
Qed.

Lemma debugfs_create_outcomes_witness :
  exists dbg',
    ti_sci_debugfs_create debug_platform zero_debug
    = Some (0, [dbg_debug_region 15 {| res_start := 4096; res_end := 4111 |}], dbg') /\
    debug_ok dbg'.
Proof.
  destruct (debugfs_create_outcomes debug_platform zero_debug)
    as (ret & ev & dbg' & Hc & _ & Hspec).
  - intros res [= <-]. cbn [res_start res_end]. lia.
  - simpl. lia.
  - simpl in Hspec. destruct Hspec as (_ & _ & _ & _ & Hgranted).
    destruct (Hgranted eq_refl) as (Hok & _).
    exists dbg'. split; [|exact Hok].
    vm_compute in Hc. injection Hc as <- <- <-. reflexivity.
Defined.

(** X19: the array for the file name is overrun by long device names.
    With a mapped region of at most [2 ^ 32 - 1] bytes and the buffer
    granted, [ti_sci_debugfs_create] stays within the 50 bytes of
    [debug_name] exactly when the name of the device has at most 36
    bytes: [strncat] is given the size of the whole array, not the room
    left after the 13 bytes of "ti_sci_debug@" and before the
    terminator. *)
Theorem debugfs_create_name_overrun (env : debugfs_env) (dbg : ti_sci_debug)
    (res : resource) :
  debug_messages env = Some res -> 0 <= ioremap_err env ->
  0 <= res_end res - res_start res < 2 ^ 32 - 1 ->
  kcalloc_debug_buffer_ok env = true ->
  (is_Some (ti_sci_debugfs_create env dbg) <->
   (length (c_string (dev_name env)) <= 36)%nat) /\
  (ti_sci_debugfs_create env dbg = None <->
   (36 < length (c_string (dev_name env)))%nat).
Proof.
  intros Hres Hmap Hsize Hgranted.
  assert (Hiff : is_Some (ti_sci_debugfs_create env dbg) <->
                 (length (c_string (dev_name env)) <= 36)%nat).
  { unfold ti_sci_debugfs_create, devm_ioremap_resource. rewrite Hres.
    destruct (Z.ltb_spec (ioremap_err env) 0); [lia|].
    rewrite (size_t_small (res_end res - res_start res)) by lia.
    rewrite (size_t_small (res_end res - res_start res + 1)) by lia.
    unfold devm_alloc. rewrite Hgranted. simpl.
    destruct (Z.leb_spec 0 (res_end res - res_start res + 1)); [|lia]. simpl.
    destruct (decide _) as [_|Hn]; [|lia].
    rewrite debug_name_fits.
    destruct (decide (length (c_string (dev_name env)) <= 36)%nat) as [Hle|Hgt];
      simpl.
    - split; [auto|intros _]. destruct (debugfs_create_file env _); eexists; reflexivity.
    - split; [intros [x Hx]; discriminate|contradiction]. }
  split; [exact Hiff|]. rewrite <- Nat.nle_gt, <- Hiff.
  split; [intros -> [x Hx]; discriminate|].
  intros Hnone. destruct (ti_sci_debugfs_create env dbg); [|reflexivity].
  exfalso. apply Hnone. eexists. reflexivity.
Qed.

Lemma debugfs_create_name_overrun_witness :
  is_Some (ti_sci_debugfs_create debug_platform zero_debug).
Proof.
  destruct (debugfs_create_name_overrun debug_platform zero_debug
              {| res_start := 4096; res_end := 4111 |}) as [[_ Hfits] _];
    try reflexivity.
  - cbn [res_start res_end]. lia.
  - apply Hfits. simpl. lia.
Defined.

(** X20: the dump always ends inside the buffer. Once the file is
    made, the buffer has one byte more than the size recorded and that
    byte is zero; [ti_sci_debug_show] copies [debug_region_size] bytes
    of the region, so the terminator set at creation stays in place
    whatever the region holds. The call returns 0; the text emitted is
    the string at the first [debug_region_size] bytes of the region,
    never longer than that; and the buffer is again as after the
    creation, so this holds for every later read. *)
Theorem debug_show_terminated (dbg : ti_sci_debug) (mem : list Z) :
  debug_ok dbg ->
  (Z.to_nat (debug_region_size dbg) <= length mem)%nat ->
  exists text dbg',
    ti_sci_debug_show dbg mem = Some (0, text, dbg') /\
    text = c_string (take (Z.to_nat (debug_region_size dbg)) mem) /\
    (length text <= Z.to_nat (debug_region_size dbg))%nat /\
    debug_ok dbg' /\
    debug_region_size dbg' = debug_region_size dbg /\
    debug_region dbg' = debug_region dbg /\ d dbg' = d dbg.
Proof.
  intros (buffer & Hb & Hnn & Hlen & Hlast) Hmem.
  set (n := Z.to_nat (debug_region_size dbg)) in *.
  assert (Hdrop : drop n buffer = [0]).
  { apply list_eq. intros [|i]; rewrite lookup_drop.
    - rewrite Nat.add_0_r. exact Hlast.
    - simpl. apply lookup_ge_None_2. lia. }
  unfold ti_sci_debug_show. rewrite Hb. simpl. fold n. unfold memcpy_fromio.
  destruct (decide _) as [_|Hn]; [|lia]. simpl.
  rewrite Hdrop, seq_puts_terminated. simpl.
  do 2 eexists. split; [reflexivity|]. split; [reflexivity|]. split.
  - pose proof (length_c_string (take n mem)) as Hc.
    rewrite length_take in Hc. lia.
  - split; [|auto]. eexists. simpl. fold n. split; [reflexivity|].
    split; [exact Hnn|]. split.
    + rewrite length_app, length_take. simpl. lia.
    + rewrite lookup_app_r by (rewrite length_take; lia).
      rewrite length_take. replace (n - n `min` length mem)%nat with O by lia.
      reflexivity.
Qed.

Lemma debug_show_terminated_witness :
  exists dbg' dbg'',
    ti_sci_debugfs_create debug_platform zero_debug
    = Some (0, [dbg_debug_region 15 {| res_start := 4096; res_end := 4111 |}], dbg') /\
    ti_sci_debug_show dbg' (replicate 16 65) = Some (0, replicate 15 65, dbg'').
Proof.
  destruct (ti_sci_debugfs_create debug_platform zero_debug)
    as [[[ret ev] dbg']|] eqn:Hc; [|vm_compute in Hc; discriminate Hc].
  assert (Hdbg : ret = 0 /\
                 ev = [dbg_debug_region 15 {| res_start := 4096; res_end := 4111 |}] /\
                 debug_region_size dbg' = 15 /\
                 debug_buffer dbg' = Some (replicate 16 0)).
  { vm_compute in Hc. injection Hc as <- <- <-. split_and!; reflexivity. }
  destruct Hdbg as (-> & -> & Hsize & Hbuf).
  destruct (debug_show_terminated dbg' (replicate 16 65))
    as (text & dbg'' & Hshow & Htext & _).
  - exists (replicate 16 0). rewrite Hsize. split_and!; auto; lia.
  - rewrite Hsize. simpl. lia.
  - exists dbg', dbg''. split; [reflexivity|]. rewrite Hshow, Htext, Hsize.
    reflexivity.
Defined.
